(** * The real-time duplex speech session of the VBAI game

    A shallow embedding of the audio engine ([audio_manager.py]), the
    protocol client ([realtime_client.py]) and the frame-accumulation loop
    of the dialogue system ([enhanced_dialogue_system.py]), with the
    properties of the specification proved about it; then of the rest of
    these classes (starting the streams, the requests and the listener,
    the callbacks and the speech-mode switch), of the volume sliders
    ([settings_overlay.py]) and of the choice of the microphone
    ([audio_utils.py]), with further properties of the code.

    Conventions.
    - A Python [float] is an IEEE binary64 number and a NumPy [float32] an
      IEEE binary32 number: both are [spec_float] values with the operations
      of the standard library's executable IEEE model ([SFmul], [SFadd],
      [SFdiv], [SFltb]) at precision 53/1024 and 24/128.
    - An [int16] NumPy array is the list of its sample values ([Z]); a
      [bytes] object is a list of bytes; [tobytes]/[frombuffer] convert.
    - A [queue.Queue()] is the list of its items, oldest first.
    - Calls into the outside world (device streams, the web socket, the
      registered callbacks) are recorded as a trace of effects. *)

From Stdlib Require Import ZArith List Bool Ascii String Lia SpecFloat.
From stdpp Require Import gmap strings.
Import ListNotations.

Local Open Scope Z_scope.

(** ** IEEE numbers *)

Module F64.
Definition prec : Z := 53.
Definition emax : Z := 1024.

Definition of_Z (z : Z) : spec_float := binary_normalize prec emax z 0 false.
Definition add : spec_float -> spec_float -> spec_float := SFadd prec emax.
Definition div : spec_float -> spec_float -> spec_float := SFdiv prec emax.
Definition valid : spec_float -> bool := valid_binary prec emax.

(** The literals [0.0], [0.5] and [1.0]. *)
Definition zero : spec_float := S754_zero false.
Definition half : spec_float := S754_finite false 4503599627370496 (-53).
Definition one : spec_float := S754_finite false 4503599627370496 (-52).

(** [a <= x <= b]; false as soon as one of the three is a NaN. *)
Definition between (a b x : spec_float) : bool := SFleb a x && SFleb x b.
End F64.

Module F32.
Definition prec : Z := 24.
Definition emax : Z := 128.

Definition of_Z (z : Z) : spec_float := binary_normalize prec emax z 0 false.
Definition mul : spec_float -> spec_float -> spec_float := SFmul prec emax.
Definition div : spec_float -> spec_float -> spec_float := SFdiv prec emax.
Definition valid : spec_float -> bool := valid_binary prec emax.

(** A Python [float] operand of a [float32] array operation is first
    converted to [float32] (round to nearest even). *)
Definition of_f64 (x : spec_float) : spec_float :=
  match x with
  | S754_finite s m e => binary_round prec emax s m e
  | _ => x
  end.

Definition zero : spec_float := S754_zero false.
End F32.

(** Python's two-argument [min] and [max] keep the first argument unless the
    second is strictly smaller (larger); a NaN never replaces anything. *)
Definition py_min (a b : spec_float) : spec_float := if SFltb b a then b else a.
Definition py_max (a b : spec_float) : spec_float := if SFltb a b then b else a.

(** ** Bytes and [int16] arrays *)

Module Pcm.
Definition bytes := list Byte.byte.

Definition byte_of_Z (z : Z) : Byte.byte :=
  match Byte.of_N (Z.to_N (z mod 256)) with
  | Some b => b
  | None => Byte.x00
  end.

Definition Z_of_byte (b : Byte.byte) : Z := Z.of_N (Byte.to_N b).

Definition int16_min : Z := -32768.
Definition int16_max : Z := 32767.
Definition in_int16 (z : Z) : bool := (int16_min <=? z) && (z <=? int16_max).

(** [ndarray.tobytes()] of an [int16] array: two bytes a sample, low byte
    first, two's complement. *)
Fixpoint tobytes (a : list Z) : bytes :=
  match a with
  | [] => []
  | z :: a' => byte_of_Z z :: byte_of_Z (z / 256) :: tobytes a'
  end.

Definition int16_of_bytes (lo hi : Byte.byte) : Z :=
  let u := Z_of_byte lo + 256 * Z_of_byte hi in
  if u <? 32768 then u else u - 65536.

(** [np.frombuffer(b, dtype=np.int16)]: raises [ValueError] ([None]) when
    the buffer is not a whole number of samples. *)
Fixpoint frombuffer (b : bytes) : option (list Z) :=
  match b with
  | [] => Some []
  | lo :: hi :: b' =>
      match frombuffer b' with
      | Some a => Some (int16_of_bytes lo hi :: a)
      | None => None
      end
  | [_] => None
  end.

(** The value of a finite IEEE number rounded toward zero; infinities and
    NaN have none. *)
Definition trunc (x : spec_float) : option Z :=
  match x with
  | S754_zero _ => Some 0
  | S754_finite s m e =>
      let a := match e with
               | Zneg p => Z.pos m / 2 ^ Z.pos p
               | _ => Z.pos m * 2 ^ e
               end in
      Some (if s then - a else a)
  | _ => None
  end.
End Pcm.

(** ** [audio_manager.py]: class [AudioManager] *)

Module AudioManager.
Import Pcm.

Record state := mk {
  sample_rate : Z;
  channels : Z;
  chunk_size : Z;
  (** [Optional] handles: [true] when not [None] *)
  input_stream : bool;
  output_stream : bool;
  output_thread : bool;
  (** queues, oldest item first *)
  input_queue : list bytes;
  output_queue : list bytes;
  is_recording : bool;
  is_playing : bool;
  should_stop : bool;
  (** [true] when a callback is registered *)
  on_audio_input : bool;
  input_volume : spec_float;
  output_volume : spec_float;
  vad_threshold : spec_float;
  silence_duration : spec_float;
  last_speech_time : spec_float
}.

(** What a method does to the outside world. *)
Inductive effect :=
| InputStreamStop
| InputStreamClose
| OutputThreadJoin (timeout : spec_float)
| CallOnAudioInput (data : bytes).

(** [AudioManager(sample_rate=24000, ...)] as the dialogue system builds
    it, with the defaults of [__init__]. *)
Definition init (rate : Z) : state :=
  {| sample_rate := rate; channels := 1; chunk_size := 1024;
     input_stream := false; output_stream := false; output_thread := false;
     input_queue := []; output_queue := [];
     is_recording := false; is_playing := false; should_stop := false;
     on_audio_input := false;
     input_volume := F64.one; output_volume := F64.one;
     vad_threshold := S754_finite false 5764607523034235 (-59);
     silence_duration := F64.half;
     last_speech_time := F64.zero |}.

(** Field updates. *)
Definition with_input_stream (x : bool) (s : state) : state :=
  mk (sample_rate s) (channels s) (chunk_size s) x (output_stream s)
    (output_thread s) (input_queue s) (output_queue s) (is_recording s)
    (is_playing s) (should_stop s) (on_audio_input s) (input_volume s)
    (output_volume s) (vad_threshold s) (silence_duration s)
    (last_speech_time s).

Definition with_output_stream (x : bool) (s : state) : state :=
  mk (sample_rate s) (channels s) (chunk_size s) (input_stream s) x
    (output_thread s) (input_queue s) (output_queue s) (is_recording s)
    (is_playing s) (should_stop s) (on_audio_input s) (input_volume s)
    (output_volume s) (vad_threshold s) (silence_duration s)
    (last_speech_time s).

Definition with_output_thread (x : bool) (s : state) : state :=
  mk (sample_rate s) (channels s) (chunk_size s) (input_stream s)
    (output_stream s) x (input_queue s) (output_queue s) (is_recording s)
    (is_playing s) (should_stop s) (on_audio_input s) (input_volume s)
    (output_volume s) (vad_threshold s) (silence_duration s)
    (last_speech_time s).

Definition with_input_queue (x : list bytes) (s : state) : state :=
  mk (sample_rate s) (channels s) (chunk_size s) (input_stream s)
    (output_stream s) (output_thread s) x (output_queue s) (is_recording s)
    (is_playing s) (should_stop s) (on_audio_input s) (input_volume s)
    (output_volume s) (vad_threshold s) (silence_duration s)
    (last_speech_time s).

Definition with_output_queue (x : list bytes) (s : state) : state :=
  mk (sample_rate s) (channels s) (chunk_size s) (input_stream s)
    (output_stream s) (output_thread s) (input_queue s) x (is_recording s)
    (is_playing s) (should_stop s) (on_audio_input s) (input_volume s)
    (output_volume s) (vad_threshold s) (silence_duration s)
    (last_speech_time s).

Definition with_is_recording (x : bool) (s : state) : state :=
  mk (sample_rate s) (channels s) (chunk_size s) (input_stream s)
    (output_stream s) (output_thread s) (input_queue s) (output_queue s) x
    (is_playing s) (should_stop s) (on_audio_input s) (input_volume s)
    (output_volume s) (vad_threshold s) (silence_duration s)
    (last_speech_time s).

Definition with_is_playing (x : bool) (s : state) : state :=
  mk (sample_rate s) (channels s) (chunk_size s) (input_stream s)
    (output_stream s) (output_thread s) (input_queue s) (output_queue s)
    (is_recording s) x (should_stop s) (on_audio_input s) (input_volume s)
    (output_volume s) (vad_threshold s) (silence_duration s)
    (last_speech_time s).

Definition with_should_stop (x : bool) (s : state) : state :=
  mk (sample_rate s) (channels s) (chunk_size s) (input_stream s)
    (output_stream s) (output_thread s) (input_queue s) (output_queue s)
    (is_recording s) (is_playing s) x (on_audio_input s) (input_volume s)
    (output_volume s) (vad_threshold s) (silence_duration s)
    (last_speech_time s).

Definition with_input_volume (x : spec_float) (s : state) : state :=
  mk (sample_rate s) (channels s) (chunk_size s) (input_stream s)
    (output_stream s) (output_thread s) (input_queue s) (output_queue s)
    (is_recording s) (is_playing s) (should_stop s) (on_audio_input s) x
    (output_volume s) (vad_threshold s) (silence_duration s)
    (last_speech_time s).

Definition with_output_volume (x : spec_float) (s : state) : state :=
  mk (sample_rate s) (channels s) (chunk_size s) (input_stream s)
    (output_stream s) (output_thread s) (input_queue s) (output_queue s)
    (is_recording s) (is_playing s) (should_stop s) (on_audio_input s)
    (input_volume s) x (vad_threshold s) (silence_duration s)
    (last_speech_time s).

Definition with_last_speech_time (x : spec_float) (s : state) : state :=
  mk (sample_rate s) (channels s) (chunk_size s) (input_stream s)
    (output_stream s) (output_thread s) (input_queue s) (output_queue s)
    (is_recording s) (is_playing s) (should_stop s) (on_audio_input s)
    (input_volume s) (output_volume s) (vad_threshold s)
    (silence_duration s) x.

(** [stop_recording]: returns at once when not recording; otherwise clears
    the flag and, when there is a stream, stops, closes and forgets it. *)
Definition stop_recording (s : state) : state * list effect :=
  if negb (is_recording s) then (s, [])
  else
    let s1 := with_is_recording false s in
    if input_stream s1
    then (with_input_stream false s1, [InputStreamStop; InputStreamClose])
    else (s1, []).

(** [stop_playback]: returns at once when not playing; otherwise clears
    [is_playing], raises [should_stop] and, when there is a worker thread,
    joins it for at most one second and forgets it. *)
Definition stop_playback (s : state) : state * list effect :=
  if negb (is_playing s) then (s, [])
  else
    let s1 := with_should_stop true (with_is_playing false s) in
    if output_thread s1
    then (with_output_thread false s1, [OutputThreadJoin F64.one])
    else (s1, []).

(** [get_audio_chunk]: [get_nowait] on the input queue, [None] when empty. *)
Definition get_audio_chunk (s : state) : option bytes * state :=
  match input_queue s with
  | [] => (None, s)
  | c :: q => (Some c, with_input_queue q s)
  end.

(** [clear_queues]: both loops run until their queue is empty. *)
Definition clear_queues (s : state) : state :=
  with_output_queue [] (with_input_queue [] s).

(** [set_volumes]: a supplied value is stored as
    [max(0.0, min(1.0, value))]; [None] leaves the volume alone. *)
Definition clamp01 (v : spec_float) : spec_float :=
  py_max F64.zero (py_min F64.one v).

Definition set_volumes (s : state) (input output : option spec_float)
  : state :=
  let s1 := match input with
            | Some v => with_input_volume (clamp01 v) s
            | None => s
            end in
  match output with
  | Some v => with_output_volume (clamp01 v) s1
  | None => s1
  end.

(** *** The capture callback of [start_recording] *)
Module Recording.
Section Callback.
(** [astype(np.int16)] is a C conversion: it rounds toward zero, and
    outside the [int16] range (and for NaN and the infinities) its
    result is whatever the platform yields. *)
Variable cast_overflow : spec_float -> Z.
(** The test [rms > self.vad_threshold] on the converted frame. *)
Variable rms_exceeds : list Z -> spec_float -> bool.

Definition astype_int16 (x : spec_float) : Z :=
  match trunc x with
  | Some z => if in_int16 z then z else cast_overflow x
  | None => cast_overflow x
  end.

(** [(indata * self.input_volume) * 32767] in [float32], then the
    conversion. *)
Definition capture_sample (volume x : spec_float) : Z :=
  astype_int16
    (F32.mul (F32.mul x (F32.of_f64 volume)) (F32.of_Z 32767)).

(** [indata] is the [float32] block of the device, [now] the value of
    [time.time()]. *)
Definition audio_callback (s : state) (indata : list spec_float)
    (now : spec_float) : state * list effect :=
  let audio_int16 := map (capture_sample (input_volume s)) indata in
  let s1 := if rms_exceeds audio_int16 (vad_threshold s)
            then with_last_speech_time now s else s in
  let data := tobytes audio_int16 in
  let s2 := with_input_queue (input_queue s1 ++ [data]) s1 in
  (s2, if on_audio_input s2 then [CallOnAudioInput data] else []).

(** The device driving the callback block after block. *)
Fixpoint capture (s : state) (blocks : list (list spec_float * spec_float))
    : state * list effect :=
  match blocks with
  | [] => (s, [])
  | (indata, now) :: rest =>
      let '(s1, t1) := audio_callback s indata now in
      let '(s2, t2) := capture s1 rest in
      (s2, t1 ++ t2)
  end.
End Callback.
End Recording.

(** *** The playback callback of [playback_worker]

    [buffer] is the worker's [int16] array, kept between invocations. The
    stream has one channel (the default, which the program never
    changes), so [outdata] is a column of [frames] samples. *)
Module Playback.
(** [while not self.output_queue.empty() and len(buffer) < frames]:
    [get_nowait], [frombuffer], [concatenate]. *)
Fixpoint fetch (q : list bytes) (buffer : list Z) (frames : nat)
    : option (list Z * list bytes) :=
  match q with
  | [] => Some (buffer, [])
  | audio_chunk :: q' =>
      if (length buffer <? frames)%nat then
        match frombuffer audio_chunk with
        | Some audio_array => fetch q' (buffer ++ audio_array) frames
        | None => None
        end
      else Some (buffer, q)
  end.

(** [x.astype(np.float32) / 32767.0], then [*= self.output_volume]. *)
Definition play_sample (volume : spec_float) (z : Z) : spec_float :=
  F32.mul (F32.div (F32.of_Z z) (F32.of_Z 32767)) (F32.of_f64 volume).

(** The result is [None] when the callback raises, else the contents of
    [outdata], the new [buffer] and the new state. *)
Definition audio_callback (s : state) (buffer : list Z) (frames : nat)
    : option (list spec_float * list Z * state) :=
  match fetch (output_queue s) buffer frames with
  | None => None
  | Some (buffer1, q) =>
      let s1 := with_output_queue q s in
      if (frames <=? length buffer1)%nat then
        Some (map (play_sample (output_volume s1)) (firstn frames buffer1),
              skipn frames buffer1, s1)
      else Some (repeat F32.zero frames, buffer1, s1)
  end.
End Playback.
End AudioManager.

(** ** [realtime_client.py]: class [OpenAIRealtimeClient] *)

Module RealtimeClient.
Import Pcm.

(** One entry of [npc_voices]. *)
Record voice_config := mk_voice {
  voice : string;
  instructions : string;
  sample : string
}.

Definition voice_HR : voice_config :=
  {| voice := "alloy";
     instructions := "You are Sarah Chen, HR Director at Venture Builder AI. 
                Speak in a warm, professional tone. Keep responses conversational and helpful.
                Be empathetic and supportive in your interactions.";
     sample := "Welcome to Venture Builder AI! How can I help you today?" |}.

Definition voice_CEO : voice_config :=
  {| voice := "echo";
     instructions := "You are Alex Rivera, CEO of Venture Builder AI. 
                Speak with authority, vision, and a touch of inspiration. 
                Be confident and forward-thinking in your responses.";
     sample := "I'm Alex Rivera, CEO. Let's build the future together!" |}.

Definition voice_Engineer : voice_config :=
  {| voice := "fable";
     instructions := "You are Maya Patel, Lead Engineer at Venture Builder AI. 
                Speak with technical expertise and enthusiasm. Be precise and helpful with technical questions.
                Show passion for innovation and problem-solving.";
     sample := "Hi! I'm Maya, your technical lead. What can I help you build today?" |}.

Record state := mk {
  (** [Optional] handle: [true] when not [None] *)
  websocket : bool;
  session_id : option string;
  is_connected : bool;
  is_recording : bool;
  is_playing : bool;
  is_processing : bool;
  (** callbacks: [true] when one is registered *)
  on_text_callback : bool;
  on_audio_callback : bool;
  on_error_callback : bool;
  on_session_created_callback : bool;
  on_speech_started_callback : bool;
  on_speech_stopped_callback : bool;
  interrupt_event : bool;
  stop_event : bool;
  current_voice : string;
  current_instructions : string;
  current_npc_name : string;
  (** the persona table, a [dict] keyed by persona name *)
  npc_voices : gmap string voice_config
}.

(** [__init__] *)
Definition init : state :=
  {| websocket := false; session_id := None;
     is_connected := false; is_recording := false;
     is_playing := false; is_processing := false;
     on_text_callback := false; on_audio_callback := false;
     on_error_callback := false; on_session_created_callback := false;
     on_speech_started_callback := false;
     on_speech_stopped_callback := false;
     interrupt_event := false; stop_event := false;
     current_voice := "alloy"; current_instructions := "";
     current_npc_name := "HR";
     npc_voices :=
       <["Engineer" := voice_Engineer]>
         (<["CEO" := voice_CEO]> (<["HR" := voice_HR]> ∅)) |}.

(** Field updates. *)
Definition with_websocket (x : bool) (s : state) : state :=
  mk x (session_id s) (is_connected s) (is_recording s) (is_playing s)
    (is_processing s) (on_text_callback s) (on_audio_callback s)
    (on_error_callback s) (on_session_created_callback s)
    (on_speech_started_callback s) (on_speech_stopped_callback s)
    (interrupt_event s) (stop_event s) (current_voice s)
    (current_instructions s) (current_npc_name s) (npc_voices s).

Definition with_session_id (x : option string) (s : state) : state :=
  mk (websocket s) x (is_connected s) (is_recording s) (is_playing s)
    (is_processing s) (on_text_callback s) (on_audio_callback s)
    (on_error_callback s) (on_session_created_callback s)
    (on_speech_started_callback s) (on_speech_stopped_callback s)
    (interrupt_event s) (stop_event s) (current_voice s)
    (current_instructions s) (current_npc_name s) (npc_voices s).

Definition with_is_connected (x : bool) (s : state) : state :=
  mk (websocket s) (session_id s) x (is_recording s) (is_playing s)
    (is_processing s) (on_text_callback s) (on_audio_callback s)
    (on_error_callback s) (on_session_created_callback s)
    (on_speech_started_callback s) (on_speech_stopped_callback s)
    (interrupt_event s) (stop_event s) (current_voice s)
    (current_instructions s) (current_npc_name s) (npc_voices s).

Definition with_is_recording (x : bool) (s : state) : state :=
  mk (websocket s) (session_id s) (is_connected s) x (is_playing s)
    (is_processing s) (on_text_callback s) (on_audio_callback s)
    (on_error_callback s) (on_session_created_callback s)
    (on_speech_started_callback s) (on_speech_stopped_callback s)
    (interrupt_event s) (stop_event s) (current_voice s)
    (current_instructions s) (current_npc_name s) (npc_voices s).

Definition with_is_playing (x : bool) (s : state) : state :=
  mk (websocket s) (session_id s) (is_connected s) (is_recording s) x
    (is_processing s) (on_text_callback s) (on_audio_callback s)
    (on_error_callback s) (on_session_created_callback s)
    (on_speech_started_callback s) (on_speech_stopped_callback s)
    (interrupt_event s) (stop_event s) (current_voice s)
    (current_instructions s) (current_npc_name s) (npc_voices s).

Definition with_is_processing (x : bool) (s : state) : state :=
  mk (websocket s) (session_id s) (is_connected s) (is_recording s)
    (is_playing s) x (on_text_callback s) (on_audio_callback s)
    (on_error_callback s) (on_session_created_callback s)
    (on_speech_started_callback s) (on_speech_stopped_callback s)
    (interrupt_event s) (stop_event s) (current_voice s)
    (current_instructions s) (current_npc_name s) (npc_voices s).

Definition with_on_error_callback (x : bool) (s : state) : state :=
  mk (websocket s) (session_id s) (is_connected s) (is_recording s)
    (is_playing s) (is_processing s) (on_text_callback s)
    (on_audio_callback s) x (on_session_created_callback s)
    (on_speech_started_callback s) (on_speech_stopped_callback s)
    (interrupt_event s) (stop_event s) (current_voice s)
    (current_instructions s) (current_npc_name s) (npc_voices s).

Definition with_npc_voices (x : gmap string voice_config) (s : state) : state :=
  mk (websocket s) (session_id s) (is_connected s) (is_recording s)
    (is_playing s) (is_processing s) (on_text_callback s)
    (on_audio_callback s) (on_error_callback s)
    (on_session_created_callback s) (on_speech_started_callback s)
    (on_speech_stopped_callback s) (interrupt_event s) (stop_event s)
    (current_voice s) (current_instructions s) (current_npc_name s) x.

(** What a method does to the outside world: transport operations, calls
    of the registered callbacks, and an exception that leaves the
    method. *)
Inductive effect :=
| WebsocketsConnect
| Sleep (seconds : Z)
| CreateTaskListen
| OnText (text : string) (complete : bool)
| OnAudio (data : bytes)
| OnError (message : string)
| OnSessionCreated
| OnSpeechStarted
| OnSpeechStopped
| Raise (exception : string).

(** *** [connect]

    [transport k] tells whether the [k]-th call of [websockets.connect]
    of this run succeeds. The loop body of [for attempt in
    range(max_retries)]: a success records the socket, sets
    [is_connected], starts the listener task and returns [True]; a failure
    is logged and followed by [asyncio.sleep(2)]. Past the loop:
    [is_connected = False], the error callback when there is one,
    [False]. *)
Definition max_retries : nat := 3.

Fixpoint attempts (transport : nat -> bool) (attempt remaining : nat)
    (s : state) : bool * state * list effect :=
  match remaining with
  | O =>
      (false, with_is_connected false s,
       if on_error_callback s
       then [OnError "Connection failed after retries."] else [])
  | S remaining' =>
      if transport attempt then
        (true, with_is_connected true (with_websocket true s),
         [WebsocketsConnect; CreateTaskListen])
      else
        let '(r, s', t) := attempts transport (S attempt) remaining' s in
        (r, s', WebsocketsConnect :: Sleep 2 :: t)
  end.

Definition connect (transport : nat -> bool) (s : state)
    : bool * state * list effect :=
  attempts transport 0 max_retries s.

(** *** The persona table *)

(** [self.npc_voices.get(npc_name, self.npc_voices["HR"])]: the default is
    evaluated first, so a table without ["HR"] raises [KeyError]
    ([None]). *)
Definition get_npc_voice_config (s : state) (npc_name : string)
    : option voice_config :=
  match npc_voices s !! "HR" with
  | Some hr =>
      match npc_voices s !! npc_name with
      | Some c => Some c
      | None => Some hr
      end
  | None => None
  end.

Definition set_npc_voice_config (s : state)
    (npc_name voice instructions sample : string) : state :=
  with_npc_voices
    (<[npc_name := mk_voice voice instructions sample]> (npc_voices s)) s.

(** *** [_handle_message] *)

(** An inbound message after [json.loads], by its ["type"]; a field that
    is absent is [None]. [Error message] is an error event whose ["error"]
    is absent or an object, and whose ["message"], when present, is a
    string. [ErrorMalformed] is an error event whose ["error"] is not an
    object (JSON [null], a string, a number, a list) or whose ["message"]
    is present and not a string; [SessionCreatedMalformed] is a
    [session.created] whose ["session"] is not an object. *)
Inductive message :=
| SessionCreated (id : option string)
| ResponseAudioDelta (delta : option string)
| ResponseTextDelta (delta : option string)
| ResponseTextDone (text : option string)
| ResponseAudioTranscriptDelta (delta : option string)
| ResponseAudioTranscriptDone (transcript : option string)
| InputAudioBufferSpeechStarted
| InputAudioBufferSpeechStopped
| ResponseDone
| Error (message : option string)
| Unhandled (type : option string)
| ErrorMalformed
| SessionCreatedMalformed.

(** [str.lower()] on the ASCII letters. *)
Definition lower_ascii (c : ascii) : ascii :=
  let n := nat_of_ascii c in
  if ((65 <=? n) && (n <=? 90))%nat then ascii_of_nat (n + 32) else c.

Fixpoint lower (s : string) : string :=
  match s with
  | EmptyString => EmptyString
  | String c s' => String (lower_ascii c) (lower s')
  end.

(** [needle in hay] *)
Fixpoint contains (needle hay : string) : bool :=
  if String.prefix needle hay then true
  else match hay with
       | EmptyString => false
       | String _ hay' => contains needle hay'
       end.

(** A string is true when it is present and not empty. *)
Definition truthy (o : option string) : option string :=
  match o with
  | Some EmptyString => None
  | _ => o
  end.

Definition benign : string := "no active response found".

Section HandleMessage.
(** [base64.b64decode]; [None] when it raises. *)
Variable b64decode : string -> option bytes.

Definition text_event (s : state) (o : option string) (complete : bool)
    : state * list effect :=
  match truthy o with
  | Some t => (s, if on_text_callback s then [OnText t complete] else [])
  | None => (s, [])
  end.

(** On a malformed error or session event [.get] or [.lower()] raises
    [AttributeError] before any attribute is written and before any
    callback: the exception leaves the method (the listener logs it). *)
Definition _handle_message (s : state) (data : message)
    : state * list effect :=
  match data with
  | SessionCreated id =>
      (with_session_id id s,
       if on_session_created_callback s then [OnSessionCreated] else [])
  | ResponseAudioDelta delta =>
      match truthy delta with
      | Some audio_data =>
          if on_audio_callback s then
            match b64decode audio_data with
            | Some audio_bytes =>
                (with_is_playing true s, [OnAudio audio_bytes])
            | None => (s, [])
            end
          else (s, [])
      | None => (s, [])
      end
  | ResponseTextDelta delta => text_event s delta false
  | ResponseTextDone text => text_event s text true
  | ResponseAudioTranscriptDelta delta => text_event s delta false
  | ResponseAudioTranscriptDone transcript => text_event s transcript true
  | InputAudioBufferSpeechStarted =>
      (with_is_recording true s,
       if on_speech_started_callback s then [OnSpeechStarted] else [])
  | InputAudioBufferSpeechStopped =>
      (with_is_recording false s,
       if on_speech_stopped_callback s then [OnSpeechStopped] else [])
  | ResponseDone =>
      (with_is_processing false (with_is_playing false s), [])
  | Error message =>
      let error_msg := match message with
                       | Some m => m
                       | None => "Unknown error"
                       end in
      let s' := with_is_playing false (with_is_processing false s) in
      if contains benign (lower error_msg) then (s', [])
      else (s', if on_error_callback s then [OnError error_msg] else [])
  | Unhandled _ => (s, [])
  | ErrorMalformed => (s, [Raise "AttributeError"])
  | SessionCreatedMalformed => (s, [Raise "AttributeError"])
  end.
End HandleMessage.
End RealtimeClient.

(** ** [enhanced_dialogue_system.py]: the frame-accumulation loop

    [_on_audio_input] turns each captured block into a [float32] array of
    the [int16] samples times [audio_gain = 5.0] and puts it on
    [audio_buffer] unless its RMS is below [0.0001]. Such samples are whole
    numbers below [2^24], which [float32] holds exactly: an item of
    [audio_buffer] is the list of its sample values. *)

Module Dialogue.
Import Pcm.

(** The two locals the loop carries from one iteration to the next. *)
Record accumulator := mk {
  accumulated_audio : list (list Z);
  accumulated_duration : spec_float
}.

Definition empty : accumulator := mk [] F64.zero.

(** The coroutines the loop hands to the client. *)
Inductive call :=
| SendAudioChunk (audio_data : bytes)
| CommitAudioBuffer.

(** The outcome of [self.audio_buffer.get(timeout=0.1)]: an item, or
    [queue.Empty]. [ready] is the value, at that iteration, of
    [self.realtime_client.is_connected and self.async_loop is not None]. *)
Inductive poll :=
| Got (audio_data : list Z) (ready : bool)
| Empty.

Definition chunk_size : Z := 1024.
Definition min_commit_duration : spec_float := F64.half.

(** [chunk_size / sample_rate] *)
Definition chunk_duration (sample_rate : Z) : spec_float :=
  F64.div (F64.of_Z chunk_size) (F64.of_Z sample_rate).

(** [np.clip(x, -32768, 32767).astype(np.int16)] *)
Definition clip_int16 (x : Z) : Z := Z.max int16_min (Z.min int16_max x).

(** One iteration of [while self.speech_mode]. *)
Definition iteration (chunk_duration : spec_float) (acc : accumulator)
    (p : poll) : accumulator * list call :=
  match p with
  | Empty => (acc, [])
  | Got audio_data ready =>
      let audio := accumulated_audio acc ++ [audio_data] in
      let duration := F64.add (accumulated_duration acc) chunk_duration in
      if SFleb min_commit_duration duration then
        let audio_to_send := concat audio in
        if (length audio_to_send =? 0)%nat then (empty, [])
        else
          let audio_int16 := map clip_int16 audio_to_send in
          (empty,
           if ready
           then [SendAudioChunk (tobytes audio_int16); CommitAudioBuffer]
           else [])
      else (mk audio duration, [])
  end.

Fixpoint iterations (chunk_duration : spec_float) (acc : accumulator)
    (polls : list poll) : accumulator * list call :=
  match polls with
  | [] => (acc, [])
  | p :: polls' =>
      let '(acc1, calls1) := iteration chunk_duration acc p in
      let '(acc2, calls2) := iterations chunk_duration acc1 polls' in
      (acc2, calls1 ++ calls2)
  end.

(** The loop from its start until speech mode is switched off, [polls]
    being what the queue gave meanwhile. [None]: the division by a zero
    sample rate raises before the loop is entered. *)
Definition _process_audio_input (sample_rate : Z) (polls : list poll)
    : option (accumulator * list call) :=
  if sample_rate =? 0 then None
  else Some (iterations (chunk_duration sample_rate) empty polls).

(** The items a run receives, in order, and whether the client was ready
    at each of them. *)
Fixpoint received (polls : list poll) : list (list Z) :=
  match polls with
  | [] => []
  | Got a _ :: polls' => a :: received polls'
  | Empty :: polls' => received polls'
  end.

Fixpoint always_ready (polls : list poll) : bool :=
  match polls with
  | [] => true
  | Got _ r :: polls' => r && always_ready polls'
  | Empty :: polls' => always_ready polls'
  end.

Definition is_commit (c : call) : bool :=
  match c with
  | CommitAudioBuffer => true
  | SendAudioChunk _ => false
  end.

Definition commits (calls : list call) : nat :=
  length (List.filter is_commit calls).
End Dialogue.

(** ** [audio_manager.py]: starting the streams, VAD, cleanup *)

Module AudioEngine.
Import Pcm.

(** How far [start_recording] gets in its [try] block: listing the
    devices, building the [InputStream], starting it. *)
Inductive stream_open :=
| QueryFailed
| ConstructFailed
| StartFailed
| Started.

(** [start_recording]: nothing when already recording. Otherwise the flags
    are set once the devices are listed, the stream is stored once built,
    and any exception on the way clears [is_recording] again. *)
Definition start_recording (outcome : stream_open) (s : AudioManager.state)
    : AudioManager.state :=
  if AudioManager.is_recording s then s
  else
    let flagged :=
      AudioManager.with_should_stop false
        (AudioManager.with_is_recording true s) in
    match outcome with
    | QueryFailed => AudioManager.with_is_recording false s
    | ConstructFailed => AudioManager.with_is_recording false flagged
    | StartFailed =>
        AudioManager.with_is_recording false
          (AudioManager.with_input_stream true flagged)
    | Started => AudioManager.with_input_stream true flagged
    end.

(** [start_playback]: nothing when already playing. Otherwise the flags are
    set and the worker thread is stored and started; [spawned] is false
    when [Thread.start] raises, which clears [is_playing] again. *)
Definition start_playback (spawned : bool) (s : AudioManager.state)
    : AudioManager.state :=
  if AudioManager.is_playing s then s
  else
    let threaded :=
      AudioManager.with_output_thread true
        (AudioManager.with_should_stop false
           (AudioManager.with_is_playing true s)) in
    if spawned then threaded else AudioManager.with_is_playing false threaded.

(** [play_audio_chunk]: starts playback when it is not running, then puts
    the chunk on the output queue. *)
Definition play_audio_chunk (spawned : bool) (audio_data : bytes)
    (s : AudioManager.state) : AudioManager.state :=
  let s1 := if AudioManager.is_playing s then s else start_playback spawned s in
  AudioManager.with_output_queue (AudioManager.output_queue s1 ++ [audio_data])
    s1.

(** [is_speech_detected]:
    [(time.time() - self.last_speech_time) < self.silence_duration] *)
Definition is_speech_detected (now : spec_float) (s : AudioManager.state)
    : bool :=
  SFltb (SFsub F64.prec F64.emax now (AudioManager.last_speech_time s))
    (AudioManager.silence_duration s).

(** [cleanup]: [stop_recording], [stop_playback], [clear_queues]. *)
Definition cleanup (s : AudioManager.state)
    : AudioManager.state * list AudioManager.effect :=
  let '(s1, t1) := AudioManager.stop_recording s in
  let '(s2, t2) := AudioManager.stop_playback s1 in
  (AudioManager.clear_queues s2, t1 ++ t2).

(** [n] calls of [get_audio_chunk] in a row, with what each returned. *)
Fixpoint get_audio_chunks (n : nat) (s : AudioManager.state)
    : list (option bytes) * AudioManager.state :=
  match n with
  | O => ([], s)
  | S n' =>
      let '(c, s1) := AudioManager.get_audio_chunk s in
      let '(cs, s2) := get_audio_chunks n' s1 in
      (c :: cs, s2)
  end.
(** [self.audio_manager.on_audio_input = ...], as the dialogue system
    registers its callback. *)
Definition with_on_audio_input (x : bool) (s : AudioManager.state)
    : AudioManager.state :=
  AudioManager.mk (AudioManager.sample_rate s) (AudioManager.channels s)
    (AudioManager.chunk_size s) (AudioManager.input_stream s)
    (AudioManager.output_stream s) (AudioManager.output_thread s)
    (AudioManager.input_queue s) (AudioManager.output_queue s)
    (AudioManager.is_recording s) (AudioManager.is_playing s)
    (AudioManager.should_stop s) x (AudioManager.input_volume s)
    (AudioManager.output_volume s) (AudioManager.vad_threshold s)
    (AudioManager.silence_duration s) (AudioManager.last_speech_time s).
End AudioEngine.

(** ** [realtime_client.py]: the requests, the listener, the callbacks *)

Module RealtimeSession.
Import Pcm.

(** Field updates the requests need. *)
Definition with_on_text_callback (x : bool) (s : RealtimeClient.state)
    : RealtimeClient.state :=
  RealtimeClient.mk (RealtimeClient.websocket s) (RealtimeClient.session_id s)
    (RealtimeClient.is_connected s) (RealtimeClient.is_recording s)
    (RealtimeClient.is_playing s) (RealtimeClient.is_processing s) x
    (RealtimeClient.on_audio_callback s) (RealtimeClient.on_error_callback s)
    (RealtimeClient.on_session_created_callback s)
    (RealtimeClient.on_speech_started_callback s)
    (RealtimeClient.on_speech_stopped_callback s)
    (RealtimeClient.interrupt_event s) (RealtimeClient.stop_event s)
    (RealtimeClient.current_voice s) (RealtimeClient.current_instructions s)
    (RealtimeClient.current_npc_name s) (RealtimeClient.npc_voices s).

Definition with_on_audio_callback (x : bool) (s : RealtimeClient.state)
    : RealtimeClient.state :=
  RealtimeClient.mk (RealtimeClient.websocket s) (RealtimeClient.session_id s)
    (RealtimeClient.is_connected s) (RealtimeClient.is_recording s)
    (RealtimeClient.is_playing s) (RealtimeClient.is_processing s)
    (RealtimeClient.on_text_callback s) x (RealtimeClient.on_error_callback s)
    (RealtimeClient.on_session_created_callback s)
    (RealtimeClient.on_speech_started_callback s)
    (RealtimeClient.on_speech_stopped_callback s)
    (RealtimeClient.interrupt_event s) (RealtimeClient.stop_event s)
    (RealtimeClient.current_voice s) (RealtimeClient.current_instructions s)
    (RealtimeClient.current_npc_name s) (RealtimeClient.npc_voices s).

Definition with_on_session_created_callback (x : bool) (s : RealtimeClient.state)
    : RealtimeClient.state :=
  RealtimeClient.mk (RealtimeClient.websocket s) (RealtimeClient.session_id s)
    (RealtimeClient.is_connected s) (RealtimeClient.is_recording s)
    (RealtimeClient.is_playing s) (RealtimeClient.is_processing s)
    (RealtimeClient.on_text_callback s) (RealtimeClient.on_audio_callback s)
    (RealtimeClient.on_error_callback s) x
    (RealtimeClient.on_speech_started_callback s)
    (RealtimeClient.on_speech_stopped_callback s)
    (RealtimeClient.interrupt_event s) (RealtimeClient.stop_event s)
    (RealtimeClient.current_voice s) (RealtimeClient.current_instructions s)
    (RealtimeClient.current_npc_name s) (RealtimeClient.npc_voices s).

Definition with_on_speech_started_callback (x : bool) (s : RealtimeClient.state)
    : RealtimeClient.state :=
  RealtimeClient.mk (RealtimeClient.websocket s) (RealtimeClient.session_id s)
    (RealtimeClient.is_connected s) (RealtimeClient.is_recording s)
    (RealtimeClient.is_playing s) (RealtimeClient.is_processing s)
    (RealtimeClient.on_text_callback s) (RealtimeClient.on_audio_callback s)
    (RealtimeClient.on_error_callback s)
    (RealtimeClient.on_session_created_callback s) x
    (RealtimeClient.on_speech_stopped_callback s)
    (RealtimeClient.interrupt_event s) (RealtimeClient.stop_event s)
    (RealtimeClient.current_voice s) (RealtimeClient.current_instructions s)
    (RealtimeClient.current_npc_name s) (RealtimeClient.npc_voices s).

Definition with_on_speech_stopped_callback (x : bool) (s : RealtimeClient.state)
    : RealtimeClient.state :=
  RealtimeClient.mk (RealtimeClient.websocket s) (RealtimeClient.session_id s)
    (RealtimeClient.is_connected s) (RealtimeClient.is_recording s)
    (RealtimeClient.is_playing s) (RealtimeClient.is_processing s)
    (RealtimeClient.on_text_callback s) (RealtimeClient.on_audio_callback s)
    (RealtimeClient.on_error_callback s)
    (RealtimeClient.on_session_created_callback s)
    (RealtimeClient.on_speech_started_callback s) x
    (RealtimeClient.interrupt_event s) (RealtimeClient.stop_event s)
    (RealtimeClient.current_voice s) (RealtimeClient.current_instructions s)
    (RealtimeClient.current_npc_name s) (RealtimeClient.npc_voices s).

Definition with_interrupt_event (x : bool) (s : RealtimeClient.state)
    : RealtimeClient.state :=
  RealtimeClient.mk (RealtimeClient.websocket s) (RealtimeClient.session_id s)
    (RealtimeClient.is_connected s) (RealtimeClient.is_recording s)
    (RealtimeClient.is_playing s) (RealtimeClient.is_processing s)
    (RealtimeClient.on_text_callback s) (RealtimeClient.on_audio_callback s)
    (RealtimeClient.on_error_callback s)
    (RealtimeClient.on_session_created_callback s)
    (RealtimeClient.on_speech_started_callback s)
    (RealtimeClient.on_speech_stopped_callback s) x
    (RealtimeClient.stop_event s) (RealtimeClient.current_voice s)
    (RealtimeClient.current_instructions s)
    (RealtimeClient.current_npc_name s) (RealtimeClient.npc_voices s).

Definition with_stop_event (x : bool) (s : RealtimeClient.state)
    : RealtimeClient.state :=
  RealtimeClient.mk (RealtimeClient.websocket s) (RealtimeClient.session_id s)
    (RealtimeClient.is_connected s) (RealtimeClient.is_recording s)
    (RealtimeClient.is_playing s) (RealtimeClient.is_processing s)
    (RealtimeClient.on_text_callback s) (RealtimeClient.on_audio_callback s)
    (RealtimeClient.on_error_callback s)
    (RealtimeClient.on_session_created_callback s)
    (RealtimeClient.on_speech_started_callback s)
    (RealtimeClient.on_speech_stopped_callback s)
    (RealtimeClient.interrupt_event s) x (RealtimeClient.current_voice s)
    (RealtimeClient.current_instructions s)
    (RealtimeClient.current_npc_name s) (RealtimeClient.npc_voices s).

Definition with_current_voice (x : string) (s : RealtimeClient.state)
    : RealtimeClient.state :=
  RealtimeClient.mk (RealtimeClient.websocket s) (RealtimeClient.session_id s)
    (RealtimeClient.is_connected s) (RealtimeClient.is_recording s)
    (RealtimeClient.is_playing s) (RealtimeClient.is_processing s)
    (RealtimeClient.on_text_callback s) (RealtimeClient.on_audio_callback s)
    (RealtimeClient.on_error_callback s)
    (RealtimeClient.on_session_created_callback s)
    (RealtimeClient.on_speech_started_callback s)
    (RealtimeClient.on_speech_stopped_callback s)
    (RealtimeClient.interrupt_event s) (RealtimeClient.stop_event s) x
    (RealtimeClient.current_instructions s)
    (RealtimeClient.current_npc_name s) (RealtimeClient.npc_voices s).

Definition with_current_instructions (x : string) (s : RealtimeClient.state)
    : RealtimeClient.state :=
  RealtimeClient.mk (RealtimeClient.websocket s) (RealtimeClient.session_id s)
    (RealtimeClient.is_connected s) (RealtimeClient.is_recording s)
    (RealtimeClient.is_playing s) (RealtimeClient.is_processing s)
    (RealtimeClient.on_text_callback s) (RealtimeClient.on_audio_callback s)
    (RealtimeClient.on_error_callback s)
    (RealtimeClient.on_session_created_callback s)
    (RealtimeClient.on_speech_started_callback s)
    (RealtimeClient.on_speech_stopped_callback s)
    (RealtimeClient.interrupt_event s) (RealtimeClient.stop_event s)
    (RealtimeClient.current_voice s) x (RealtimeClient.current_npc_name s)
    (RealtimeClient.npc_voices s).

Definition with_current_npc_name (x : string) (s : RealtimeClient.state)
    : RealtimeClient.state :=
  RealtimeClient.mk (RealtimeClient.websocket s) (RealtimeClient.session_id s)
    (RealtimeClient.is_connected s) (RealtimeClient.is_recording s)
    (RealtimeClient.is_playing s) (RealtimeClient.is_processing s)
    (RealtimeClient.on_text_callback s) (RealtimeClient.on_audio_callback s)
    (RealtimeClient.on_error_callback s)
    (RealtimeClient.on_session_created_callback s)
    (RealtimeClient.on_speech_started_callback s)
    (RealtimeClient.on_speech_stopped_callback s)
    (RealtimeClient.interrupt_event s) (RealtimeClient.stop_event s)
    (RealtimeClient.current_voice s) (RealtimeClient.current_instructions s) x
    (RealtimeClient.npc_voices s).

(** The messages the client writes to the socket, by their ["type"], with
    the fields that vary. *)
Inductive outbound :=
| SessionUpdate (voice instructions : string)
| InputAudioBufferAppend (audio : string)
| InputAudioBufferCommit
| ConversationItemCreate (text : string)
| ResponseCreate (instructions : string)
| ResponseCancel.

(** What a request does: a message written, a write that raised, a call of
    a registered callback, the socket closed. *)
Inductive action :=
| Sent (m : outbound)
| Failed (m : outbound)
| Notify (e : RealtimeClient.effect)
| WebsocketClose.

(** [await self.websocket.send(...)]: [wire k] is [None] when the [k]-th
    write of the request succeeds and the text of the exception when it
    raises. *)
Definition transport := nat -> option string.

Definition usable (s : RealtimeClient.state) : bool :=
  RealtimeClient.is_connected s && RealtimeClient.websocket s.

(** [configure_session]: [False] at once when not connected. Otherwise the
    current voice, instructions and persona are recorded first, then the
    [session.update] is written; the result is [True] only when the write
    succeeded. [k] is the number of the write. *)
Definition configure_session (wire : transport) (k : nat)
    (s : RealtimeClient.state) (voice instructions npc_name : string)
    : bool * RealtimeClient.state * list action :=
  if negb (RealtimeClient.is_connected s) then (false, s, [])
  else
    let s1 :=
      with_current_npc_name npc_name
        (with_current_instructions instructions
           (with_current_voice voice s)) in
    if RealtimeClient.websocket s1 then
      match wire k with
      | None => (true, s1, [Sent (SessionUpdate voice instructions)])
      | Some _ => (false, s1, [Failed (SessionUpdate voice instructions)])
      end
    else (false, s1, []).

Section Requests.
(** [base64.b64encode(...).decode('utf-8')] *)
Variable b64encode : bytes -> string.

(** [send_audio_chunk]: nothing when not connected; a write that raises is
    reported to the error callback. *)
Definition send_audio_chunk (wire : transport) (s : RealtimeClient.state)
    (audio_data : bytes) : RealtimeClient.state * list action :=
  if negb (usable s) then (s, [])
  else
    let m := InputAudioBufferAppend (b64encode audio_data) in
    match wire 0%nat with
    | None => (s, [Sent m])
    | Some e =>
        (s, Failed m ::
            if RealtimeClient.on_error_callback s
            then [Notify (RealtimeClient.OnError
                            ("Failed to send audio chunk: " ++ e))]
            else [])
    end.
End Requests.

(** [commit_audio_buffer]: not connected, it only reports to the error
    callback; otherwise it writes the commit and sets [is_processing], or
    reports the exception. *)
Definition commit_audio_buffer (wire : transport) (s : RealtimeClient.state)
    : RealtimeClient.state * list action :=
  if negb (usable s) then
    (s, if RealtimeClient.on_error_callback s
        then [Notify (RealtimeClient.OnError
                "[COMMIT AUDIO BUFFER] Not connected or websocket missing. Commit aborted.")]
        else [])
  else
    match wire 0%nat with
    | None =>
        (RealtimeClient.with_is_processing true s,
         [Sent InputAudioBufferCommit])
    | Some e =>
        (s, Failed InputAudioBufferCommit ::
            if RealtimeClient.on_error_callback s
            then [Notify (RealtimeClient.OnError
                    ("[COMMIT AUDIO BUFFER] Failed to commit audio buffer: "
                       ++ e))]
            else [])
    end.

(** [if npc_name and npc_name in self.npc_voices]: the persona to switch
    to, if any. *)
Definition persona (s : RealtimeClient.state) (npc_name : option string)
    : option (string * RealtimeClient.voice_config) :=
  match npc_name with
  | Some n =>
      match n with
      | EmptyString => None
      | _ => match RealtimeClient.npc_voices s !! n with
             | Some c => Some (n, c)
             | None => None
             end
      end
  | None => None
  end.

(** [send_text_message]: nothing when not connected. A known persona is
    configured first; then the user item is written, then the
    [response.create] with the current instructions, and [is_processing]
    is set. A write that raises ends the request; it is only logged. *)
Definition send_text_message (wire : transport) (s : RealtimeClient.state)
    (text : string) (npc_name : option string)
    : RealtimeClient.state * list action :=
  if negb (usable s) then (s, [])
  else
    let '(s1, t1, k) :=
      match persona s npc_name with
      | Some (n, c) =>
          let '(_, s1, t1) :=
            configure_session wire 0 s (RealtimeClient.voice c)
              (RealtimeClient.instructions c) n in
          (s1, t1, 1%nat)
      | None => (s, [], 0%nat)
      end in
    let item := ConversationItemCreate text in
    match wire k with
    | Some _ => (s1, t1 ++ [Failed item])
    | None =>
        let create := ResponseCreate (RealtimeClient.current_instructions s1) in
        match wire (S k) with
        | Some _ => (s1, t1 ++ [Sent item; Failed create])
        | None =>
            (RealtimeClient.with_is_processing true s1,
             t1 ++ [Sent item; Sent create])
        end
    end.

(** [interrupt_response]: nothing when not connected; after a successful
    [response.cancel] the interrupt event is set and both flags are
    cleared. *)
Definition interrupt_response (wire : transport) (s : RealtimeClient.state)
    : RealtimeClient.state * list action :=
  if negb (usable s) then (s, [])
  else
    match wire 0%nat with
    | None =>
        (RealtimeClient.with_is_playing false
           (RealtimeClient.with_is_processing false
              (with_interrupt_event true s)),
         [Sent ResponseCancel])
    | Some _ => (s, [Failed ResponseCancel])
    end.

(** [disconnect]: sets the stop event, clears [is_connected] and
    [is_processing], closes and forgets the socket when there is one. *)
Definition disconnect (s : RealtimeClient.state)
    : RealtimeClient.state * list action :=
  let s1 :=
    RealtimeClient.with_is_processing false
      (RealtimeClient.with_is_connected false (with_stop_event true s)) in
  if RealtimeClient.websocket s1
  then (RealtimeClient.with_websocket false s1, [WebsocketClose])
  else (s1, []).

(** [set_callbacks]: an argument that is given replaces the callback, one
    that is [None] leaves it; each argument here tells whether it is
    given. *)
Definition set_callbacks (s : RealtimeClient.state)
    (on_text on_audio on_error on_session_created on_speech_started
       on_speech_stopped : bool) : RealtimeClient.state :=
  let s1 := if on_text then with_on_text_callback true s else s in
  let s2 := if on_audio then with_on_audio_callback true s1 else s1 in
  let s3 := if on_error
            then RealtimeClient.with_on_error_callback true s2 else s2 in
  let s4 := if on_session_created
            then with_on_session_created_callback true s3 else s3 in
  let s5 := if on_speech_started
            then with_on_speech_started_callback true s4 else s4 in
  if on_speech_stopped then with_on_speech_stopped_callback true s5 else s5.

(** How the iteration over the socket ends: the peer closes normally, the
    connection breaks, or the listener is still waiting. *)
Inductive ending :=
| ClosedNormally
| ConnectionLost
| Waiting.

Section Listener.
Variable b64decode : string -> option bytes.

(** The loop of [_listen_for_messages] over the frames received; a frame
    that does not decode to a message is [None], it is logged and
    skipped. The stop event is looked at before each frame. *)
Fixpoint receive (s : RealtimeClient.state)
    (frames : list (option RealtimeClient.message))
    : RealtimeClient.state * list RealtimeClient.effect * bool :=
  match frames with
  | [] => (s, [], false)
  | frame :: frames' =>
      if RealtimeClient.stop_event s then (s, [], true)
      else
        let '(s1, t1) :=
          match frame with
          | Some data => RealtimeClient._handle_message b64decode s data
          | None => (s, [])
          end in
        let '(s2, t2, stopped) := receive s1 frames' in
        (s2, t1 ++ t2, stopped)
  end.

(** [_listen_for_messages]: returns at once without a socket; a broken
    connection clears [is_connected], unless the loop had left on the stop
    event before. *)
Definition _listen_for_messages (s : RealtimeClient.state)
    (frames : list (option RealtimeClient.message)) (how : ending)
    : RealtimeClient.state * list RealtimeClient.effect :=
  if negb (RealtimeClient.websocket s) then (s, [])
  else
    let '(s1, t, stopped) := receive s frames in
    match how with
    | ConnectionLost =>
        if stopped then (s1, t)
        else (RealtimeClient.with_is_connected false s1, t)
    | _ => (s1, t)
    end.
End Listener.
End RealtimeSession.

(** ** [settings_overlay.py]: the volume sliders *)

Module SettingsOverlay.

Record state := mk {
  input_volume : spec_float;
  output_volume : spec_float
}.

(** [__init__] *)
Definition init : state := mk F64.one F64.one.

Inductive slider := Input | Output.

(** [min(1.0, max(0.0, (lx-180)/200))]: [lx] is a pixel coordinate, an
    [int] that a float holds exactly. *)
Definition slider_value (lx : Z) : spec_float :=
  py_min F64.one
    (py_max F64.zero (F64.div (F64.of_Z (lx - 180)) (F64.of_Z 200))).

Definition _set_volume_from_mouse (o : state) (lx : Z) (which : slider)
    : state :=
  match which with
  | Input => mk (slider_value lx) (output_volume o)
  | Output => mk (input_volume o) (slider_value lx)
  end.
End SettingsOverlay.

(** ** [audio_utils.py]: choice of the microphone *)

Module AudioUtils.

(** An entry of [sd.query_devices()]. *)
Record device := mk_device {
  name : string;
  max_input_channels : Z
}.

Definition is_input (dev : device) : bool := 0 <? max_input_channels dev.

Definition named_microphone (dev : device) : bool :=
  RealtimeClient.contains "mic" (RealtimeClient.lower (name dev))
  || RealtimeClient.contains "microphone" (RealtimeClient.lower (name dev)).

(** The loop over [enumerate(devices)], counting from [idx]. *)
Fixpoint input_devices_from (idx : nat) (devices : list device)
    : list (nat * string) :=
  match devices with
  | [] => []
  | dev :: devices' =>
      if is_input dev
      then (idx, name dev) :: input_devices_from (S idx) devices'
      else input_devices_from (S idx) devices'
  end.

Definition list_input_devices (devices : list device)
    : list (nat * string) :=
  input_devices_from 0 devices.

(** The first index, counting from [idx], of a device that satisfies
    [wanted]: the [for ... return idx] loops. *)
Fixpoint first_from (wanted : device -> bool) (idx : nat)
    (devices : list device) : option nat :=
  match devices with
  | [] => None
  | dev :: devices' =>
      if wanted dev then Some idx else first_from wanted (S idx) devices'
  end.

Definition get_first_microphone_device (devices : list device)
    : option nat :=
  match first_from (fun dev => is_input dev && named_microphone dev) 0
          devices with
  | Some idx => Some idx
  | None => first_from is_input 0 devices
  end.
End AudioUtils.

(** ** [enhanced_dialogue_system.py]: callbacks and speech mode *)

Module DialogueSystem.
Import Pcm.

(** The attributes the callbacks and the speech-mode switch work on. An
    attribute that [__init__] does not create is [None] until it is first
    assigned. The client ([self.realtime_client]) is passed to the methods
    that read or write it. *)
Record state := mk {
  speech_mode : bool;
  speech_enabled : bool;
  is_listening : bool;
  is_speaking : bool;
  last_error_message : option string;
  npc_message : string;
  _partial_response : option string;
  audio_buffer : list (list Z);
  audio_manager : AudioManager.state
}.

(** [__init__], as far as these attributes go. *)
Definition init : state :=
  {| speech_mode := false; speech_enabled := true;
     is_listening := false; is_speaking := false;
     last_error_message := None; npc_message := "";
     _partial_response := None; audio_buffer := [];
     audio_manager :=
       AudioEngine.with_on_audio_input true (AudioManager.init 24000) |}.

(** Field updates. *)

Definition with_speech_mode (x : bool) (s : state) : state :=
  mk x (speech_enabled s) (is_listening s) (is_speaking s)
    (last_error_message s) (npc_message s) (_partial_response s)
    (audio_buffer s) (audio_manager s).

Definition with_speech_enabled (x : bool) (s : state) : state :=
  mk (speech_mode s) x (is_listening s) (is_speaking s) (last_error_message s)
    (npc_message s) (_partial_response s) (audio_buffer s) (audio_manager s).

Definition with_is_listening (x : bool) (s : state) : state :=
  mk (speech_mode s) (speech_enabled s) x (is_speaking s)
    (last_error_message s) (npc_message s) (_partial_response s)
    (audio_buffer s) (audio_manager s).

Definition with_is_speaking (x : bool) (s : state) : state :=
  mk (speech_mode s) (speech_enabled s) (is_listening s) x
    (last_error_message s) (npc_message s) (_partial_response s)
    (audio_buffer s) (audio_manager s).

Definition with_last_error_message (x : option string) (s : state) : state :=
  mk (speech_mode s) (speech_enabled s) (is_listening s) (is_speaking s) x
    (npc_message s) (_partial_response s) (audio_buffer s) (audio_manager s).

Definition with_npc_message (x : string) (s : state) : state :=
  mk (speech_mode s) (speech_enabled s) (is_listening s) (is_speaking s)
    (last_error_message s) x (_partial_response s) (audio_buffer s)
    (audio_manager s).

Definition with_partial_response (x : option string) (s : state) : state :=
  mk (speech_mode s) (speech_enabled s) (is_listening s) (is_speaking s)
    (last_error_message s) (npc_message s) x (audio_buffer s)
    (audio_manager s).

Definition with_audio_buffer (x : list (list Z)) (s : state) : state :=
  mk (speech_mode s) (speech_enabled s) (is_listening s) (is_speaking s)
    (last_error_message s) (npc_message s) (_partial_response s) x
    (audio_manager s).

Definition with_audio_manager (x : AudioManager.state) (s : state) : state :=
  mk (speech_mode s) (speech_enabled s) (is_listening s) (is_speaking s)
    (last_error_message s) (npc_message s) (_partial_response s)
    (audio_buffer s) x.

(** [_on_text_received]: a complete text replaces the message; a partial
    one is appended to [_partial_response] (created empty on first use),
    which becomes the message. *)
Definition _on_text_received (s : state) (text : string)
    (is_complete : bool) : state :=
  if is_complete then with_npc_message text s
  else
    let partial :=
      String.append
        match _partial_response s with
        | Some p => p
        | None => EmptyString
        end text in
    with_npc_message partial (with_partial_response (Some partial) s).

(** [_on_audio_received]: a non-empty chunk goes to the audio manager and
    sets [is_speaking]. *)
Definition _on_audio_received (spawned : bool) (s : state)
    (audio_data : bytes) : state :=
  match audio_data with
  | [] => s
  | _ =>
      with_is_speaking true
        (with_audio_manager
           (AudioEngine.play_audio_chunk spawned audio_data (audio_manager s))
           s)
  end.

(** [_on_error]: the message is kept; unless it mentions (in any case)
    "buffer too small" or "cancellation failed", speech is switched off
    and disabled. *)
Definition _on_error (s : state) (error_message : string) : state :=
  let s1 := with_last_error_message (Some error_message) s in
  if RealtimeClient.contains "buffer too small"
       (RealtimeClient.lower error_message) then s1
  else if RealtimeClient.contains "cancellation failed"
            (RealtimeClient.lower error_message) then s1
  else with_speech_enabled false (with_speech_mode false s1).

Definition _on_session_created (s : state) : state :=
  with_last_error_message (Some EmptyString) s.

Definition _on_speech_started (s : state) : state := with_is_listening true s.

Definition _on_speech_stopped (s : state) : state := with_is_listening false s.

(** The binding of [_setup_callbacks]: what a callback call of the client
    does to the dialogue system. *)
Definition deliver (spawned : bool) (s : state) (e : RealtimeClient.effect)
    : state :=
  match e with
  | RealtimeClient.OnText text complete => _on_text_received s text complete
  | RealtimeClient.OnAudio data => _on_audio_received spawned s data
  | RealtimeClient.OnError message => _on_error s message
  | RealtimeClient.OnSessionCreated => _on_session_created s
  | RealtimeClient.OnSpeechStarted => _on_speech_started s
  | RealtimeClient.OnSpeechStopped => _on_speech_stopped s
  | _ => s
  end.

Section AudioInput.
(** The test [rms < 0.0001] on the amplified block. *)
Variable rms_below : list Z -> bool.

Definition audio_gain : Z := 5.

(** [_on_audio_input]: the block as [int16] samples, each times the gain
    (exact in [float32]), put on [audio_buffer] unless too quiet. [None]:
    [np.frombuffer] raises on a block that is not whole samples. *)
Definition _on_audio_input (s : state) (audio_data : bytes) : option state :=
  match frombuffer audio_data with
  | None => None
  | Some samples =>
      let audio_np := map (Z.mul audio_gain) samples in
      if rms_below audio_np then Some s
      else Some (with_audio_buffer (audio_buffer s ++ [audio_np]) s)
  end.
End AudioInput.

(** What [_start_speech_mode] finds around it: [is_connected] of the
    client when read again after the wait for the reconnection, the output
    volume of the settings overlay, how the microphone and the playback
    worker start, and the exception, if any, of starting the processing
    thread. *)
Record surroundings := {
  connected_after : bool;
  overlay_output_volume : spec_float;
  microphone : AudioEngine.stream_open;
  worker_spawned : bool;
  thread_error : option string
}.

Definition _start_speech_mode (env : surroundings)
    (client : RealtimeClient.state) (s : state) : state :=
  if negb (RealtimeClient.is_connected client) && negb (connected_after env)
  then
    with_speech_mode false
      (with_last_error_message
         (Some "Voice API connection failed. Please try again.") s)
  else
    let am :=
      AudioEngine.start_playback (worker_spawned env)
        (AudioEngine.start_recording (microphone env)
           (AudioManager.set_volumes (audio_manager s) None
              (Some (overlay_output_volume env)))) in
    let s1 := with_is_listening true (with_audio_manager am s) in
    match thread_error env with
    | None => s1
    | Some e =>
        with_speech_mode false
          (with_last_error_message
             (Some (String.append "Failed to start speech mode: " e)) s1)
    end.

Definition _stop_speech_mode (s : state)
    : state * list AudioManager.effect :=
  let s1 := with_is_listening false s in
  let '(am1, t1) := AudioManager.stop_recording (audio_manager s1) in
  let '(am2, t2) := AudioManager.stop_playback am1 in
  (with_audio_manager (AudioManager.clear_queues am2) s1, t1 ++ t2).

(** [toggle_speech_mode]: refused, with a message, when speech is
    disabled; otherwise the mode flips and speech is started or stopped. *)
Definition toggle_speech_mode (env : surroundings)
    (client : RealtimeClient.state) (s : state)
    : state * list AudioManager.effect :=
  if negb (speech_enabled s) then
    (with_last_error_message (Some "Speech mode is disabled.") s, [])
  else
    let s1 := with_speech_mode (negb (speech_mode s)) s in
    if speech_mode s1 then (_start_speech_mode env client s1, [])
    else _stop_speech_mode s1.

(** [handle_input] while the settings overlay is open, after the overlay
    has handled the event: both volumes of the overlay go to the audio
    manager. *)
Definition handle_input_overlay (o : SettingsOverlay.state) (s : state)
    : state :=
  with_audio_manager
    (AudioManager.set_volumes (audio_manager s)
       (Some (SettingsOverlay.input_volume o))
       (Some (SettingsOverlay.output_volume o)))
    s.

(** [interrupt_speech]: playback is stopped, the queues are cleared,
    [is_speaking] and the client's [is_playing] are cleared. The last
    component tells whether [interrupt_response] is scheduled on the event
    loop: when the client is connected and the loop ([async_loop]) is
    there. *)
Definition interrupt_speech (async_loop : bool) (s : state)
    (client : RealtimeClient.state)
    : state * RealtimeClient.state * list AudioManager.effect * bool :=
  let '(am1, t1) := AudioManager.stop_playback (audio_manager s) in
  (with_is_speaking false
     (with_audio_manager (AudioManager.clear_queues am1) s),
   RealtimeClient.with_is_playing false client,
   t1,
   RealtimeClient.is_connected client && async_loop).
End DialogueSystem.

(** * Vocabulary of the statements *)

(** Both volumes lie in [0.0, 1.0]. *)
Definition volumes_in_range (s : AudioManager.state) : bool :=
  F64.between F64.zero F64.one (AudioManager.input_volume s) &&
  F64.between F64.zero F64.one (AudioManager.output_volume s).

(** [r] is [v] clamped into [0.0, 1.0]: it lies in the range; it is [0.0]
    when [v] is below the range and [1.0] when [v] is above it; when [v]
    is in the range it equals [v] as a number and is the same float, the
    sign of a zero apart. For a NaN, which compares with nothing, it is
    [1.0]. *)
Definition clamped (v r : spec_float) : Prop :=
  F64.between F64.zero F64.one r = true /\
  (SFltb v F64.zero = true -> r = F64.zero) /\
  (SFltb F64.one v = true -> r = F64.one) /\
  (v = S754_nan -> r = F64.one) /\
  (F64.between F64.zero F64.one v = true ->
   SFeqb r v = true /\ (v <> S754_zero true -> r = v)).

(** An engine after any sequence of [set_volumes] calls; nothing else
    writes the volumes. *)
Definition tuned (rate : Z)
    (calls : list (option spec_float * option spec_float))
    : AudioManager.state :=
  fold_left (fun s c => AudioManager.set_volumes s (fst c) (snd c))
    calls (AudioManager.init rate).

(** A client after any sequence of [set_npc_voice_config] calls; no other
    method writes [npc_voices]. *)
Definition configured (calls : list (string * RealtimeClient.voice_config))
    : RealtimeClient.state :=
  fold_left
    (fun s c =>
       RealtimeClient.set_npc_voice_config s (fst c)
         (RealtimeClient.voice (snd c)) (RealtimeClient.instructions (snd c))
         (RealtimeClient.sample (snd c)))
    calls RealtimeClient.init.

(** What [k] failed attempts leave in the trace. *)
Fixpoint failed_attempts (k : nat) : list RealtimeClient.effect :=
  match k with
  | O => []
  | S k' =>
      RealtimeClient.WebsocketsConnect :: RealtimeClient.Sleep 2
        :: failed_attempts k'
  end.

(** The message an error event carries, ["Unknown error"] when it has
    none. *)
Definition error_text (message : option string) : string :=
  match message with
  | Some m => m
  | None => "Unknown error"
  end.

(** The flags after any error event. *)
Definition cleared (s : RealtimeClient.state) : RealtimeClient.state :=
  RealtimeClient.with_is_playing false
    (RealtimeClient.with_is_processing false s).

(** A client in the middle of a response, its error callback registered. *)
Definition listening_client : RealtimeClient.state :=
  RealtimeClient.with_is_playing true
    (RealtimeClient.with_is_processing true
       (RealtimeClient.with_on_error_callback true RealtimeClient.init)).

(** Eleven empty blocks accumulated, a twelfth arriving. *)
Definition eleven_empty : Dialogue.accumulator :=
  fst (Dialogue.iterations (Dialogue.chunk_duration 24000) Dialogue.empty
         (repeat (Dialogue.Got [] true) 11)).

(** A block of 1024 loud samples; thirty of them make 1.28 s. *)
Definition loud_block : list Z := repeat 1000 1024%nat.

(** The queue times out once, then delivers them with the client ready. *)
Definition thirty_polls : list Dialogue.poll :=
  Dialogue.Empty :: map (fun a => Dialogue.Got a true) (repeat loud_block 30).

(** What a block becomes on the input queue at a given input volume. *)
Definition captured (cast_overflow : spec_float -> Z)
    (volume : spec_float) (indata : list spec_float) : Pcm.bytes :=
  Pcm.tobytes
    (map (AudioManager.Recording.capture_sample cast_overflow volume) indata).

(** The samples of a queue of chunks, each a whole number of samples. *)
Definition samples_of (q : list Pcm.bytes) : list Z :=
  flat_map (fun c => match Pcm.frombuffer c with
                     | Some a => a
                     | None => []
                     end) q.

(** A chunk of whole 16-bit samples. *)
Definition whole_samples (c : Pcm.bytes) : Prop :=
  Nat.even (length c) = true.

(** A number of magnitude at most [2 ^ T]: a zero, or a finite number
    whose mantissa and exponent say so. *)
Definition small (T : Z) (f : spec_float) : Prop :=
  match f with
  | S754_zero _ => True
  | S754_finite _ m e => e <= T /\ Z.pos m <= 2 ^ (T - e)
  | _ => False
  end.

(** [g] is [f] divided by two without rounding: the same sign and
    mantissa, the exponent one less. *)
Definition halved (f g : spec_float) : Prop :=
  match f with
  | S754_zero s => g = S754_zero s
  | S754_finite s m e => g = S754_finite s m (e - 1)
  | _ => True
  end.

(** What the capture callback converts: the block sample times the volume
    times 32767, in [float32]. *)
Definition scaled (volume x : spec_float) : spec_float :=
  F32.mul (F32.mul x (F32.of_f64 volume)) (F32.of_Z 32767).

(** A [float32] sample whose full-volume product converts to [int16]
    within range. *)
Definition convertible (x : spec_float) : bool :=
  F32.valid x &&
  match Pcm.trunc (scaled F64.one x) with
  | Some p => Pcm.in_int16 p
  | None => false
  end.

(** The block sample [2^-13], a quiet but audible level. *)
Definition quiet_sample : spec_float := S754_finite false 8388608 (-36).

(** [1.0], [-0.5] *)
Definition one32 : spec_float := S754_finite false 8388608 (-23).
Definition minus_half32 : spec_float := S754_finite true 8388608 (-24).

(** An engine with nothing running: no flag set, no device stream, no
    worker thread. *)
Definition idle (s : AudioManager.state) : bool :=
  negb (AudioManager.is_recording s) && negb (AudioManager.is_playing s)
  && negb (AudioManager.input_stream s)
  && negb (AudioManager.output_thread s).

(** An engine whose queues are empty. *)
Definition queues_empty (s : AudioManager.state) : Prop :=
  AudioManager.input_queue s = [] /\ AudioManager.output_queue s = [].

(** A number that is neither an infinity nor NaN. *)
Definition is_finite (x : spec_float) : bool :=
  match x with
  | S754_zero _ | S754_finite _ _ _ => true
  | _ => false
  end.

(** An engine that holds a device stream although it is not recording. *)
Definition stream_leaked (s : AudioManager.state) : Prop :=
  AudioManager.input_stream s = true /\ AudioManager.is_recording s = false.

(** The requests made of a client between two [connect]s, each with the
    behaviour of the socket while it runs. *)
Inductive request :=
| AskConfigureSession (voice instructions npc_name : string)
| AskSendAudioChunk (audio_data : Pcm.bytes)
| AskCommitAudioBuffer
| AskSendTextMessage (text : string) (npc_name : option string)
| AskInterruptResponse
| AskDisconnect
| AskSetNpcVoiceConfig (npc_name voice instructions sample : string).

Definition perform (b64encode : Pcm.bytes -> string)
    (s : RealtimeClient.state) (r : RealtimeSession.transport * request)
    : RealtimeClient.state * list RealtimeSession.action :=
  match snd r with
  | AskConfigureSession voice instructions npc_name =>
      let '(_, s1, t) :=
        RealtimeSession.configure_session (fst r) 0 s voice instructions
          npc_name in
      (s1, t)
  | AskSendAudioChunk audio_data =>
      RealtimeSession.send_audio_chunk b64encode (fst r) s audio_data
  | AskCommitAudioBuffer => RealtimeSession.commit_audio_buffer (fst r) s
  | AskSendTextMessage text npc_name =>
      RealtimeSession.send_text_message (fst r) s text npc_name
  | AskInterruptResponse => RealtimeSession.interrupt_response (fst r) s
  | AskDisconnect => RealtimeSession.disconnect s
  | AskSetNpcVoiceConfig npc_name voice instructions sample =>
      (RealtimeClient.set_npc_voice_config s npc_name voice instructions
         sample, [])
  end.

Fixpoint perform_all (b64encode : Pcm.bytes -> string)
    (s : RealtimeClient.state)
    (rs : list (RealtimeSession.transport * request))
    : RealtimeClient.state * list RealtimeSession.action :=
  match rs with
  | [] => (s, [])
  | r :: rs' =>
      let '(s1, t1) := perform b64encode s r in
      let '(s2, t2) := perform_all b64encode s1 rs' in
      (s2, t1 ++ t2)
  end.

(** The messages a trace put on the socket, whether the write succeeded or
    raised. *)
Definition written (t : list RealtimeSession.action)
    : list RealtimeSession.outbound :=
  flat_map (fun a => match a with
                     | RealtimeSession.Sent m | RealtimeSession.Failed m => [m]
                     | _ => []
                     end) t.

(** The calls of registered callbacks in a trace. *)
Definition notified (t : list RealtimeSession.action)
    : list RealtimeClient.effect :=
  flat_map (fun a => match a with
                     | RealtimeSession.Notify e => [e]
                     | _ => []
                     end) t.

(** [Sent] when the write succeeded, [Failed] when it raised. *)
Definition attempt (outcome : option string) (m : RealtimeSession.outbound)
    : RealtimeSession.action :=
  match outcome with
  | None => RealtimeSession.Sent m
  | Some _ => RealtimeSession.Failed m
  end.

(** A socket on which every write raises. *)
Definition broken_wire : RealtimeSession.transport :=
  fun _ => Some "connection reset".

(** A connected client with the callbacks of the dialogue system
    registered. *)
Definition connected_client : RealtimeClient.state :=
  RealtimeClient.with_is_connected true
    (RealtimeClient.with_websocket true
       (RealtimeSession.set_callbacks RealtimeClient.init true true true true
          true true)).

(** Frames that carry text deltas. *)
Definition text_deltas (ds : list string)
    : list (option RealtimeClient.message) :=
  map (fun d => Some (RealtimeClient.ResponseTextDelta (Some d))) ds.

(** The callback calls of a trace, handed one after the other to the
    dialogue system. *)
Definition deliver_all (spawned : bool) (d : DialogueSystem.state)
    (t : list RealtimeClient.effect) : DialogueSystem.state :=
  fold_left (DialogueSystem.deliver spawned) t d.

(** The text accumulated so far from partial responses. *)
Definition partial_text (d : DialogueSystem.state) : string :=
  match DialogueSystem._partial_response d with
  | Some p => p
  | None => EmptyString
  end.

(** A sequence of [_on_text_received] calls. *)
Definition text_events (d : DialogueSystem.state)
    (evs : list (string * bool)) : DialogueSystem.state :=
  fold_left (fun d ev => DialogueSystem._on_text_received d (fst ev) (snd ev))
    evs d.

(** The partial texts of a sequence of text events, joined. *)
Fixpoint partials (evs : list (string * bool)) : string :=
  match evs with
  | [] => EmptyString
  | (text, complete) :: evs' =>
      if complete then partials evs'
      else String.append text (partials evs')
  end.

Fixpoint joined (ds : list string) : string :=
  match ds with
  | [] => EmptyString
  | d :: ds' => String.append d (joined ds')
  end.

(** What happens to the dialogue system and its client in a conversation:
    a frame arrives from the server, the player toggles speech mode,
    interrupts the speech, or moves a control of the settings overlay. *)
Inductive happening :=
| Frame (m : RealtimeClient.message) (spawned : bool)
| ToggleSpeech (env : DialogueSystem.surroundings)
| InterruptSpeech (async_loop : bool)
| OverlayChanged (o : SettingsOverlay.state).

Definition happen (b64decode : string -> option Pcm.bytes)
    (w : DialogueSystem.state * RealtimeClient.state) (h : happening)
    : DialogueSystem.state * RealtimeClient.state :=
  match h with
  | Frame m spawned =>
      let '(c1, t) := RealtimeClient._handle_message b64decode (snd w) m in
      (deliver_all spawned (fst w) t, c1)
  | ToggleSpeech env =>
      (fst (DialogueSystem.toggle_speech_mode env (snd w) (fst w)), snd w)
  | InterruptSpeech async_loop =>
      let '(d1, c1, _, _) :=
        DialogueSystem.interrupt_speech async_loop (fst w) (snd w) in
      (d1, c1)
  | OverlayChanged o => (DialogueSystem.handle_input_overlay o (fst w), snd w)
  end.

Definition conversation (b64decode : string -> option Pcm.bytes)
    (w : DialogueSystem.state * RealtimeClient.state) (hs : list happening)
    : DialogueSystem.state * RealtimeClient.state :=
  fold_left (happen b64decode) hs w.

(** An error message that does not switch speech off: the client keeps
    the first kind to itself, the dialogue system tolerates the other
    two. *)
Definition tolerated (message : string) : bool :=
  RealtimeClient.contains RealtimeClient.benign (RealtimeClient.lower message)
  || RealtimeClient.contains "buffer too small" (RealtimeClient.lower message)
  || RealtimeClient.contains "cancellation failed"
       (RealtimeClient.lower message).

(** Speech switched off for good. *)
Definition speech_off (d : DialogueSystem.state) : Prop :=
  DialogueSystem.speech_enabled d = false /\
  DialogueSystem.speech_mode d = false.

(** The microphone side of the engine. *)
Definition microphone_side (d : DialogueSystem.state) : bool * bool :=
  (AudioManager.is_recording (DialogueSystem.audio_manager d),
   AudioManager.input_stream (DialogueSystem.audio_manager d)).

(** A sample after the gain of five and the clipping to [int16]. *)
Definition amplified (x : Z) : Z :=
  if 6553 <? x then 32767 else if x <? -6553 then -32768 else 5 * x.

(** The capture callback's blocks handed one after the other to
    [_on_audio_input]; [None] when one of the calls raises. *)
Fixpoint audio_inputs (rms_below : list Z -> bool)
    (d : DialogueSystem.state) (chunks : list Pcm.bytes)
    : option DialogueSystem.state :=
  match chunks with
  | [] => Some d
  | c :: chunks' =>
      match DialogueSystem._on_audio_input rms_below d c with
      | Some d1 => audio_inputs rms_below d1 chunks'
      | None => None
      end
  end.

(** Twelve captured blocks of three samples: one below, two beyond the
    range that the gain of five leaves unclipped. *)
Definition twelve_blocks : list (list Z) := repeat [100; 7000; -7000] 12.

(** Surroundings in which everything works. *)
Definition fair_weather : DialogueSystem.surroundings :=
  {| DialogueSystem.connected_after := true;
     DialogueSystem.overlay_output_volume := F64.half;
     DialogueSystem.microphone := AudioEngine.Started;
     DialogueSystem.worker_spawned := true;
     DialogueSystem.thread_error := None |}.

(** Surroundings in which the microphone cannot be opened. *)
Definition no_microphone : DialogueSystem.surroundings :=
  {| DialogueSystem.connected_after := true;
     DialogueSystem.overlay_output_volume := F64.one;
     DialogueSystem.microphone := AudioEngine.ConstructFailed;
     DialogueSystem.worker_spawned := true;
     DialogueSystem.thread_error := None |}.

(** * Properties *)

(** ** Comparisons of IEEE numbers *)

Lemma SFltb_SFleb (a b : spec_float) : SFltb a b = true -> SFleb a b = true.
Proof.
  unfold SFltb, SFleb. destruct (SFcompare a b) as [[ | | ]|]; congruence.
Qed.

Lemma clamp01_cases (v : spec_float) :
  AudioManager.clamp01 v =
    if SFltb v F64.one
    then if SFltb F64.zero v then v else F64.zero
    else F64.one.
Proof.
  unfold AudioManager.clamp01, py_min, py_max.
  destruct (SFltb v F64.one); reflexivity.
Qed.

Lemma clamp01_between (v : spec_float) :
  F64.between F64.zero F64.one (AudioManager.clamp01 v) = true.
Proof.
  rewrite clamp01_cases. unfold F64.between.
  destruct (SFltb v F64.one) eqn:Hhi; [|reflexivity].
  destruct (SFltb F64.zero v) eqn:Hlo; [|reflexivity].
  rewrite (SFltb_SFleb _ _ Hhi), (SFltb_SFleb _ _ Hlo). reflexivity.
Qed.
Lemma compare_cont_Eq_eq (p q : positive) :
  Pos.compare_cont Eq p q = Eq -> p = q.
Proof. exact (Pos.compare_eq p q). Qed.

Lemma SFcompare_Eq_sym (a b : spec_float) :
  SFcompare a b = Some Eq -> SFcompare b a = Some Eq.
Proof.
  destruct a as [sa|sa| |sa ma ea], b as [sb|sb| |sb mb eb];
    try destruct sa; try destruct sb; cbn; try congruence;
    destruct (Z.compare_spec ea eb) as [He|He|He]; try discriminate;
    destruct (Pos.compare_cont Eq ma mb) eqn:Hm; try discriminate;
    apply compare_cont_Eq_eq in Hm; subst; intros _;
    now rewrite Z.compare_refl, Pos.compare_cont_refl.
Qed.

Lemma SFcompare_refl (a : spec_float) :
  a <> S754_nan -> SFcompare a a = Some Eq.
Proof.
  destruct a as [s|s| |s m e]; try destruct s; cbn; try congruence;
    intros _; now rewrite Z.compare_refl, Pos.compare_cont_refl.
Qed.

Lemma clamp01_inside (v : spec_float) :
  F64.between F64.zero F64.one v = true ->
  SFeqb (AudioManager.clamp01 v) v = true.
Proof.
  rewrite clamp01_cases. unfold F64.between. intros H.
  apply andb_true_iff in H as [Hlo Hhi].
  assert (Hnan : v <> S754_nan) by (intros ->; discriminate).
  unfold SFeqb, SFltb, SFleb in *.
  destruct (SFcompare v F64.one) as [[ | | ]|] eqn:H1; try discriminate.
  - now rewrite (SFcompare_Eq_sym _ _ H1).
  - destruct (SFcompare F64.zero v) as [[ | | ]|] eqn:H0; try discriminate.
    + now rewrite H0.
    + now rewrite SFcompare_refl.
Qed.

Lemma SFcompare_Lt_Gt (a b : spec_float) :
  SFcompare a b = Some Lt -> SFcompare b a = Some Gt.
Proof.
  destruct a as [sa|sa| |sa ma ea], b as [sb|sb| |sb mb eb];
    try destruct sa; try destruct sb; cbn; try congruence;
    rewrite (Z.compare_antisym ea eb);
    (assert (Hm : Pos.compare_cont Eq mb ma =
                  CompOpp (Pos.compare_cont Eq ma mb))
       by (symmetry; apply (Pos.compare_cont_antisym ma mb Eq)));
    rewrite Hm; destruct (ea ?= eb); cbn; try congruence;
    destruct (Pos.compare_cont Eq ma mb); cbn; congruence.
Qed.

Lemma SFcompare_Eq_finite (v : spec_float) (s : bool) (m : positive) (e : Z) :
  SFcompare v (S754_finite s m e) = Some Eq -> v = S754_finite s m e.
Proof.
  destruct v as [sv|sv| |sv mv ev]; try destruct sv; destruct s; cbn;
    try congruence;
    destruct (Z.compare_spec ev e) as [He|He|He]; try discriminate;
    destruct (Pos.compare_cont Eq mv m) eqn:Hm; try discriminate;
    apply compare_cont_Eq_eq in Hm; subst; reflexivity.
Qed.

Lemma SFcompare_zero_Eq (v : spec_float) :
  SFcompare (S754_zero false) v = Some Eq -> exists s, v = S754_zero s.
Proof.
  destruct v as [sv|sv| |sv mv ev]; try destruct sv; cbn; try congruence;
    intros _; eexists; reflexivity.
Qed.

Lemma clamp01_below (v : spec_float) :
  SFltb v F64.zero = true -> AudioManager.clamp01 v = F64.zero.
Proof.
  intros H. rewrite clamp01_cases.
  destruct v as [sv|sv| |sv mv ev]; try destruct sv; try discriminate H;
    reflexivity.
Qed.

Lemma clamp01_above (v : spec_float) :
  SFltb F64.one v = true -> AudioManager.clamp01 v = F64.one.
Proof.
  intros H. rewrite clamp01_cases. unfold SFltb in *.
  destruct (SFcompare F64.one v) as [[| |]|] eqn:Hc; try discriminate H.
  now rewrite (SFcompare_Lt_Gt _ _ Hc).
Qed.

Lemma clamp01_kept (v : spec_float) :
  F64.between F64.zero F64.one v = true ->
  v <> S754_zero true ->
  AudioManager.clamp01 v = v.
Proof.
  unfold F64.between. intros H Hv. apply andb_true_iff in H as [Hlo Hhi].
  rewrite clamp01_cases. unfold SFltb, SFleb in *.
  destruct (SFcompare v F64.one) as [[| |]|] eqn:H1; try discriminate Hhi.
  - symmetry. apply (SFcompare_Eq_finite _ _ _ _ H1).
  - destruct (SFcompare F64.zero v) as [[| |]|] eqn:H0; try discriminate Hlo;
      [|reflexivity].
    destruct (SFcompare_zero_Eq _ H0) as [[|] ->]; [congruence | reflexivity].
Qed.

Lemma clamp01_clamped (v : spec_float) : clamped v (AudioManager.clamp01 v).
Proof.
  unfold clamped. split; [apply clamp01_between|].
  split; [apply clamp01_below|]. split; [apply clamp01_above|].
  split; [intros ->; reflexivity|].
  intros H. split; [now apply clamp01_inside | now apply clamp01_kept].
Qed.

(** ** Bytes and samples *)

Example literal_half : F64.div (F64.of_Z 1) (F64.of_Z 2) = F64.half.
Proof. vm_compute. reflexivity. Qed.

Example literal_one : F64.of_Z 1 = F64.one.
Proof. vm_compute. reflexivity. Qed.

Example literal_vad_threshold :
  F64.div (F64.of_Z 1) (F64.of_Z 100) =
    AudioManager.vad_threshold (AudioManager.init 24000).
Proof. vm_compute. reflexivity. Qed.

Example float32_volume_half :
  F32.of_f64 F64.half = F32.div (F32.of_Z 1) (F32.of_Z 2).
Proof. vm_compute. reflexivity. Qed.

Example tobytes_minus_seven :
  Pcm.tobytes [-7; 258] = [Byte.xf9; Byte.xff; Byte.x02; Byte.x01].
Proof. vm_compute. reflexivity. Qed.

Lemma Z_of_byte_of_Z (z : Z) : Pcm.Z_of_byte (Pcm.byte_of_Z z) = z mod 256.
Proof.
  unfold Pcm.Z_of_byte, Pcm.byte_of_Z.
  assert (Hr : 0 <= z mod 256 < 256) by (apply Z.mod_pos_bound; lia).
  destruct (Byte.of_N (Z.to_N (z mod 256))) as [b|] eqn:E.
  - apply Byte.to_of_N in E. rewrite E. apply Z2N.id. lia.
  - apply Byte.of_N_None_iff in E. lia.
Qed.

Lemma int16_of_bytes_of_Z (z : Z) :
  Pcm.in_int16 z = true ->
  Pcm.int16_of_bytes (Pcm.byte_of_Z z) (Pcm.byte_of_Z (z / 256)) = z.
Proof.
  unfold Pcm.in_int16, Pcm.int16_min, Pcm.int16_max, Pcm.int16_of_bytes.
  intros H. apply andb_true_iff in H as [Hlo Hhi].
  apply Z.leb_le in Hlo, Hhi. rewrite !Z_of_byte_of_Z. cbv zeta.
  destruct (Z.ltb_spec (z mod 256 + 256 * (z / 256 mod 256)) 32768);
    Z.to_euclidean_division_equations; lia.
Qed.

(** What [tobytes] writes, [frombuffer] reads back. *)
Lemma frombuffer_tobytes (a : list Z) :
  Forall (fun z => Pcm.in_int16 z = true) a ->
  Pcm.frombuffer (Pcm.tobytes a) = Some a.
Proof.
  induction 1 as [|z a Hz _ IH]; cbn [Pcm.tobytes Pcm.frombuffer];
    [reflexivity|].
  now rewrite IH, (int16_of_bytes_of_Z z Hz).
Qed.

(** ** Volumes *)

Lemma set_volumes_input s input output :
  AudioManager.input_volume (AudioManager.set_volumes s input output) =
    match input with
    | Some v => AudioManager.clamp01 v
    | None => AudioManager.input_volume s
    end.
Proof. destruct input, output; reflexivity. Qed.

Lemma set_volumes_output s input output :
  AudioManager.output_volume (AudioManager.set_volumes s input output) =
    match output with
    | Some v => AudioManager.clamp01 v
    | None => AudioManager.output_volume s
    end.
Proof. destruct input, output; reflexivity. Qed.

Lemma set_volumes_in_range s input output :
  volumes_in_range s = true ->
  volumes_in_range (AudioManager.set_volumes s input output) = true.
Proof.
  unfold volumes_in_range. intros H. apply andb_true_iff in H as [Hi Ho].
  rewrite set_volumes_input, set_volumes_output. apply andb_true_iff.
  split; [destruct input | destruct output]; auto using clamp01_between.
Qed.

Lemma volumes_always_in_range (rate : Z)
    (calls : list (option spec_float * option spec_float)) :
  volumes_in_range (tuned rate calls) = true.
Proof.
  unfold tuned.
  assert (H : volumes_in_range (AudioManager.init rate) = true)
    by (vm_compute; reflexivity).
  revert H. generalize (AudioManager.init rate).
  induction calls as [|c calls IH]; intros s H; cbn [fold_left]; [exact H|].
  apply IH, set_volumes_in_range, H.
Qed.

(** C8. [set_volumes] stores, for each argument that is supplied, that
    value clamped into [0.0, 1.0]: the stored volume always lies between
    [0.0] and [1.0]; a value below [0.0] (such as [-1], or minus infinity)
    is stored as [0.0], a value above [1.0] (such as [2], or infinity) as
    [1.0], and a value within the range is kept as it is (equal as a
    number, and the very same float except that [-0.0] becomes [0.0]); a
    NaN is stored as [1.0]. An argument that is omitted leaves its volume
    as it was. Hence, in every engine, both volumes lie in [0.0, 1.0]
    after any call. *)
Theorem set_volumes_clamps (s : AudioManager.state)
    (input output : option spec_float) :
  let s' := AudioManager.set_volumes s input output in
  match input with
  | Some v => clamped v (AudioManager.input_volume s')
  | None => AudioManager.input_volume s' = AudioManager.input_volume s
  end /\
  match output with
  | Some v => clamped v (AudioManager.output_volume s')
  | None => AudioManager.output_volume s' = AudioManager.output_volume s
  end /\
  AudioManager.input_volume
    (AudioManager.set_volumes s (Some (F64.of_Z (-1))) output) = F64.zero /\
  AudioManager.output_volume
    (AudioManager.set_volumes s input (Some (F64.of_Z 2))) = F64.one /\
  forall rate calls,
    volumes_in_range
      (AudioManager.set_volumes (tuned rate calls) input output) = true.
Proof.
  cbv zeta. rewrite !set_volumes_input, !set_volumes_output.
  split; [|split; [|split; [|split]]].
  - destruct input; auto using clamp01_clamped.
  - destruct output; auto using clamp01_clamped.
  - vm_compute. reflexivity.
  - vm_compute. reflexivity.
  - intros rate calls.
    apply set_volumes_in_range, volumes_always_in_range.
Qed.

Lemma set_volumes_clamps_witness :
  AudioManager.input_volume
    (AudioManager.set_volumes (AudioManager.init 24000) (Some F64.half)
       (Some (F64.of_Z 2))) = F64.half.
Proof.
  destruct (set_volumes_clamps (AudioManager.init 24000) (Some F64.half)
              (Some (F64.of_Z 2))) as ((_ & _ & _ & _ & Hkept) & _).
  apply Hkept; [vm_compute; reflexivity | discriminate].
Defined.

(** ** Stopping the streams *)

Lemma stop_recording_stopped s :
  AudioManager.is_recording s = false ->
  AudioManager.stop_recording s = (s, []).
Proof. unfold AudioManager.stop_recording. now intros ->. Qed.

Lemma stop_playback_stopped s :
  AudioManager.is_playing s = false ->
  AudioManager.stop_playback s = (s, []).
Proof. unfold AudioManager.stop_playback. now intros ->. Qed.

Lemma stop_recording_clears s :
  AudioManager.is_recording (fst (AudioManager.stop_recording s)) = false.
Proof.
  unfold AudioManager.stop_recording.
  destruct (AudioManager.is_recording s) eqn:Hr; cbn; [|exact Hr].
  now destruct (AudioManager.input_stream s).
Qed.

Lemma stop_playback_clears s :
  AudioManager.is_playing (fst (AudioManager.stop_playback s)) = false.
Proof.
  unfold AudioManager.stop_playback.
  destruct (AudioManager.is_playing s) eqn:Hp; cbn; [|exact Hp].
  now destruct (AudioManager.output_thread s).
Qed.

(** C9. [stop_recording] and [stop_playback] are idempotent: a second call
    right after the first changes nothing more and touches no device, so
    two calls leave the engine as one does; and a call while the stream is
    not running ([is_recording], [is_playing] false) returns the state
    unchanged without any effect. Both are total: no call raises. *)
Theorem stop_idempotent (s : AudioManager.state) :
  AudioManager.stop_recording (fst (AudioManager.stop_recording s)) =
    (fst (AudioManager.stop_recording s), []) /\
  AudioManager.stop_playback (fst (AudioManager.stop_playback s)) =
    (fst (AudioManager.stop_playback s), []) /\
  (AudioManager.is_recording s = false ->
   AudioManager.stop_recording s = (s, [])) /\
  (AudioManager.is_playing s = false ->
   AudioManager.stop_playback s = (s, [])).
Proof.
  repeat split.
  - apply stop_recording_stopped, stop_recording_clears.
  - apply stop_playback_stopped, stop_playback_clears.
  - apply stop_recording_stopped.
  - apply stop_playback_stopped.
Qed.

Lemma stop_idempotent_witness :
  AudioManager.is_recording (AudioManager.init 24000) = false /\
  AudioManager.is_playing (AudioManager.init 24000) = false /\
  AudioManager.stop_recording (AudioManager.init 24000) =
    (AudioManager.init 24000, []) /\
  AudioManager.stop_playback (AudioManager.init 24000) =
    (AudioManager.init 24000, []).
Proof.
  destruct (stop_idempotent (AudioManager.init 24000)) as (_ & _ & Hr & Hp).
  split; [reflexivity|]. split; [reflexivity|].
  split; [apply Hr | apply Hp]; reflexivity.
Defined.

(** ** The persona table *)

Lemma set_npc_voice_config_lookup s name v i sm other :
  RealtimeClient.npc_voices
    (RealtimeClient.set_npc_voice_config s name v i sm) !! other =
  if decide (name = other) then Some (RealtimeClient.mk_voice v i sm)
  else RealtimeClient.npc_voices s !! other.
Proof.
  unfold RealtimeClient.set_npc_voice_config; cbn. apply lookup_insert.
Qed.

Lemma fold_keeps_HR calls : forall s,
  is_Some (RealtimeClient.npc_voices s !! "HR") ->
  is_Some (RealtimeClient.npc_voices
    (fold_left
       (fun s c =>
          RealtimeClient.set_npc_voice_config s (fst c)
            (RealtimeClient.voice (snd c))
            (RealtimeClient.instructions (snd c))
            (RealtimeClient.sample (snd c)))
       calls s) !! "HR").
Proof.
  induction calls as [|c calls IH]; intros s H; cbn [fold_left]; [exact H|].
  apply IH. rewrite set_npc_voice_config_lookup.
  destruct (decide (fst c = "HR")); [eexists; reflexivity | exact H].
Qed.


Lemma HR_always_registered calls :
  is_Some (RealtimeClient.npc_voices (configured calls) !! "HR").
Proof. apply fold_keeps_HR. eexists. vm_compute. reflexivity. Qed.




(** ** Connecting *)

Lemma attempts_all_fail transport s : forall remaining attempt,
  (forall j, (j < remaining)%nat -> transport (attempt + j)%nat = false) ->
  RealtimeClient.attempts transport attempt remaining s =
    (false, RealtimeClient.with_is_connected false s,
     failed_attempts remaining ++
       if RealtimeClient.on_error_callback s
       then [RealtimeClient.OnError "Connection failed after retries."]
       else []).
Proof.
  induction remaining as [|n IH]; intros attempt H; cbn; [reflexivity|].
  rewrite <- (Nat.add_0_r attempt) at 1. rewrite (H 0%nat) by lia.
  rewrite IH; [reflexivity|].
  intros j Hj. rewrite Nat.add_succ_l, <- Nat.add_succ_r. apply H. lia.
Qed.

Lemma attempts_success transport s : forall k remaining attempt,
  (k < remaining)%nat ->
  (forall j, (j < k)%nat -> transport (attempt + j)%nat = false) ->
  transport (attempt + k)%nat = true ->
  RealtimeClient.attempts transport attempt remaining s =
    (true,
     RealtimeClient.with_is_connected true
       (RealtimeClient.with_websocket true s),
     failed_attempts k ++
       [RealtimeClient.WebsocketsConnect; RealtimeClient.CreateTaskListen]).
Proof.
  induction k as [|k IH]; intros remaining attempt Hk Hfail Hok;
    (destruct remaining as [|n]; [lia|]); cbn.
  - rewrite Nat.add_0_r in Hok. now rewrite Hok.
  - rewrite <- (Nat.add_0_r attempt) at 1. rewrite (Hfail 0%nat) by lia.
    rewrite (IH n (S attempt)); [reflexivity | lia | |].
    + intros j Hj. rewrite Nat.add_succ_l, <- Nat.add_succ_r.
      apply Hfail. lia.
    + now rewrite Nat.add_succ_l, <- Nat.add_succ_r.
Qed.

(** C6. When the three calls of [websockets.connect] all fail, [connect]
    makes exactly those three attempts, each followed by a sleep of two
    seconds, then clears [is_connected], calls the error callback (when one
    is registered) with "Connection failed after retries." and returns
    [False]; nothing raises. When the [k]-th attempt ([k < 3]) is the first
    to succeed, it returns [True] with the socket recorded, [is_connected]
    set and the listener task started, after [k] failed attempts. *)
Theorem connect_retries (transport : nat -> bool)
    (s : RealtimeClient.state) :
  ((forall j, (j < 3)%nat -> transport j = false) ->
   RealtimeClient.connect transport s =
     (false, RealtimeClient.with_is_connected false s,
      [RealtimeClient.WebsocketsConnect; RealtimeClient.Sleep 2;
       RealtimeClient.WebsocketsConnect; RealtimeClient.Sleep 2;
       RealtimeClient.WebsocketsConnect; RealtimeClient.Sleep 2] ++
      if RealtimeClient.on_error_callback s
      then [RealtimeClient.OnError "Connection failed after retries."]
      else []) /\
   RealtimeClient.is_connected
     (snd (fst (RealtimeClient.connect transport s))) = false) /\
  (forall k, (k < 3)%nat ->
   (forall j, (j < k)%nat -> transport j = false) ->
   transport k = true ->
   RealtimeClient.connect transport s =
     (true,
      RealtimeClient.with_is_connected true
        (RealtimeClient.with_websocket true s),
      failed_attempts k ++
        [RealtimeClient.WebsocketsConnect; RealtimeClient.CreateTaskListen])).
Proof.
  unfold RealtimeClient.connect, RealtimeClient.max_retries. split.
  - intros H. rewrite attempts_all_fail by exact H. split; reflexivity.
  - intros k Hk Hfail Hok. now apply attempts_success.
Qed.

Lemma connect_retries_witness :
  RealtimeClient.connect (fun _ => false)
    (RealtimeClient.with_on_error_callback true RealtimeClient.init) =
    (false,
     RealtimeClient.with_is_connected false
       (RealtimeClient.with_on_error_callback true RealtimeClient.init),
     [RealtimeClient.WebsocketsConnect; RealtimeClient.Sleep 2;
      RealtimeClient.WebsocketsConnect; RealtimeClient.Sleep 2;
      RealtimeClient.WebsocketsConnect; RealtimeClient.Sleep 2;
      RealtimeClient.OnError "Connection failed after retries."]) /\
  RealtimeClient.connect (fun k => Nat.eqb k 1) RealtimeClient.init =
    (true,
     RealtimeClient.with_is_connected true
       (RealtimeClient.with_websocket true RealtimeClient.init),
     [RealtimeClient.WebsocketsConnect; RealtimeClient.Sleep 2;
      RealtimeClient.WebsocketsConnect; RealtimeClient.CreateTaskListen]).
Proof.
  split.
  - apply (connect_retries (fun _ => false)
             (RealtimeClient.with_on_error_callback true RealtimeClient.init)).
    reflexivity.
  - apply (proj2 (connect_retries (fun k => Nat.eqb k 1)
                    RealtimeClient.init) 1%nat).
    + lia.
    + intros j Hj. assert (j = 0%nat) as -> by lia. reflexivity.
    + reflexivity.
Defined.

(** ** Error events *)

Lemma prefix_lower (n s : string) :
  String.prefix n s = true ->
  String.prefix (RealtimeClient.lower n) (RealtimeClient.lower s) = true.
Proof.
  revert s. induction n as [|a n IH]; intros [|b s]; cbn; try congruence.
  destruct (ascii_dec a b) as [->|]; [|discriminate].
  intros H. destruct (ascii_dec _ _); [auto | congruence].
Qed.

Lemma contains_lower (n s : string) :
  RealtimeClient.contains n s = true ->
  RealtimeClient.contains (RealtimeClient.lower n) (RealtimeClient.lower s)
    = true.
Proof.
  induction s as [|b s IH]; cbn [RealtimeClient.contains RealtimeClient.lower].
  - destruct (String.prefix n "") eqn:Hp; [|discriminate].
    intros _. apply prefix_lower in Hp. cbn [RealtimeClient.lower] in Hp.
    now rewrite Hp.
  - destruct (String.prefix n (String b s)) eqn:Hp.
    + intros _. apply prefix_lower in Hp. cbn [RealtimeClient.lower] in Hp.
      now rewrite Hp.
    + intros H. rewrite (IH H).
      now destruct (String.prefix (RealtimeClient.lower n) _).
Qed.

Lemma benign_is_lower : RealtimeClient.lower RealtimeClient.benign
  = RealtimeClient.benign.
Proof. vm_compute. reflexivity. Qed.

Lemma contains_benign_lower (m : string) :
  RealtimeClient.contains RealtimeClient.benign m = true ->
  RealtimeClient.contains RealtimeClient.benign (RealtimeClient.lower m)
    = true.
Proof.
  intros H. rewrite <- benign_is_lower at 1. now apply contains_lower.
Qed.

(** C2, as the code has it. An error event whose message is a string, or
    absent (then it reads "Unknown error"), is benign when the message,
    lower-cased, contains "no active response found": the match ignores
    case. A benign event calls no callback; any other such event calls the
    registered error callback once, with the message. Either way
    [is_processing] and [is_playing] end up false and nothing else
    changes. In particular a message that contains the phrase literally is
    benign. An error event whose error object is not an object, or whose
    message is not a string, is handled differently: the handler raises
    [AttributeError] before it clears anything, so that the client is
    left exactly as it was, [is_processing] and [is_playing] included, and
    no callback is called. *)
Theorem error_event_handling (b64decode : string -> option Pcm.bytes)
    (s : RealtimeClient.state) (message : option string) :
  RealtimeClient.on_error_callback s = true ->
  let out :=
    RealtimeClient._handle_message b64decode s (RealtimeClient.Error message)
  in
  fst out = cleared s /\
  RealtimeClient.is_processing (fst out) = false /\
  RealtimeClient.is_playing (fst out) = false /\
  snd out =
    (if RealtimeClient.contains RealtimeClient.benign
          (RealtimeClient.lower (error_text message))
     then []
     else [RealtimeClient.OnError (error_text message)]) /\
  (RealtimeClient.contains RealtimeClient.benign (error_text message) = true
   -> snd out = []) /\
  RealtimeClient._handle_message b64decode s RealtimeClient.ErrorMalformed =
    (s, [RealtimeClient.Raise "AttributeError"]).
Proof.
  intros Hcb. cbv zeta. unfold RealtimeClient._handle_message.
  fold (error_text message). fold (cleared s). rewrite Hcb.
  destruct (RealtimeClient.contains RealtimeClient.benign
              (RealtimeClient.lower (error_text message))) eqn:Hb;
    cbn [fst snd]; repeat split; try reflexivity.
  intros H. apply contains_benign_lower in H. congruence.
Qed.

Lemma error_event_handling_witness :
  snd (RealtimeClient._handle_message (fun _ => None) listening_client
         (RealtimeClient.Error
            (Some "Cancellation failed: no active response found"))) = [] /\
  snd (RealtimeClient._handle_message (fun _ => None) listening_client
         (RealtimeClient.Error (Some "Invalid audio format"))) =
    [RealtimeClient.OnError "Invalid audio format"].
Proof.
  split.
  - destruct (error_event_handling (fun _ => None) listening_client
                (Some "Cancellation failed: no active response found")
                eq_refl)
      as (_ & _ & _ & _ & H & _).
    apply H. reflexivity.
  - destruct (error_event_handling (fun _ => None) listening_client
                (Some "Invalid audio format") eq_refl)
      as (_ & _ & _ & H & _).
    exact H.
Defined.

(** C2 as stated fails on a message that spells the phrase in another case:
    it does not contain "no active response found", yet the registered
    error callback is not called. *)
Lemma error_event_other_case_suppressed :
  RealtimeClient.on_error_callback listening_client = true /\
  RealtimeClient.contains "no active response found"
    "Cancellation failed: No active response found" = false /\
  snd (RealtimeClient._handle_message (fun _ => None) listening_client
         (RealtimeClient.Error
            (Some "Cancellation failed: No active response found"))) = [].
Proof. vm_compute. repeat split; reflexivity. Qed.

(** ** The frame-accumulation loop *)

Lemma iteration_empty cd acc :
  Dialogue.iteration cd acc Dialogue.Empty = (acc, []).
Proof. reflexivity. Qed.

(** Below the minimum duration the item is kept and nothing is sent. *)
Lemma iteration_below cd acc audio_data ready :
  SFleb Dialogue.min_commit_duration
    (F64.add (Dialogue.accumulated_duration acc) cd) = false ->
  Dialogue.iteration cd acc (Dialogue.Got audio_data ready) =
    (Dialogue.mk (Dialogue.accumulated_audio acc ++ [audio_data])
       (F64.add (Dialogue.accumulated_duration acc) cd), []).
Proof. unfold Dialogue.iteration. now intros ->. Qed.

(** At the minimum duration a buffer with samples is sent and committed
    (when the client is ready) and the accumulator starts afresh. *)
Lemma iteration_commit cd acc audio_data ready :
  SFleb Dialogue.min_commit_duration
    (F64.add (Dialogue.accumulated_duration acc) cd) = true ->
  (0 < length (concat (Dialogue.accumulated_audio acc ++ [audio_data])))%nat ->
  Dialogue.iteration cd acc (Dialogue.Got audio_data ready) =
    (Dialogue.empty,
     if ready
     then [Dialogue.SendAudioChunk
             (Pcm.tobytes
                (map Dialogue.clip_int16
                   (concat (Dialogue.accumulated_audio acc ++ [audio_data]))));
           Dialogue.CommitAudioBuffer]
     else []).
Proof.
  unfold Dialogue.iteration. intros -> Hlen.
  destruct (length _) eqn:E; [lia | reflexivity].
Qed.

(** An iteration that commits leaves the accumulator empty. *)
Lemma commit_resets cd acc p :
  In Dialogue.CommitAudioBuffer (snd (Dialogue.iteration cd acc p)) ->
  fst (Dialogue.iteration cd acc p) = Dialogue.empty.
Proof.
  destruct p as [audio_data ready|]; cbn; [|tauto].
  destruct (SFleb _ _); [|cbn; tauto].
  destruct (length _ =? 0)%nat; reflexivity.
Qed.

(** C3. In an iteration whose accumulated buffer (the item just received
    included) concatenates to a zero-length array, the loop hands nothing
    to the client, neither [send_audio_chunk] nor [commit_audio_buffer];
    and when that iteration reaches the drain (the accumulated duration
    has reached the minimum), the zero-length result makes it skip the
    network call and reset the accumulator to the empty list and duration
    zero. *)
Theorem empty_drain_skipped (cd : spec_float) (acc : Dialogue.accumulator)
    (audio_data : list Z) (ready : bool) :
  concat (Dialogue.accumulated_audio acc ++ [audio_data]) = [] ->
  snd (Dialogue.iteration cd acc (Dialogue.Got audio_data ready)) = [] /\
  (SFleb Dialogue.min_commit_duration
     (F64.add (Dialogue.accumulated_duration acc) cd) = true ->
   Dialogue.iteration cd acc (Dialogue.Got audio_data ready) =
     (Dialogue.empty, [])).
Proof.
  unfold Dialogue.iteration. intros ->.
  destruct (SFleb _ _); split; intros; try reflexivity; discriminate.
Qed.

Lemma empty_drain_skipped_witness :
  length (Dialogue.accumulated_audio eleven_empty) = 11%nat /\
  Dialogue.iteration (Dialogue.chunk_duration 24000) eleven_empty
    (Dialogue.Got [] true) = (Dialogue.empty, []).
Proof.
  split; [vm_compute; reflexivity|].
  apply empty_drain_skipped; vm_compute; reflexivity.
Defined.

(** Time-outs of the queue change nothing: a run behaves as if it had
    received its items back to back. *)
Lemma iterations_received cd : forall polls acc,
  Dialogue.always_ready polls = true ->
  Dialogue.iterations cd acc polls =
    Dialogue.iterations cd acc
      (map (fun a => Dialogue.Got a true) (Dialogue.received polls)).
Proof.
  induction polls as [|[a r|] polls IH]; intros acc H;
    cbn [Dialogue.iterations Dialogue.received Dialogue.always_ready map] in *.
  - reflexivity.
  - apply andb_true_iff in H as [-> H].
    destruct (Dialogue.iteration cd acc (Dialogue.Got a true)) as [acc1 c1].
    now rewrite (IH acc1 H).
  - rewrite iteration_empty. rewrite (IH acc H).
    now destruct (Dialogue.iterations _ _ _).
Qed.

Lemma iterations_cons cd acc p polls acc1 calls1 acc2 calls2 :
  Dialogue.iteration cd acc p = (acc1, calls1) ->
  Dialogue.iterations cd acc1 polls = (acc2, calls2) ->
  Dialogue.iterations cd acc (p :: polls) = (acc2, calls1 ++ calls2).
Proof. cbn [Dialogue.iterations]. now intros -> ->. Qed.

Lemma chunk_duration_24k :
  Dialogue.chunk_duration 24000 = S754_finite false 6148914691236517 (-57).
Proof. vm_compute. reflexivity. Qed.

(** One iteration of a run on non-empty blocks: either it stays below the
    minimum, or it commits. *)
Ltac loop_step :=
  eapply iterations_cons;
  [ first
      [ apply iteration_below; vm_compute; reflexivity
      | apply iteration_commit;
        [ vm_compute; reflexivity
        | cbn [Dialogue.accumulated_audio Dialogue.empty app concat];
          rewrite !length_app; lia ] ]
  | ].

(** C1, as the code has it. Voice mode on and the client ready, thirty
    blocks of 1024 samples at 24 kHz reach the loop (with any time-outs of
    the queue in between). The loop commits twice, not once and not once a
    block: the first [commit_audio_buffer] follows the twelfth block, where
    the accumulated duration first reaches 500 ms (12 * 1024 / 24000 =
    0.512 s), and carries blocks 1 to 12; having started afresh, the loop
    commits again after the twenty-fourth block with blocks 13 to 24; the
    last six blocks stay accumulated, below the minimum. Every iteration
    that commits leaves the accumulator empty with duration zero. *)
Theorem thirty_blocks_commit_twice (polls : list Dialogue.poll) :
  length (Dialogue.received polls) = 30%nat ->
  Forall (fun a => length a = 1024%nat) (Dialogue.received polls) ->
  Dialogue.always_ready polls = true ->
  exists acc calls,
    Dialogue._process_audio_input 24000 polls = Some (acc, calls) /\
    Dialogue.commits calls = 2%nat /\
    calls =
      [Dialogue.SendAudioChunk
         (Pcm.tobytes
            (map Dialogue.clip_int16
               (concat (firstn 12 (Dialogue.received polls)))));
       Dialogue.CommitAudioBuffer;
       Dialogue.SendAudioChunk
         (Pcm.tobytes
            (map Dialogue.clip_int16
               (concat (firstn 12 (skipn 12 (Dialogue.received polls))))));
       Dialogue.CommitAudioBuffer] /\
    Dialogue.accumulated_audio acc = skipn 24 (Dialogue.received polls) /\
    SFltb (Dialogue.accumulated_duration acc) Dialogue.min_commit_duration
      = true /\
    (forall acc0 p,
       In Dialogue.CommitAudioBuffer
         (snd (Dialogue.iteration (Dialogue.chunk_duration 24000) acc0 p)) ->
       fst (Dialogue.iteration (Dialogue.chunk_duration 24000) acc0 p)
         = Dialogue.empty).
Proof.
  intros Hlen Hsize Hready.
  unfold Dialogue._process_audio_input. cbn [Z.eqb].
  rewrite (iterations_received _ _ _ Hready), chunk_duration_24k.
  revert Hlen Hsize. generalize (Dialogue.received polls) as blocks.
  intros blocks Hlen Hsize.
  do 30 (destruct blocks as [|? blocks]; [discriminate Hlen|];
         apply Nat.succ_inj in Hlen;
         apply Forall_cons_iff in Hsize as [? Hsize]).
  destruct blocks; [clear Hlen Hsize | discriminate Hlen].
  cbn [map]. unfold Dialogue.empty at 1.
  eexists _, _. split.
  { apply (f_equal Some). do 30 loop_step. reflexivity. }
  split; [reflexivity|]. split; [reflexivity|]. split; [reflexivity|].
  split; [vm_compute; reflexivity|].
  intros acc0 p. apply commit_resets.
Qed.

Lemma received_back_to_back (blocks : list (list Z)) :
  Dialogue.received (map (fun a => Dialogue.Got a true) blocks) = blocks.
Proof.
  induction blocks as [|a blocks IH]; cbn [map Dialogue.received];
    [reflexivity | now rewrite IH].
Qed.

Lemma thirty_blocks_commit_twice_witness :
  exists acc calls,
    Dialogue._process_audio_input 24000 thirty_polls = Some (acc, calls) /\
    Dialogue.commits calls = 2%nat.
Proof.
  destruct (thirty_blocks_commit_twice thirty_polls)
    as (acc & calls & Hrun & Hcommits & _).
  - unfold thirty_polls. cbn [Dialogue.received].
    rewrite received_back_to_back. apply repeat_length.
  - unfold thirty_polls. cbn [Dialogue.received].
    rewrite received_back_to_back. apply List.Forall_forall. intros a Ha.
    apply repeat_spec in Ha. subst a. apply repeat_length.
  - vm_compute. reflexivity.
  - exists acc, calls. split; [exact Hrun | exact Hcommits].
Defined.

(** C1 as stated fails: on thirty blocks of 1024 samples, the client ready
    throughout, the number of commits is not one. *)
Lemma thirty_blocks_not_one_commit :
  length (Dialogue.received thirty_polls) = 30%nat /\
  forallb (fun a => (length a =? 1024)%nat) (Dialogue.received thirty_polls)
    = true /\
  Dialogue.always_ready thirty_polls = true /\
  match Dialogue._process_audio_input 24000 thirty_polls with
  | Some (_, calls) => Dialogue.commits calls <> 1%nat
  | None => False
  end.
Proof.
  split; [vm_compute; reflexivity|]. split; [vm_compute; reflexivity|].
  split; [vm_compute; reflexivity|]. vm_compute. discriminate.
Qed.

(** ** The capture queue *)

Section Capture.
Variable cast_overflow : spec_float -> Z.
Variable rms_exceeds : list Z -> spec_float -> bool.

Lemma audio_callback_queue s indata now :
  AudioManager.input_queue
    (fst (AudioManager.Recording.audio_callback cast_overflow rms_exceeds
            s indata now)) =
    AudioManager.input_queue s
      ++ [captured cast_overflow (AudioManager.input_volume s) indata] /\
  AudioManager.input_volume
    (fst (AudioManager.Recording.audio_callback cast_overflow rms_exceeds
            s indata now)) =
    AudioManager.input_volume s.
Proof.
  unfold AudioManager.Recording.audio_callback, captured.
  destruct (rms_exceeds _ _); split; reflexivity.
Qed.

Lemma capture_queue blocks : forall s,
  AudioManager.input_queue
    (fst (AudioManager.Recording.capture cast_overflow rms_exceeds
            s blocks)) =
    AudioManager.input_queue s
      ++ map (fun b =>
                captured cast_overflow (AudioManager.input_volume s) (fst b))
           blocks.
Proof.
  induction blocks as [|[indata now] blocks IH]; intros s;
    cbn [AudioManager.Recording.capture map].
  - now rewrite app_nil_r.
  - destruct (audio_callback_queue s indata now) as [Hq Hv].
    destruct (AudioManager.Recording.audio_callback cast_overflow
                rms_exceeds s indata now) as [s1 t1].
    cbn [fst] in Hq, Hv. specialize (IH s1).
    destruct (AudioManager.Recording.capture cast_overflow rms_exceeds
                s1 blocks) as [s2 t2].
    cbn [fst] in *. rewrite IH, Hq, Hv, <- app_assoc. reflexivity.
Qed.

(** C4, as the code has it. The input queue has no bound: every capture
    callback appends its block at the back of the queue, nothing is ever
    dropped from it and no overflow is signalled, so after any number of
    callbacks the queue holds what it held before followed by every
    block captured since, in capture order. *)
Theorem capture_queue_grows (s : AudioManager.state)
    (blocks : list (list spec_float * spec_float)) :
  let s' :=
    fst (AudioManager.Recording.capture cast_overflow rms_exceeds s blocks)
  in
  AudioManager.input_queue s' =
    AudioManager.input_queue s
      ++ map (fun b =>
                captured cast_overflow (AudioManager.input_volume s) (fst b))
           blocks /\
  length (AudioManager.input_queue s') =
    (length (AudioManager.input_queue s) + length blocks)%nat.
Proof.
  cbv zeta. rewrite capture_queue, length_app, length_map. now split.
Qed.
End Capture.

(** C4 as stated fails: whatever bound is proposed, one more callback than
    the bound leaves the queue longer than it. *)
Lemma input_queue_has_no_cap :
  ~ exists cap : nat,
      forall blocks : list (list spec_float * spec_float),
        (length
           (AudioManager.input_queue
              (fst (AudioManager.Recording.capture (fun _ => 0%Z)
                      (fun _ _ => false) (AudioManager.init 24000) blocks)))
         <= cap)%nat.
Proof.
  intros [cap H]. specialize (H (repeat ([], F64.zero) (S cap))).
  rewrite capture_queue, length_app, length_map, repeat_length in H.
  cbn in H. lia.
Qed.

(** ** The playback callback *)

Lemma frombuffer_whole : forall n (c : Pcm.bytes),
  length c = (2 * n)%nat ->
  exists a, Pcm.frombuffer c = Some a /\ length a = n.
Proof.
  induction n as [|n IH]; intros c Hc.
  - destruct c; [|discriminate]. now exists [].
  - destruct c as [|lo [|hi c]]; cbn in Hc; try lia.
    destruct (IH c) as (a & Ha & Hlen); [lia|].
    exists (Pcm.int16_of_bytes lo hi :: a). cbn. rewrite Ha.
    split; [reflexivity | cbn; lia].
Qed.

Lemma frombuffer_even (c : Pcm.bytes) :
  whole_samples c -> exists a, Pcm.frombuffer c = Some a.
Proof.
  intros H. apply Nat.even_spec in H as [n Hn].
  destruct (frombuffer_whole n c Hn) as (a & Ha & _). now exists a.
Qed.


Lemma frombuffer_odd : forall n (c : Pcm.bytes),
  length c = S (2 * n) -> Pcm.frombuffer c = None.
Proof.
  induction n as [|n IH]; intros c Hc.
  - destruct c as [|lo [|hi c]]; try discriminate. reflexivity.
  - destruct c as [|lo [|hi c]]; try discriminate.
    cbn [Pcm.frombuffer]. rewrite IH; [reflexivity|]. cbn in Hc. lia.
Qed.

Lemma fetch_odd frames (c : Pcm.bytes) (rest : list Pcm.bytes) :
  forall (good : list Pcm.bytes) (buffer : list Z),
  Forall whole_samples good ->
  (length buffer + length (samples_of good) < frames)%nat ->
  Nat.odd (length c) = true ->
  AudioManager.Playback.fetch (good ++ c :: rest) buffer frames = None.
Proof.
  induction good as [|g good IH]; intros buffer Hg Hlen Hodd;
    cbn [app AudioManager.Playback.fetch].
  - cbn in Hlen.
    destruct (Nat.ltb_spec (length buffer) frames) as [_|Hge]; [|lia].
    apply Nat.odd_spec in Hodd as [n Hn].
    rewrite (frombuffer_odd n c); [reflexivity | lia].
  - inversion Hg as [|? ? Hc Hg']; subst.
    destruct (frombuffer_even g Hc) as [a Ha].
    cbn [samples_of flat_map] in Hlen. rewrite Ha in Hlen.
    rewrite length_app in Hlen. fold (samples_of good) in Hlen.
    destruct (Nat.ltb_spec (length buffer) frames) as [_|Hge]; [|lia].
    rewrite Ha. apply IH; [exact Hg' | rewrite length_app; lia | exact Hodd].
Qed.




(** ** Rounding in [float32] *)

Lemma fexp32 (e : Z) : fexp 24 128 e = Z.max (e - 24) (-149).
Proof. reflexivity. Qed.

Lemma digits2_pos_bounds (p : positive) :
  2 ^ (Z.pos (digits2_pos p) - 1) <= Z.pos p < 2 ^ Z.pos (digits2_pos p).
Proof.
  induction p as [p IH|p IH|].
  - cbn [digits2_pos]. rewrite Pos2Z.inj_succ.
    change (Z.pos p~1) with (2 * Z.pos p + 1).
    replace (Z.succ (Z.pos (digits2_pos p)) - 1)
      with (Z.succ (Z.pos (digits2_pos p) - 1)) by lia.
    assert (0 <= Z.pos (digits2_pos p) - 1) by lia.
    rewrite (Z.pow_succ_r 2 (Z.pos (digits2_pos p) - 1)) by assumption.
    rewrite (Z.pow_succ_r 2 (Z.pos (digits2_pos p))) by lia.
    lia.
  - cbn [digits2_pos]. rewrite Pos2Z.inj_succ.
    change (Z.pos p~0) with (2 * Z.pos p).
    replace (Z.succ (Z.pos (digits2_pos p)) - 1)
      with (Z.succ (Z.pos (digits2_pos p) - 1)) by lia.
    assert (0 <= Z.pos (digits2_pos p) - 1) by lia.
    rewrite (Z.pow_succ_r 2 (Z.pos (digits2_pos p) - 1)) by assumption.
    rewrite (Z.pow_succ_r 2 (Z.pos (digits2_pos p))) by lia.
    lia.
  - change (1 <= 1 < 2). lia.
Qed.

Lemma Zdigits2_nonneg (m : Z) : 0 <= Zdigits2 m.
Proof. destruct m; cbn; lia. Qed.

Lemma Zdigits2_le (m k : Z) : 0 <= m < 2 ^ k -> 0 <= k -> Zdigits2 m <= k.
Proof.
  intros [Hm Hlt] Hk. destruct m as [|p|p]; cbn; try lia.
  destruct (digits2_pos_bounds p) as [Hlo _].
  destruct (Z_lt_le_dec k (Z.pos (digits2_pos p))) as [Hgt|]; [|lia].
  assert (2 ^ k <= 2 ^ (Z.pos (digits2_pos p) - 1))
    by (apply Z.pow_le_mono_r; lia).
  lia.
Qed.

Lemma shr_1_m (mrs : shr_record) :
  0 <= shr_m mrs -> shr_m (shr_1 mrs) = shr_m mrs / 2.
Proof.
  destruct mrs as [m r s]. cbn [shr_m]. intros Hm.
  destruct m as [|[p|p|]|p]; cbn [shr_1 shr_m].
  - reflexivity.
  - change (Z.pos p~1) with (2 * Z.pos p + 1).
    apply Z.div_unique with 1; lia.
  - change (Z.pos p~0) with (2 * Z.pos p).
    apply Z.div_unique with 0; lia.
  - reflexivity.
  - lia.
Qed.

Lemma iter_shr_1_m (p : positive) : forall mrs,
  0 <= shr_m mrs ->
  shr_m (SpecFloat.iter_pos shr_1 p mrs) = shr_m mrs / 2 ^ Z.pos p.
Proof.
  induction p as [p IH|p IH|]; intros mrs Hm; cbn [SpecFloat.iter_pos].
  - assert (H1 : 0 <= shr_m (shr_1 mrs))
      by (rewrite shr_1_m by lia; apply Z.div_pos; lia).
    assert (H2 : 0 <= shr_m (SpecFloat.iter_pos shr_1 p (shr_1 mrs)))
      by (rewrite IH by lia; apply Z.div_pos; lia).
    rewrite IH, IH, shr_1_m by lia.
    rewrite !Z.div_div by lia.
    change (Z.pos p~1) with (2 * Z.pos p + 1).
    replace (2 * Z.pos p + 1) with (1 + Z.pos p + Z.pos p) by lia.
    rewrite !Z.pow_add_r by lia. now rewrite Z.pow_1_r, Z.mul_assoc.
  - assert (H2 : 0 <= shr_m (SpecFloat.iter_pos shr_1 p mrs))
      by (rewrite IH by lia; apply Z.div_pos; lia).
    rewrite IH, IH by lia.
    rewrite !Z.div_div by lia.
    change (Z.pos p~0) with (2 * Z.pos p).
    replace (2 * Z.pos p) with (Z.pos p + Z.pos p) by lia.
    now rewrite Z.pow_add_r by lia.
  - rewrite shr_1_m by lia. reflexivity.
Qed.

Lemma round_nearest_even_bounds (m : Z) (l : location) :
  m <= round_nearest_even m l <= m + 1.
Proof.
  destruct l as [|[ | | ]]; cbn [round_nearest_even];
    try destruct (Z.even m); lia.
Qed.

Lemma shr_m_of_loc (m : Z) (l : location) :
  shr_m (shr_record_of_loc m l) = m.
Proof. destruct l as [|[ | | ]]; reflexivity. Qed.

(** One pass of [shr_fexp]: the exponent does not decrease, and the
    mantissa is the old one divided by the power of two in between. *)
Lemma shr_fexp_spec (m e : Z) (l : location) :
  0 <= m ->
  let '(mrs, e') := shr_fexp 24 128 m e l in
  e' = Z.max e (fexp 24 128 (Zdigits2 m + e)) /\
  shr_m mrs = m / 2 ^ (e' - e) /\
  (e' = e -> mrs = shr_record_of_loc m l).
Proof.
  intros Hm. unfold shr_fexp, shr.
  destruct (fexp 24 128 (Zdigits2 m + e) - e) as [|p|p] eqn:Hn.
  - repeat split; try lia.
    rewrite shr_m_of_loc. replace (e - e) with 0 by lia.
    now rewrite Z.pow_0_r, Z.div_1_r.
  - repeat split; try lia.
    rewrite iter_shr_1_m by (rewrite shr_m_of_loc; lia).
    rewrite shr_m_of_loc. replace (e + Z.pos p - e) with (Z.pos p) by lia.
    reflexivity.
  - repeat split; try lia.
    rewrite shr_m_of_loc. replace (e - e) with 0 by lia.
    now rewrite Z.pow_0_r, Z.div_1_r.
Qed.

Lemma shr_fexp_shift (m E : Z) (l : location) :
  -124 <= E ->
  shr_fexp 24 128 m (E - 1) l =
    (fst (shr_fexp 24 128 m E l), snd (shr_fexp 24 128 m E l) - 1) /\
  E <= snd (shr_fexp 24 128 m E l).
Proof.
  intros HE. unfold shr_fexp. rewrite !fexp32.
  pose proof (Zdigits2_nonneg m) as Hd.
  replace (Z.max (Zdigits2 m + (E - 1) - 24) (-149) - (E - 1))
    with (Zdigits2 m - 24) by lia.
  replace (Z.max (Zdigits2 m + E - 24) (-149) - E)
    with (Zdigits2 m - 24) by lia.
  unfold shr. destruct (Zdigits2 m - 24) as [|p|p]; cbn [fst snd];
    split; try lia; f_equal; lia.
Qed.

(** Far enough above the smallest exponent, rounding commutes with
    halving: lowering the exponent of the exact value by one lowers the
    exponent of the rounded value by one and changes nothing else. *)
Lemma binary_round_aux_shift (s : bool) (m E : Z) (l : location) :
  -100 <= E ->
  match binary_round_aux 24 128 s m E l with
  | S754_zero s' => binary_round_aux 24 128 s m (E - 1) l = S754_zero s'
  | S754_finite s' m2 e2 =>
      binary_round_aux 24 128 s m (E - 1) l = S754_finite s' m2 (e2 - 1) /\
      E <= e2
  | _ => True
  end.
Proof.
  intros HE. unfold binary_round_aux.
  destruct (shr_fexp_shift m E l) as [H1 Hge1]; [lia|]. rewrite H1.
  destruct (shr_fexp 24 128 m E l) as [mrs1 e1]. cbn [fst snd] in *.
  set (m1 := round_nearest_even (shr_m mrs1) (loc_of_shr_record mrs1)).
  destruct (shr_fexp_shift m1 e1 loc_Exact) as [H2 Hge2]; [lia|]. rewrite H2.
  destruct (shr_fexp 24 128 m1 e1 loc_Exact) as [mrs2 e2].
  cbn [fst snd] in *.
  destruct (shr_m mrs2) as [|m2|m2]; [reflexivity| |exact I].
  destruct (Z.leb_spec e2 (128 - 24)) as [Hle|Hgt]; [|exact I].
  destruct (Z.leb_spec (e2 - 1) (128 - 24)) as [_|Hgt]; [|lia].
  split; [reflexivity | lia].
Qed.

(** The rounded value of a small exact value is small. *)
Lemma binary_round_aux_small (s : bool) (P : positive) (E k : Z) :
  0 <= k -> Z.pos P < 2 ^ k -> -149 <= k + E -> k + E <= 103 ->
  small (k + E + 1) (binary_round_aux 24 128 s (Z.pos P) E loc_Exact).
Proof.
  intros Hk HP Hlo Hhi. unfold binary_round_aux.
  pose proof (shr_fexp_spec (Z.pos P) E loc_Exact) as H1.
  destruct (shr_fexp 24 128 (Z.pos P) E loc_Exact) as [mrs1 e1].
  destruct H1 as (He1 & Hm1 & _); [lia|].
  set (d := Zdigits2 (Z.pos P)) in *.
  assert (Hd : 1 <= d <= k).
  { split; [unfold d; cbn; lia | apply Zdigits2_le; lia]. }
  assert (HPd : Z.pos P < 2 ^ d).
  { unfold d. cbn. apply digits2_pos_bounds. }
  rewrite fexp32 in He1.
  assert (Hpow1 : 0 < 2 ^ (e1 - E)) by (apply Z.pow_pos_nonneg; lia).
  (* the first mantissa *)
  assert (Hm1lo : 0 <= shr_m mrs1) by (rewrite Hm1; apply Z.div_pos; lia).
  assert (Hm1_24 : shr_m mrs1 < 2 ^ 24).
  { rewrite Hm1. apply Z.div_lt_upper_bound; [lia|].
    rewrite <- Z.pow_add_r by lia.
    apply Z.lt_le_trans with (1 := HPd). apply Z.pow_le_mono_r; lia. }
  assert (Hm1_u : shr_m mrs1 < 2 ^ (k + E - e1)).
  { rewrite Hm1. apply Z.div_lt_upper_bound; [lia|].
    rewrite <- Z.pow_add_r by lia.
    replace (e1 - E + (k + E - e1)) with k by lia. exact HP. }
  pose proof (round_nearest_even_bounds (shr_m mrs1)
                (loc_of_shr_record mrs1)) as Hr.
  set (m1 := round_nearest_even (shr_m mrs1) (loc_of_shr_record mrs1)) in *.
  (* the second pass *)
  pose proof (shr_fexp_spec m1 e1 loc_Exact) as H2.
  destruct (shr_fexp 24 128 m1 e1 loc_Exact) as [mrs2 e2].
  destruct H2 as (He2 & Hm2 & _); [lia|].
  rewrite fexp32 in He2.
  assert (HD : Zdigits2 m1 <= 25).
  { apply Zdigits2_le; [|lia]. change (2 ^ 25) with (2 * 2 ^ 24). lia. }
  assert (Hpow2 : 0 < 2 ^ (e2 - e1)) by (apply Z.pow_pos_nonneg; lia).
  assert (Hm2le : shr_m mrs2 <= m1).
  { rewrite Hm2. apply Z.div_le_upper_bound; [lia|]. nia. }
  assert (Hm2lo : 0 <= shr_m mrs2) by (rewrite Hm2; apply Z.div_pos; lia).
  destruct (shr_m mrs2) as [|m2|m2]; [exact I| |lia].
  destruct (Z.leb_spec e2 (128 - 24)) as [_|Hgt]; [|lia].
  split; [lia|].
  apply Z.le_trans with (2 ^ (k + E - e1)); [lia|].
  apply Z.pow_le_mono_r; lia.
Qed.

Lemma small_trunc_zero (T : Z) (f : spec_float) :
  small T f -> T <= -1 -> Pcm.trunc f = Some 0.
Proof.
  destruct f as [s|s| |s m e]; cbn [small Pcm.trunc]; try tauto.
  intros [He Hm] HT. destruct e as [|e|e]; try lia.
  assert (Hlt : Z.pos m < 2 ^ Z.pos e).
  { apply Z.le_lt_trans with (1 := Hm). apply Z.pow_lt_mono_r; lia. }
  rewrite Z.div_small by lia. now destruct s.
Qed.

Lemma mul_small (T : Z) (y : spec_float) :
  small T y -> -164 <= T -> T <= 80 ->
  small (T + 16) (F32.mul y (F32.of_Z 32767)).
Proof.
  change (F32.of_Z 32767) with (S754_finite false 16776704 (-9)).
  destruct y as [s|s| |s m e]; cbn [small F32.mul SFmul]; try tauto.
  intros [He Hm] Hlo Hhi.
  replace (T + 16) with ((T - e + 24) + (e + -9) + 1) by lia.
  apply binary_round_aux_small; try lia.
  rewrite Pos2Z.inj_mul, Z.pow_add_r by lia.
  change (2 ^ 24) with 16777216.
  assert (0 < 2 ^ (T - e)) by (apply Z.pow_pos_nonneg; lia). nia.
Qed.

Lemma trunc_halved (s : bool) (m : positive) (e p : Z) :
  Pcm.trunc (S754_finite s m e) = Some p ->
  Pcm.trunc (S754_finite s m (e - 1)) = Some (Z.quot p 2).
Proof.
  cbn [Pcm.trunc]. intros H. injection H as <-. f_equal.
  assert (Hq : forall a, 0 <= a ->
            (if s then - (a / 2) else a / 2) = Z.quot (if s then - a else a) 2).
  { intros a Ha. destruct s.
    - now rewrite Z.quot_opp_l, Z.quot_div_nonneg by lia.
    - now rewrite Z.quot_div_nonneg by lia. }
  destruct e as [|q|q].
  - change (0 - 1) with (Z.neg 1). cbn beta iota.
    rewrite Z.pow_0_r, Z.mul_1_r, Z.pow_1_r. apply Hq. lia.
  - rewrite <- Hq by (apply Z.mul_nonneg_nonneg; [lia|apply Z.pow_nonneg; lia]).
    assert (Hhalf : Z.pos m * 2 ^ Z.pos q / 2 = Z.pos m * 2 ^ (Z.pos q - 1)).
    { replace (Z.pos q) with (Z.succ (Z.pos q - 1)) at 1 by lia.
      rewrite Z.pow_succ_r by lia.
      replace (Z.pos m * (2 * 2 ^ (Z.pos q - 1)))
        with (Z.pos m * 2 ^ (Z.pos q - 1) * 2) by lia.
      apply Z.div_mul. lia. }
    rewrite Hhalf. destruct (Z.pos q - 1) eqn:E; try lia; reflexivity.
  - change (Z.neg q - 1) with (Z.neg (q + 1)). cbn beta iota.
    rewrite <- Hq by (apply Z.div_pos; [lia|apply Z.pow_pos_nonneg; lia]).
    rewrite Pos2Z.inj_add, Z.pow_add_r, Z.pow_1_r by lia.
    now rewrite Z.div_div by (try apply Z.pow_pos_nonneg; lia).
Qed.

Lemma in_int16_quot (p : Z) :
  Pcm.in_int16 p = true -> Pcm.in_int16 (Z.quot p 2) = true.
Proof.
  unfold Pcm.in_int16, Pcm.int16_min, Pcm.int16_max. intros H.
  apply andb_true_iff in H as [Hlo Hhi].
  apply Z.leb_le in Hlo, Hhi. apply andb_true_iff.
  split; apply Z.leb_le; Z.to_euclidean_division_equations; lia.
Qed.

(** Halving the number before the last multiplication halves the
    conversion, rounded toward zero. *)
Lemma halved_trunc (f g : spec_float) (p : Z) :
  halved f g -> Pcm.trunc f = Some p -> Pcm.trunc g = Some (Z.quot p 2).
Proof.
  destruct f as [s|s| |s m e]; cbn [halved]; try discriminate.
  - intros -> H. injection H as <-. reflexivity.
  - intros ->. apply trunc_halved.
Qed.

Lemma mul_halved (f g c : spec_float) (m : positive) (e : Z) :
  c = S754_finite false m e ->
  halved f g ->
  match f with S754_finite _ _ ef => -100 <= ef + e | _ => True end ->
  F32.mul f c = S754_nan \/
  (exists s, F32.mul f c = S754_infinity s) \/
  halved (F32.mul f c) (F32.mul g c).
Proof.
  intros -> Hh Hrange. destruct f as [s|s| |s mf ef]; cbn [halved] in Hh.
  - subst g. right. right. reflexivity.
  - right. left. eexists. reflexivity.
  - now left.
  - subst g. unfold F32.mul, F32.prec, F32.emax. cbn [SFmul].
    replace (ef - 1 + e) with (ef + e - 1) by lia.
    pose proof (binary_round_aux_shift (xorb s false) (Z.pos (mf * m))
                  (ef + e) loc_Exact Hrange) as H.
    destruct (binary_round_aux 24 128 (xorb s false) (Z.pos (mf * m))
                (ef + e) loc_Exact) as [s'|s'| |s' m' e'].
    + right. right. exact H.
    + right. left. now eexists.
    + now left.
    + right. right. exact (proj1 H).
Qed.

Lemma mul_exponent (s : bool) (mf m : positive) (ef e : Z) :
  -100 <= ef + e ->
  match F32.mul (S754_finite s mf ef) (S754_finite false m e) with
  | S754_finite _ _ e2 => ef + e <= e2
  | _ => True
  end.
Proof.
  intros Hrange. unfold F32.mul, F32.prec, F32.emax. cbn [SFmul].
  pose proof (binary_round_aux_shift (xorb s false) (Z.pos (mf * m))
                (ef + e) loc_Exact Hrange) as H.
  destruct (binary_round_aux 24 128 (xorb s false) (Z.pos (mf * m))
              (ef + e) loc_Exact); try exact I.
  exact (proj2 H).
Qed.

Lemma valid32_bounds (s : bool) (m : positive) (e : Z) :
  F32.valid (S754_finite s m e) = true -> -149 <= e /\ Z.pos m < 2 ^ 24.
Proof.
  unfold F32.valid, F32.prec, F32.emax. cbn [valid_binary].
  unfold bounded, canonical_mantissa. rewrite fexp32. intros H.
  apply andb_true_iff in H as [Hc _]. apply Z.eqb_eq in Hc.
  split; [lia|].
  destruct (digits2_pos_bounds m) as [_ Hm].
  apply Z.lt_le_trans with (1 := Hm). apply Z.pow_le_mono_r; lia.
Qed.

(** The product at half volume is the product at full volume halved and
    rounded toward zero. *)
Lemma scaled_half (x : spec_float) (p : Z) :
  F32.valid x = true ->
  Pcm.trunc (scaled F64.one x) = Some p ->
  Pcm.trunc (scaled F64.half x) = Some (Z.quot p 2).
Proof.
  unfold scaled.
  change (F32.of_f64 F64.one) with (S754_finite false 8388608 (-23)).
  change (F32.of_f64 F64.half) with (S754_finite false 8388608 (-24)).
  destruct x as [s|s| |s m e]; intros Hvalid Hfull.
  - destruct s; injection Hfull as <-; reflexivity.
  - destruct s; discriminate Hfull.
  - discriminate Hfull.
  - destruct (valid32_bounds s m e Hvalid) as [He Hm].
    assert (Hm23 : Z.pos (m * 8388608) < 2 ^ 47).
    { rewrite Pos2Z.inj_mul. change (2 ^ 47) with (2 ^ 24 * 8388608). lia. }
    destruct (Z_le_gt_dec e (-43)) as [Htiny|Hnormal].
    + (* both products are below one *)
      assert (H1 : small (e + 26)
                (F32.mul (S754_finite s m e) (S754_finite false 8388608 (-23)))).
      { replace (e + 26) with (48 + (e + -23) + 1) by lia.
        apply binary_round_aux_small; try lia.
        all: change (2 ^ 48) with (2 * 2 ^ 47); lia. }
      assert (H2 : small (e + 26)
                (F32.mul (S754_finite s m e) (S754_finite false 8388608 (-24)))).
      { replace (e + 26) with (49 + (e + -24) + 1) by lia.
        apply binary_round_aux_small; try lia.
        all: change (2 ^ 49) with (4 * 2 ^ 47); lia. }
      apply mul_small in H1; [|lia|lia]. apply mul_small in H2; [|lia|lia].
      rewrite (small_trunc_zero _ _ H1) in Hfull by lia.
      injection Hfull as <-.
      rewrite (small_trunc_zero _ _ H2) by lia. reflexivity.
    + (* halving commutes with both roundings *)
      set (one := S754_finite false 8388608 (-23)) in *.
      set (c := F32.of_Z 32767) in *.
      assert (Hy2 : F32.mul (S754_finite s m e)
                      (S754_finite false 8388608 (-24)) =
                    F32.mul (S754_finite s m (e - 1)) one).
      { unfold F32.mul, one. cbn [SFmul]. f_equal. lia. }
      rewrite Hy2.
      pose proof (mul_exponent s m 8388608 e (-23) ltac:(lia)) as Hexp.
      fold one in Hexp.
      destruct (mul_halved (S754_finite s m e) (S754_finite s m (e - 1))
                  one 8388608 (-23) eq_refl eq_refl ltac:(cbn; lia))
        as [Hnan|[[s' Hinf]|Hh]].
      * rewrite Hnan in Hfull. discriminate Hfull.
      * rewrite Hinf in Hfull. discriminate Hfull.
      * destruct (mul_halved _ _ c 16776704 (-9) eq_refl Hh)
          as [Hnan|[[s' Hinf]|Hh2]].
        -- destruct (F32.mul (S754_finite s m e) one); try exact I. lia.
        -- rewrite Hnan in Hfull. discriminate Hfull.
        -- rewrite Hinf in Hfull. discriminate Hfull.
        -- exact (halved_trunc _ _ _ Hh2 Hfull).
Qed.

(** ** Input volume *)

Section Volume.
Variable cast_overflow : spec_float -> Z.
Variable rms_exceeds : list Z -> spec_float -> bool.

Lemma capture_sample_half (x : spec_float) :
  convertible x = true ->
  AudioManager.Recording.capture_sample cast_overflow F64.half x =
    Z.quot
      (AudioManager.Recording.capture_sample cast_overflow F64.one x) 2.
Proof.
  unfold convertible. intros H. apply andb_true_iff in H as [Hvalid H].
  unfold AudioManager.Recording.capture_sample,
    AudioManager.Recording.astype_int16.
  fold (scaled F64.one x). fold (scaled F64.half x).
  destruct (Pcm.trunc (scaled F64.one x)) as [p|] eqn:Hfull;
    [|discriminate H].
  rewrite (scaled_half x p Hvalid Hfull), H, (in_int16_quot p H).
  reflexivity.
Qed.

(** C7, as the code has it. The input volume multiplies each block
    sample before the conversion to [int16], and the conversion rounds
    toward zero. So after [set_volumes(input_volume=0.5)] the callback
    queues, for a block whose samples convert within range, the samples
    it queues at volume 1.0 each halved and rounded toward zero: exactly
    half of an even sample, and half of an odd sample less the lost
    half unit. *)
Theorem half_volume_halves (s : AudioManager.state)
    (indata : list spec_float) (now : spec_float) :
  AudioManager.input_volume s = F64.one ->
  Forall (fun x => convertible x = true) indata ->
  let full :=
    map (AudioManager.Recording.capture_sample cast_overflow
           (AudioManager.input_volume s)) indata in
  let s' := AudioManager.set_volumes s (Some F64.half) None in
  AudioManager.input_queue
    (fst (AudioManager.Recording.audio_callback cast_overflow rms_exceeds
            s indata now)) =
    AudioManager.input_queue s ++ [Pcm.tobytes full] /\
  AudioManager.input_queue
    (fst (AudioManager.Recording.audio_callback cast_overflow rms_exceeds
            s' indata now)) =
    AudioManager.input_queue s
      ++ [Pcm.tobytes (map (fun p => Z.quot p 2) full)].
Proof.
  intros Hvol Hconv. cbv zeta.
  destruct (audio_callback_queue cast_overflow rms_exceeds s indata now)
    as [-> _].
  destruct (audio_callback_queue cast_overflow rms_exceeds
              (AudioManager.set_volumes s (Some F64.half) None) indata now)
    as [-> _].
  split; [reflexivity|]. unfold captured.
  rewrite set_volumes_input, Hvol.
  change (AudioManager.clamp01 F64.half) with F64.half.
  cbn [AudioManager.set_volumes AudioManager.input_queue
       AudioManager.with_input_volume].
  do 2 f_equal. f_equal. rewrite map_map.
  induction Hconv as [|x indata Hx _ IH]; cbn [map]; [reflexivity|].
  now rewrite IH, (capture_sample_half x Hx).
Qed.
End Volume.

Lemma half_volume_halves_witness :
  AudioManager.input_queue
    (fst (AudioManager.Recording.audio_callback (fun _ => 0)
            (fun _ _ => false)
            (AudioManager.set_volumes (AudioManager.init 24000)
               (Some F64.half) None)
            [quiet_sample; one32; minus_half32] F64.zero)) =
    [Pcm.tobytes [Z.quot 3 2; Z.quot 32767 2; Z.quot (-16383) 2]].
Proof.
  apply (half_volume_halves (fun _ => 0) (fun _ _ => false)
           (AudioManager.init 24000) [quiet_sample; one32; minus_half32]
           F64.zero).
  - reflexivity.
  - repeat constructor.
Defined.

(** C7 as stated fails: the sample [2^-13] is queued as 3 at volume 1.0
    and as 1 after [set_volumes(input_volume=0.5)], which is not half
    of 3. *)
Lemma half_volume_not_exact :
  F32.valid quiet_sample = true /\
  AudioManager.Recording.capture_sample (fun _ => 0)
    (AudioManager.input_volume (AudioManager.init 24000)) quiet_sample = 3 /\
  AudioManager.Recording.capture_sample (fun _ => 0)
    (AudioManager.input_volume
       (AudioManager.set_volumes (AudioManager.init 24000)
          (Some F64.half) None)) quiet_sample = 1 /\
  2 * AudioManager.Recording.capture_sample (fun _ => 0)
        (AudioManager.input_volume
           (AudioManager.set_volumes (AudioManager.init 24000)
              (Some F64.half) None)) quiet_sample <>
    AudioManager.Recording.capture_sample (fun _ => 0)
      (AudioManager.input_volume (AudioManager.init 24000)) quiet_sample.
Proof.
  split; [reflexivity|]. split; [reflexivity|].
  split; [reflexivity|]. vm_compute. discriminate.
Qed.

(** * Further properties of the code *)

(** ** The input queue, from the callback to [get_audio_chunk] *)

Lemma get_audio_chunks_drain : forall (q : list Pcm.bytes) s,
  AudioManager.input_queue s = q ->
  AudioEngine.get_audio_chunks (length q) s =
    (map Some q, AudioManager.with_input_queue [] s).
Proof.
  induction q as [|c q IH]; intros s Hq.
  - destruct s; cbn in Hq; subst. reflexivity.
  - cbn [length AudioEngine.get_audio_chunks].
    unfold AudioManager.get_audio_chunk. rewrite Hq.
    rewrite (IH (AudioManager.with_input_queue q s)) by reflexivity.
    destruct s; reflexivity.
Qed.

Lemma get_audio_chunks_app : forall n m s,
  AudioEngine.get_audio_chunks (n + m) s =
    let '(cs, s1) := AudioEngine.get_audio_chunks n s in
    let '(cs', s2) := AudioEngine.get_audio_chunks m s1 in
    (cs ++ cs', s2).
Proof.
  induction n as [|n IH]; intros m s; cbn [Nat.add AudioEngine.get_audio_chunks].
  - destruct (AudioEngine.get_audio_chunks m s). reflexivity.
  - destruct (AudioManager.get_audio_chunk s) as [c s1]. rewrite IH.
    destruct (AudioEngine.get_audio_chunks n s1) as [cs s2].
    destruct (AudioEngine.get_audio_chunks m s2) as [cs' s3]. reflexivity.
Qed.

Lemma get_audio_chunks_empty : forall n s,
  AudioManager.input_queue s = [] ->
  AudioEngine.get_audio_chunks n s = (repeat None n, s).
Proof.
  induction n as [|n IH]; intros s Hq; cbn [AudioEngine.get_audio_chunks repeat].
  - reflexivity.
  - unfold AudioManager.get_audio_chunk. rewrite Hq, (IH s Hq). reflexivity.
Qed.

Section Drain.
Variable cast_overflow : spec_float -> Z.
Variable rms_exceeds : list Z -> spec_float -> bool.

(** X1. The input queue is first in, first out from the capture callback
    to [get_audio_chunk]: after any number of captured blocks, as many
    calls of [get_audio_chunk] as the queue holds items return what was
    queued before followed by every captured block, in capture order, each
    exactly once; the queue is then empty and every further call returns
    [None]. *)
Theorem capture_drain_fifo (s : AudioManager.state)
    (blocks : list (list spec_float * spec_float)) (extra : nat) :
  let s' :=
    fst (AudioManager.Recording.capture cast_overflow rms_exceeds s blocks)
  in
  let queued :=
    AudioManager.input_queue s
      ++ map (fun b =>
                captured cast_overflow (AudioManager.input_volume s) (fst b))
           blocks in
  AudioEngine.get_audio_chunks (length queued + extra) s' =
    (map Some queued ++ repeat None extra,
     AudioManager.with_input_queue [] s').
Proof.
  cbv zeta.
  pose proof (capture_queue cast_overflow rms_exceeds blocks s) as Hq.
  rewrite get_audio_chunks_app, <- Hq.
  rewrite (get_audio_chunks_drain _ _ eq_refl).
  rewrite get_audio_chunks_empty; [reflexivity|].
  destruct (fst _); reflexivity.
Qed.
End Drain.

(** ** Starting, stopping and cleaning up *)

(** X2. [cleanup] leaves the engine with both flags cleared and both
    queues empty, whatever state it was in, and is idempotent: a second
    [cleanup] changes nothing and touches no device or thread. *)
Theorem cleanup_idempotent (s : AudioManager.state) :
  let s1 := fst (AudioEngine.cleanup s) in
  AudioManager.is_recording s1 = false /\
  AudioManager.is_playing s1 = false /\
  queues_empty s1 /\
  AudioEngine.cleanup s1 = (s1, []).
Proof.
  destruct s as [r c k ist ost oth iq oq rec play stop cb iv ov vad sil lst].
  unfold queues_empty.
  destruct rec, play, ist, oth; repeat split; reflexivity.
Qed.

(** X3. A recording that started is undone by [stop_recording]: the
    stream is stopped, then closed, and the engine is idle again with its
    queues and volumes as they were. *)
Theorem start_stop_recording (s : AudioManager.state) :
  idle s = true ->
  let '(s1, t) :=
    AudioManager.stop_recording (AudioEngine.start_recording
                                   AudioEngine.Started s) in
  t = [AudioManager.InputStreamStop; AudioManager.InputStreamClose] /\
  s1 = AudioManager.with_should_stop false s.
Proof.
  destruct s as [r c k ist ost oth iq oq rec play stop cb iv ov vad sil lst].
  destruct rec, play, ist, oth; intros H; try discriminate H.
  split; reflexivity.
Qed.

Lemma start_stop_recording_witness :
  let '(s1, t) :=
    AudioManager.stop_recording
      (AudioEngine.start_recording AudioEngine.Started
         (AudioManager.init 24000)) in
  t = [AudioManager.InputStreamStop; AudioManager.InputStreamClose] /\
  s1 = AudioManager.with_should_stop false (AudioManager.init 24000).
Proof. apply (start_stop_recording (AudioManager.init 24000)). reflexivity. Defined.

(** X4. A stream that was built but failed to start is never released:
    [start_recording] keeps the handle and clears [is_recording], so that
    neither [stop_recording] nor [cleanup] stops or closes it, and the
    handle is still held afterwards. *)
Theorem failed_start_leaks_stream (s : AudioManager.state) :
  AudioManager.is_recording s = false ->
  let s1 := AudioEngine.start_recording AudioEngine.StartFailed s in
  stream_leaked s1 /\
  AudioManager.stop_recording s1 = (s1, []) /\
  (forall e, In e (snd (AudioEngine.cleanup s1)) ->
             e = AudioManager.OutputThreadJoin F64.one) /\
  stream_leaked (fst (AudioEngine.cleanup s1)).
Proof.
  destruct s as [r c k ist ost oth iq oq rec play stop cb iv ov vad sil lst].
  unfold stream_leaked. intros H. change (rec = false) in H. subst rec.
  destruct play, oth; repeat split; try reflexivity;
    intros e He; vm_compute in He;
    first [destruct He as [He|[]]; symmetry; exact He | destruct He].
Qed.

Lemma failed_start_leaks_stream_witness :
  stream_leaked
    (fst (AudioEngine.cleanup
            (AudioEngine.start_recording AudioEngine.StartFailed
               (AudioManager.init 24000)))).
Proof.
  apply (failed_start_leaks_stream (AudioManager.init 24000)). reflexivity.
Defined.

(** ** Playback: what the callback does with the queued samples *)

Lemma samples_of_app (q1 q2 : list Pcm.bytes) :
  samples_of (q1 ++ q2) = samples_of q1 ++ samples_of q2.
Proof. unfold samples_of. apply flat_map_app. Qed.

Lemma fetch_conserves frames : forall (q : list Pcm.bytes) (buffer : list Z),
  Forall whole_samples q ->
  exists buffer1 q1,
    AudioManager.Playback.fetch q buffer frames = Some (buffer1, q1) /\
    buffer1 ++ samples_of q1 = buffer ++ samples_of q /\
    ((length buffer1 < frames)%nat -> q1 = []).
Proof.
  induction q as [|c q IH]; intros buffer Hq;
    cbn [AudioManager.Playback.fetch].
  - exists buffer, []. repeat split; reflexivity.
  - inversion Hq as [|? ? Hc Hq']; subst.
    destruct (Nat.ltb_spec (length buffer) frames) as [Hlt|Hge].
    + destruct (frombuffer_even c Hc) as [a Ha]. rewrite Ha.
      destruct (IH (buffer ++ a) Hq') as (b1 & q1 & Hf & Hs & He).
      exists b1, q1. split; [exact Hf|]. split; [|exact He].
      rewrite Hs, <- app_assoc. cbn [samples_of flat_map]. now rewrite Ha.
    + exists buffer, (c :: q). repeat split; try reflexivity. lia.
Qed.

(** X5. The playback callback neither loses, repeats nor reorders a
    sample. When every queued chunk is a whole number of samples it
    returns normally, and the samples at hand before the call (the
    worker's buffer, then the queue in order) are exactly the samples it
    plays, followed by the buffer and the queue it leaves. It plays either
    [frames] samples, each scaled by the output volume, or none at all
    (silence). *)
Theorem playback_conserves_samples (s : AudioManager.state)
    (buffer : list Z) (frames : nat) :
  Forall whole_samples (AudioManager.output_queue s) ->
  exists out buffer' s' played,
    AudioManager.Playback.audio_callback s buffer frames =
      Some (out, buffer', s') /\
    buffer ++ samples_of (AudioManager.output_queue s) =
      played ++ buffer' ++ samples_of (AudioManager.output_queue s') /\
    ((length played = frames /\
      out = map (AudioManager.Playback.play_sample
                   (AudioManager.output_volume s)) played) \/
     (played = [] /\ out = repeat F32.zero frames /\
      AudioManager.output_queue s' = [])).
Proof.
  intros Hq. unfold AudioManager.Playback.audio_callback.
  destruct (fetch_conserves frames _ buffer Hq) as (b1 & q1 & Hf & Hs & He).
  rewrite Hf.
  destruct (Nat.leb_spec frames (length b1)) as [Hle|Hlt].
  - exists (map (AudioManager.Playback.play_sample
                   (AudioManager.output_volume
                      (AudioManager.with_output_queue q1 s)))
              (firstn frames b1)),
      (skipn frames b1), (AudioManager.with_output_queue q1 s),
      (firstn frames b1).
    split; [reflexivity|]. split.
    + rewrite app_assoc, firstn_skipn, <- Hs. destruct s; reflexivity.
    + left. split; [rewrite length_firstn; lia | destruct s; reflexivity].
  - exists (repeat F32.zero frames), b1,
      (AudioManager.with_output_queue q1 s), [].
    split; [reflexivity|]. split.
    + rewrite <- Hs. destruct s; reflexivity.
    + right. rewrite (He Hlt). repeat split.
Qed.

Lemma playback_conserves_samples_witness :
  exists out buffer' s' played,
    AudioManager.Playback.audio_callback
      (AudioManager.with_output_queue [Pcm.tobytes [1; 2; 3]]
         (AudioManager.init 24000)) [7] 2 =
      Some (out, buffer', s') /\
    [7] ++ samples_of [Pcm.tobytes [1; 2; 3]] =
      played ++ buffer' ++ samples_of (AudioManager.output_queue s') /\
    ((length played = 2%nat /\
      out = map (AudioManager.Playback.play_sample F64.one) played) \/
     (played = [] /\ out = repeat F32.zero 2 /\
      AudioManager.output_queue s' = [])).
Proof.
  apply (playback_conserves_samples
           (AudioManager.with_output_queue [Pcm.tobytes [1; 2; 3]]
              (AudioManager.init 24000)) [7] 2).
  repeat constructor.
Defined.

(** X6. [play_audio_chunk] accepts any bytes, and a chunk with an odd
    number of bytes makes the playback callback raise: once the worker's
    buffer and the whole-sample chunks queued before it hold fewer than
    [frames] samples, the callback reaches the chunk and fails in
    [np.frombuffer]. *)
Theorem odd_chunk_breaks_playback (spawned : bool) (s : AudioManager.state)
    (audio_data : Pcm.bytes) (buffer : list Z) (frames : nat) :
  Forall whole_samples (AudioManager.output_queue s) ->
  (length buffer + length (samples_of (AudioManager.output_queue s))
     < frames)%nat ->
  Nat.odd (length audio_data) = true ->
  AudioManager.Playback.audio_callback
    (AudioEngine.play_audio_chunk spawned audio_data s) buffer frames = None.
Proof.
  intros Hq Hlen Hodd. unfold AudioManager.Playback.audio_callback.
  replace (AudioManager.output_queue
             (AudioEngine.play_audio_chunk spawned audio_data s))
    with (AudioManager.output_queue s ++ [audio_data]).
  - now rewrite (fetch_odd frames audio_data [] _ buffer Hq Hlen Hodd).
  - destruct s as [r c k ist ost oth iq oq rec play stop cb iv ov vad sil lst].
    destruct play, spawned; reflexivity.
Qed.

Lemma odd_chunk_breaks_playback_witness :
  AudioManager.Playback.audio_callback
    (AudioEngine.play_audio_chunk true [Byte.x01; Byte.x00; Byte.x02]
       (AudioManager.init 24000)) [] 1 = None.
Proof.
  apply (odd_chunk_breaks_playback true (AudioManager.init 24000)
           [Byte.x01; Byte.x00; Byte.x02] [] 1).
  - constructor.
  - vm_compute. lia.
  - reflexivity.
Defined.

(** X7. A chunk of [int16] samples handed to [play_audio_chunk] while
    nothing is queued or buffered comes out of the next callback that asks
    for as many frames: the samples in order, each divided by 32767 and
    multiplied by the output volume, nothing left behind; playback is
    started on the way when it was not running. *)
Theorem play_chunk_round_trip (spawned : bool) (s : AudioManager.state)
    (a : list Z) :
  AudioManager.output_queue s = [] ->
  a <> [] ->
  Forall (fun z => Pcm.in_int16 z = true) a ->
  let s1 := AudioEngine.play_audio_chunk spawned (Pcm.tobytes a) s in
  (AudioManager.is_playing s = false ->
   AudioManager.is_playing s1 = spawned) /\
  exists s2,
    AudioManager.Playback.audio_callback s1 [] (length a) =
      Some (map (AudioManager.Playback.play_sample
                   (AudioManager.output_volume s)) a, [], s2) /\
    AudioManager.output_queue s2 = [].
Proof.
  intros Hq Hne Ha. cbv zeta. split.
  - destruct s as [r c k ist ost oth iq oq rec play stop cb iv ov vad sil lst].
    intros H. change (play = false) in H. subst play.
    destruct spawned; reflexivity.
  - unfold AudioManager.Playback.audio_callback.
    replace (AudioManager.output_queue
               (AudioEngine.play_audio_chunk spawned (Pcm.tobytes a) s))
      with [Pcm.tobytes a].
    2:{ destruct s as [r c k ist ost oth iq oq rec play stop cb iv ov vad sil
                       lst].
        change (oq = []) in Hq. subst oq.
        destruct play, spawned; reflexivity. }
    cbn [AudioManager.Playback.fetch length].
    destruct (Nat.ltb_spec 0 (length a)) as [_|Hz];
      [|destruct a; [congruence | cbn in Hz; lia]].
    rewrite (frombuffer_tobytes a Ha). cbn [app AudioManager.Playback.fetch].
    rewrite Nat.leb_refl, firstn_all, skipn_all.
    exists (AudioManager.with_output_queue []
              (AudioEngine.play_audio_chunk spawned (Pcm.tobytes a) s)).
    split; [|reflexivity].
    destruct s as [r c k ist ost oth iq oq rec play stop cb iv ov vad sil lst].
    destruct play, spawned; reflexivity.
Qed.

Lemma play_chunk_round_trip_witness :
  exists s2,
    AudioManager.Playback.audio_callback
      (AudioEngine.play_audio_chunk true (Pcm.tobytes [100; -100])
         (AudioManager.init 24000)) [] 2 =
      Some (map (AudioManager.Playback.play_sample F64.one) [100; -100],
            [], s2) /\
    AudioManager.output_queue s2 = [].
Proof.
  apply (play_chunk_round_trip true (AudioManager.init 24000) [100; -100]).
  - reflexivity.
  - discriminate.
  - repeat constructor.
Defined.

(** ** Voice activity *)

Lemma SFsub_diag (prec emax : Z) (x : spec_float) :
  is_finite x = true -> SFsub prec emax x x = S754_zero false.
Proof.
  destruct x as [[|]| | |sx mx ex]; try discriminate; intros _;
    try reflexivity.
  unfold SFsub. rewrite Z.sub_diag. reflexivity.
Qed.

Section Vad.
Variable cast_overflow : spec_float -> Z.
Variable rms_exceeds : list Z -> spec_float -> bool.

(** X8. Voice activity is stamped by the capture callback and read back by
    [is_speech_detected]: a block whose level exceeds the threshold makes
    [is_speech_detected] true at the time of the block (the silence
    duration being positive, as it always is); a block that does not
    exceed it leaves the time of the last speech as it was. *)
Theorem loud_block_is_speech (s : AudioManager.state)
    (indata : list spec_float) (now : spec_float) :
  is_finite now = true ->
  SFltb F64.zero (AudioManager.silence_duration s) = true ->
  let loud :=
    rms_exceeds
      (map (AudioManager.Recording.capture_sample cast_overflow
              (AudioManager.input_volume s)) indata)
      (AudioManager.vad_threshold s) in
  let s1 :=
    fst (AudioManager.Recording.audio_callback cast_overflow rms_exceeds
           s indata now) in
  if loud then AudioEngine.is_speech_detected now s1 = true
  else AudioManager.last_speech_time s1 = AudioManager.last_speech_time s.
Proof.
  intros Hnow Hsil. cbv zeta.
  unfold AudioManager.Recording.audio_callback, AudioEngine.is_speech_detected.
  destruct (rms_exceeds _ _).
  - destruct s as [r c k ist ost oth iq oq rec play stop cb iv ov vad sil lst].
    change (SFltb (SFsub F64.prec F64.emax now now) sil = true).
    rewrite (SFsub_diag _ _ now Hnow). exact Hsil.
  - destruct s; reflexivity.
Qed.
End Vad.

Lemma loud_block_is_speech_witness :
  AudioEngine.is_speech_detected F64.one
    (fst (AudioManager.Recording.audio_callback (fun _ => 0)
            (fun _ _ => true) (AudioManager.init 24000) [] F64.one)) = true.
Proof.
  apply (loud_block_is_speech (fun _ => 0) (fun _ _ => true)
           (AudioManager.init 24000) [] F64.one); reflexivity.
Defined.

(** ** Requests on the socket *)

Lemma perform_disconnected (b64encode : Pcm.bytes -> string)
    (s : RealtimeClient.state) (r : RealtimeSession.transport * request) :
  RealtimeClient.is_connected s = false ->
  RealtimeClient.websocket s = false ->
  written (snd (perform b64encode s r)) = [] /\
  RealtimeClient.is_connected (fst (perform b64encode s r)) = false /\
  RealtimeClient.websocket (fst (perform b64encode s r)) = false.
Proof.
  destruct s as [ws sid conn rec play proc ot oa oe osc oss ost ie se cv ci cn
                 nv].
  intros Hc Hw. change (conn = false) in Hc. change (ws = false) in Hw.
  subst conn ws. destruct r as [wire r].
  destruct r; try (repeat split; reflexivity).
  destruct oe; repeat split; reflexivity.
Qed.

(** X9. After [disconnect], and until the next [connect], the client
    writes nothing to the socket: whatever requests follow and however the
    transport would behave, no message is sent or attempted, and the
    client stays disconnected with no socket. *)
Theorem disconnected_client_is_silent (b64encode : Pcm.bytes -> string)
    (s : RealtimeClient.state)
    (rs : list (RealtimeSession.transport * request)) :
  let s0 := fst (RealtimeSession.disconnect s) in
  written (snd (perform_all b64encode s0 rs)) = [] /\
  RealtimeSession.usable (fst (perform_all b64encode s0 rs)) = false.
Proof.
  cbv zeta.
  assert (H0 : RealtimeClient.is_connected (fst (RealtimeSession.disconnect s))
               = false /\
               RealtimeClient.websocket (fst (RealtimeSession.disconnect s))
               = false).
  { destruct s as [ws sid conn rec play proc ot oa oe osc oss ost ie se cv ci
                   cn nv].
    destruct ws; split; reflexivity. }
  generalize dependent (fst (RealtimeSession.disconnect s)). clear s.
  induction rs as [|r rs IH]; intros s [Hc Hw]; cbn [perform_all].
  - cbn [fst snd]. unfold RealtimeSession.usable. rewrite Hc.
    split; reflexivity.
  - destruct (perform_disconnected b64encode s r Hc Hw) as (Ht & Hc1 & Hw1).
    destruct (perform b64encode s r) as [s1 t1]. cbn [fst snd] in *.
    specialize (IH s1 (conj Hc1 Hw1)).
    destruct (perform_all b64encode s1 rs) as [s2 t2]. cbn [fst snd] in *.
    unfold written in *. rewrite flat_map_app, Ht. exact IH.
Qed.

(** X10. A text message for a known persona switches the session to it
    before anything else: the first write is the [session.update] with the
    persona's voice and instructions, then the user item, then, if the
    item was written, the [response.create], which carries the persona's
    instructions. The persona is recorded as current whether or not the
    [session.update] went out, and a failed [session.update] does not hold
    the message back. [is_processing] is set exactly when both the item
    and the [response.create] are written: when either write raises it
    stays as it was, and nothing else in the client changes. *)
Theorem text_message_switches_persona (wire : RealtimeSession.transport)
    (s : RealtimeClient.state) (text n : string)
    (c : RealtimeClient.voice_config) :
  RealtimeSession.usable s = true ->
  n <> EmptyString ->
  RealtimeClient.npc_voices s !! n = Some c ->
  let '(s1, t) := RealtimeSession.send_text_message wire s text (Some n) in
  let switched :=
    RealtimeSession.with_current_npc_name n
      (RealtimeSession.with_current_instructions
         (RealtimeClient.instructions c)
         (RealtimeSession.with_current_voice (RealtimeClient.voice c) s)) in
  RealtimeClient.current_voice s1 = RealtimeClient.voice c /\
  RealtimeClient.current_instructions s1 = RealtimeClient.instructions c /\
  RealtimeClient.current_npc_name s1 = n /\
  t =
    attempt (wire 0%nat)
      (RealtimeSession.SessionUpdate (RealtimeClient.voice c)
         (RealtimeClient.instructions c))
    :: match wire 1%nat with
       | Some _ =>
           [RealtimeSession.Failed (RealtimeSession.ConversationItemCreate text)]
       | None =>
           [RealtimeSession.Sent (RealtimeSession.ConversationItemCreate text);
            attempt (wire 2%nat)
              (RealtimeSession.ResponseCreate (RealtimeClient.instructions c))]
       end /\
  s1 =
    match wire 1%nat, wire 2%nat with
    | None, None => RealtimeClient.with_is_processing true switched
    | _, _ => switched
    end /\
  RealtimeClient.is_processing s1 =
    match wire 1%nat, wire 2%nat with
    | None, None => true
    | _, _ => RealtimeClient.is_processing s
    end.
Proof.
  intros Hu Hn Hc. unfold RealtimeSession.send_text_message.
  rewrite Hu. cbn [negb].
  unfold RealtimeSession.persona. rewrite Hc.
  destruct n as [|a n]; [congruence|].
  unfold RealtimeSession.usable in Hu. apply andb_true_iff in Hu as [Hconn Hws].
  unfold RealtimeSession.configure_session. rewrite Hconn. cbn [negb].
  destruct s as [ws sid conn rec play proc ot oa oe osc oss ost ie se cv ci cn
                 nv].
  change (ws = true) in Hws. subst ws.
  change (RealtimeClient.websocket _) with true. cbv iota.
  destruct (wire 0%nat) as [e0|]; destruct (wire 1%nat) as [e1|];
    destruct (wire 2%nat) as [e2|]; repeat split; reflexivity.
Qed.

Lemma text_message_switches_persona_witness :
  let '(s1, t) :=
    RealtimeSession.send_text_message broken_wire connected_client "Hello"
      (Some "CEO") in
  RealtimeClient.current_voice s1 = "echo" /\
  written t =
    [RealtimeSession.SessionUpdate "echo"
       (RealtimeClient.instructions RealtimeClient.voice_CEO);
     RealtimeSession.ConversationItemCreate "Hello"] /\
  RealtimeClient.is_processing s1 = false.
Proof.
  pose proof (text_message_switches_persona broken_wire connected_client
                "Hello" "CEO" RealtimeClient.voice_CEO) as H.
  destruct (RealtimeSession.send_text_message broken_wire connected_client
              "Hello" (Some "CEO")) as [s1 t].
  destruct H as (Hv & _ & _ & Ht & _ & Hp);
    [reflexivity | discriminate | vm_compute; reflexivity |].
  split; [exact Hv|]. split; [rewrite Ht; reflexivity | exact Hp].
Defined.

(** X11. Failures of the text path are silent, those of the audio path
    are reported: whatever the socket does, [send_text_message],
    [interrupt_response] and [configure_session] never call a callback,
    while a write that raises in [send_audio_chunk] or
    [commit_audio_buffer] is handed, with the text of the exception, to the
    error callback when one is registered. *)
Theorem only_audio_failures_are_reported (b64encode : Pcm.bytes -> string)
    (wire : RealtimeSession.transport) (s : RealtimeClient.state) :
  (forall text npc_name,
     notified (snd (RealtimeSession.send_text_message wire s text npc_name))
     = []) /\
  notified (snd (RealtimeSession.interrupt_response wire s)) = [] /\
  (forall k voice instructions npc_name,
     notified
       (snd (RealtimeSession.configure_session wire k s voice instructions
               npc_name)) = []) /\
  (forall e audio_data,
     RealtimeSession.usable s = true ->
     RealtimeClient.on_error_callback s = true ->
     wire 0%nat = Some e ->
     notified
       (snd (RealtimeSession.send_audio_chunk b64encode wire s audio_data)) =
       [RealtimeClient.OnError
          (String.append "Failed to send audio chunk: " e)] /\
     notified (snd (RealtimeSession.commit_audio_buffer wire s)) =
       [RealtimeClient.OnError
          (String.append
             "[COMMIT AUDIO BUFFER] Failed to commit audio buffer: " e)]).
Proof.
  split; [|split; [|split]].
  - intros text npc_name. unfold RealtimeSession.send_text_message.
    destruct (RealtimeSession.usable s); [|reflexivity]. cbn [negb].
    destruct (RealtimeSession.persona s npc_name) as [[n c]|].
    + unfold RealtimeSession.configure_session.
      destruct (RealtimeClient.is_connected s); cbn [negb].
      * destruct (RealtimeClient.websocket _);
          destruct (wire 0%nat); destruct (wire 1%nat);
          destruct (wire 2%nat); reflexivity.
      * destruct (wire 1%nat); destruct (wire 2%nat); reflexivity.
    + destruct (wire 0%nat); destruct (wire 1%nat); reflexivity.
  - unfold RealtimeSession.interrupt_response.
    destruct (RealtimeSession.usable s); [|reflexivity]. cbn [negb].
    destruct (wire 0%nat); reflexivity.
  - intros k voice instructions npc_name.
    unfold RealtimeSession.configure_session.
    destruct (RealtimeClient.is_connected s); [|reflexivity]. cbn [negb].
    destruct (RealtimeClient.websocket _); [|reflexivity].
    destruct (wire k); reflexivity.
  - intros e audio_data Hu Hcb Hw.
    unfold RealtimeSession.send_audio_chunk,
      RealtimeSession.commit_audio_buffer.
    rewrite Hu, Hw, Hcb. split; reflexivity.
Qed.

Lemma only_audio_failures_are_reported_witness :
  notified
    (snd (RealtimeSession.commit_audio_buffer broken_wire connected_client)) =
    [RealtimeClient.OnError
       "[COMMIT AUDIO BUFFER] Failed to commit audio buffer: connection reset"].
Proof.
  destruct (only_audio_failures_are_reported (fun _ => EmptyString)
              broken_wire connected_client) as (_ & _ & _ & H).
  destruct (H "connection reset" [] eq_refl eq_refl eq_refl) as [_ Hcommit].
  exact Hcommit.
Defined.

(** X12. What [set_npc_voice_config] stores, [get_npc_voice_config] and
    [send_text_message] read back: in every client the profile just
    stored under a name is the one returned for that name and the one a
    text message for that persona is configured with. Nothing else in the
    table moves: every other name, whatever the name stored under, keeps
    its entry or stays absent, so that a registered name still gets its
    own profile; an unregistered one gets the fallback, which is as before
    unless the name stored under is ["HR"], when it is the profile just
    stored. *)
Theorem voice_config_round_trip
    (calls : list (string * RealtimeClient.voice_config))
    (n v i sm other : string) :
  let s := configured calls in
  let s' := RealtimeClient.set_npc_voice_config s n v i sm in
  RealtimeClient.get_npc_voice_config s' n =
    Some (RealtimeClient.mk_voice v i sm) /\
  (n <> EmptyString ->
   RealtimeSession.persona s' (Some n) =
     Some (n, RealtimeClient.mk_voice v i sm)) /\
  (other <> n ->
   RealtimeClient.npc_voices s' !! other = RealtimeClient.npc_voices s !! other
   /\
   forall c, RealtimeClient.npc_voices s !! other = Some c ->
             RealtimeClient.get_npc_voice_config s' other = Some c) /\
  (other <> n -> n <> "HR" ->
   RealtimeClient.get_npc_voice_config s' other =
     RealtimeClient.get_npc_voice_config s other) /\
  (n = "HR" -> RealtimeClient.npc_voices s !! other = None ->
   RealtimeClient.get_npc_voice_config s' other =
     Some (RealtimeClient.mk_voice v i sm)).
Proof.
  cbv zeta. destruct (HR_always_registered calls) as [hr Hhr].
  unfold RealtimeClient.get_npc_voice_config, RealtimeSession.persona.
  rewrite !set_npc_voice_config_lookup, Hhr.
  destruct (decide (n = n)) as [_|Hnn]; [|congruence].
  split; [|split; [|split; [|split]]].
  - destruct (decide (n = "HR")); reflexivity.
  - intros Hn. destruct n; [congruence | reflexivity].
  - intros Ho.
    destruct (decide (n = other)) as [|_]; [congruence|].
    split; [reflexivity|]. intros c ->.
    destruct (decide (n = "HR")); reflexivity.
  - intros Ho Hn.
    destruct (decide (n = "HR")) as [|_]; [contradiction|].
    destruct (decide (n = other)) as [|_]; [congruence | reflexivity].
  - intros Hn Hmiss.
    destruct (decide (n = "HR")) as [_|]; [|contradiction].
    destruct (decide (n = other)); [reflexivity|]. now rewrite Hmiss.
Qed.

Lemma voice_config_round_trip_witness :
  RealtimeSession.persona
    (RealtimeClient.set_npc_voice_config (configured []) "Guard" "onyx"
       "You guard the door." "Halt!") (Some "Guard") =
    Some ("Guard", RealtimeClient.mk_voice "onyx" "You guard the door." "Halt!")
  /\
  RealtimeClient.get_npc_voice_config
    (RealtimeClient.set_npc_voice_config (configured []) "HR" "onyx"
       "You guard the door." "Halt!") "Visitor" =
    Some (RealtimeClient.mk_voice "onyx" "You guard the door." "Halt!") /\
  RealtimeClient.get_npc_voice_config
    (RealtimeClient.set_npc_voice_config (configured []) "HR" "onyx"
       "You guard the door." "Halt!") "CEO" =
    Some RealtimeClient.voice_CEO.
Proof.
  split; [|split].
  - destruct (voice_config_round_trip [] "Guard" "onyx" "You guard the door."
                "Halt!" "Visitor") as (_ & H & _).
    apply H. discriminate.
  - destruct (voice_config_round_trip [] "HR" "onyx" "You guard the door."
                "Halt!" "Visitor") as (_ & _ & _ & _ & H).
    apply H; [reflexivity | vm_compute; reflexivity].
  - destruct (voice_config_round_trip [] "HR" "onyx" "You guard the door."
                "Halt!" "CEO") as (_ & _ & H & _).
    destruct H as [_ H]; [discriminate|].
    apply H. vm_compute. reflexivity.
Defined.

(** ** The listener *)

Section Listening.
Variable b64decode : string -> option Pcm.bytes.

Ltac break_matches :=
  repeat match goal with
         | |- context [RealtimeClient.truthy ?x] =>
             destruct (RealtimeClient.truthy x)
         | |- context [b64decode ?x] => destruct (b64decode x)
         | |- context [RealtimeClient.contains ?a ?b] =>
             destruct (RealtimeClient.contains a b)
         end.

Lemma handle_message_keeps (s : RealtimeClient.state)
    (data : RealtimeClient.message) :
  let s1 := fst (RealtimeClient._handle_message b64decode s data) in
  RealtimeClient.websocket s1 = RealtimeClient.websocket s /\
  RealtimeClient.is_connected s1 = RealtimeClient.is_connected s /\
  RealtimeClient.stop_event s1 = RealtimeClient.stop_event s /\
  RealtimeClient.on_text_callback s1 = RealtimeClient.on_text_callback s.
Proof.
  destruct s as [ws sid conn rec play proc ot oa oe osc oss ost ie se cv ci cn
                 nv].
  destruct data;
    unfold RealtimeClient._handle_message, RealtimeClient.text_event;
    break_matches; destruct ot, oa, oe, osc, oss, ost;
    repeat split; reflexivity.
Qed.

Lemma receive_keeps : forall frames (s : RealtimeClient.state),
  let s1 := fst (fst (RealtimeSession.receive b64decode s frames)) in
  RealtimeClient.websocket s1 = RealtimeClient.websocket s /\
  RealtimeClient.is_connected s1 = RealtimeClient.is_connected s /\
  RealtimeClient.stop_event s1 = RealtimeClient.stop_event s /\
  RealtimeClient.on_text_callback s1 = RealtimeClient.on_text_callback s.
Proof.
  induction frames as [|frame frames IH]; intros s; cbv zeta;
    cbn [RealtimeSession.receive].
  - repeat split; reflexivity.
  - destruct (RealtimeClient.stop_event s) eqn:Hse;
      [cbn [fst]; rewrite Hse; repeat split; reflexivity|].
    assert (Hk : exists s1 t1,
               match frame with
               | Some data => RealtimeClient._handle_message b64decode s data
               | None => (s, [])
               end = (s1, t1) /\
               RealtimeClient.websocket s1 = RealtimeClient.websocket s /\
               RealtimeClient.is_connected s1 = RealtimeClient.is_connected s /\
               RealtimeClient.stop_event s1 = RealtimeClient.stop_event s /\
               RealtimeClient.on_text_callback s1 =
                 RealtimeClient.on_text_callback s).
    { destruct frame as [data|].
      - pose proof (handle_message_keeps s data) as H. cbv zeta in H.
        destruct (RealtimeClient._handle_message b64decode s data) as [s1 t1].
        exists s1, t1. split; [reflexivity | exact H].
      - exists s, []. repeat split; reflexivity. }
    destruct Hk as (s1 & t1 & -> & Hw & Hc & Hs & Ht).
    specialize (IH s1). cbv zeta in IH.
    destruct (RealtimeSession.receive b64decode s1 frames) as [[s2 t2] st].
    cbn [fst] in *. destruct IH as (Hw2 & Hc2 & Hs2 & Ht2).
    rewrite Hw2, Hc2, Hs2, Ht2, Hw, Hc, Ht, Hs, Hse. repeat split; reflexivity.
Qed.

Lemma receive_not_stopped : forall frames (s : RealtimeClient.state),
  RealtimeClient.stop_event s = false ->
  snd (RealtimeSession.receive b64decode s frames) = false.
Proof.
  induction frames as [|frame frames IH]; intros s Hse;
    cbn [RealtimeSession.receive]; [reflexivity|].
  rewrite Hse.
  assert (Hk : RealtimeClient.stop_event
                 (fst match frame with
                      | Some data =>
                          RealtimeClient._handle_message b64decode s data
                      | None => (s, [])
                      end) = false).
  { destruct frame as [data|]; [|exact Hse].
    destruct (handle_message_keeps s data) as (_ & _ & H & _).
    now rewrite H. }
  destruct (match frame with
            | Some data => RealtimeClient._handle_message b64decode s data
            | None => (s, [])
            end) as [s1 t1].
  specialize (IH s1 Hk).
  destruct (RealtimeSession.receive b64decode s1 frames) as [[s2 t2] st].
  exact IH.
Qed.

(** X13. The listener never forgets the socket, and it clears
    [is_connected] only when the connection breaks: whatever frames
    arrive, a listener that ends because the peer closed normally leaves
    the client as connected as it was, still holding the socket, so that
    later requests are still written to it. *)
Theorem listener_keeps_socket (s : RealtimeClient.state)
    (frames : list (option RealtimeClient.message))
    (how : RealtimeSession.ending) :
  RealtimeClient.websocket s = true ->
  RealtimeClient.stop_event s = false ->
  let s1 := fst (RealtimeSession._listen_for_messages b64decode s frames how)
  in
  RealtimeClient.websocket s1 = true /\
  RealtimeClient.is_connected s1 =
    match how with
    | RealtimeSession.ConnectionLost => false
    | _ => RealtimeClient.is_connected s
    end /\
  (how = RealtimeSession.ClosedNormally ->
   RealtimeSession.usable s1 = RealtimeSession.usable s).
Proof.
  intros Hws Hse. cbv zeta. unfold RealtimeSession._listen_for_messages.
  rewrite Hws. cbn [negb].
  pose proof (receive_keeps frames s) as Hk. cbv zeta in Hk.
  pose proof (receive_not_stopped frames s Hse) as Hst.
  destruct (RealtimeSession.receive b64decode s frames) as [[s1 t] stopped].
  cbn [fst snd] in *. subst stopped.
  destruct Hk as (Hw1 & Hc1 & _ & _).
  destruct how; cbn [fst]; unfold RealtimeSession.usable.
  - rewrite Hw1, Hc1, Hws. repeat split; reflexivity.
  - split; [|split].
    + rewrite <- Hws, <- Hw1. destruct s1; reflexivity.
    + destruct s1; reflexivity.
    + discriminate.
  - rewrite Hw1, Hc1, Hws. repeat split; discriminate.
Qed.
End Listening.

Lemma listener_keeps_socket_witness :
  RealtimeSession.usable
    (fst (RealtimeSession._listen_for_messages (fun _ => None)
            connected_client [Some RealtimeClient.ResponseDone]
            RealtimeSession.ClosedNormally)) = true.
Proof.
  destruct (listener_keeps_socket (fun _ => None) connected_client
              [Some RealtimeClient.ResponseDone]
              RealtimeSession.ClosedNormally eq_refl eq_refl) as (_ & _ & H).
  rewrite (H eq_refl). reflexivity.
Defined.

(** ** Text of the response *)

Lemma append_cons (c : ascii) (a b : string) :
  String.append (String c a) b = String c (String.append a b).
Proof. reflexivity. Qed.

Lemma append_empty_r (a : string) : String.append a EmptyString = a.
Proof.
  induction a as [|c a IH]; [reflexivity | now rewrite append_cons, IH].
Qed.

Lemma append_associative (a b c : string) :
  String.append (String.append a b) c = String.append a (String.append b c).
Proof.
  induction a as [|x a IH]; [reflexivity | now rewrite !append_cons, IH].
Qed.

Lemma on_text_partial (d : DialogueSystem.state) (text : string) :
  partial_text (DialogueSystem._on_text_received d text false) =
    String.append (partial_text d) text /\
  DialogueSystem.npc_message (DialogueSystem._on_text_received d text false) =
    String.append (partial_text d) text.
Proof. destruct d; split; reflexivity. Qed.

Lemma on_text_complete (d : DialogueSystem.state) (text : string) :
  partial_text (DialogueSystem._on_text_received d text true) =
    partial_text d /\
  DialogueSystem.npc_message (DialogueSystem._on_text_received d text true) =
    text.
Proof. destruct d; split; reflexivity. Qed.

Lemma text_events_partial : forall evs d,
  partial_text (text_events d evs) =
    String.append (partial_text d) (partials evs).
Proof.
  induction evs as [|[text complete] evs IH]; intros d;
    cbn [text_events fold_left partials fst snd].
  - now rewrite append_empty_r.
  - fold (text_events (DialogueSystem._on_text_received d text complete) evs).
    rewrite IH. destruct complete.
    + now rewrite (proj1 (on_text_complete d text)).
    + now rewrite (proj1 (on_text_partial d text)), append_associative.
Qed.

Lemma partials_app (evs evs' : list (string * bool)) :
  partials (evs ++ evs') = String.append (partials evs) (partials evs').
Proof.
  induction evs as [|[text complete] evs IH]; cbn [app partials];
    [reflexivity|].
  destruct complete; [exact IH | now rewrite IH, append_associative].
Qed.

Lemma text_events_last (d : DialogueSystem.state)
    (evs : list (string * bool)) (text : string) :
  DialogueSystem.npc_message (text_events d (evs ++ [(text, true)])) = text /\
  DialogueSystem.npc_message (text_events d (evs ++ [(text, false)])) =
    String.append (partial_text d) (String.append (partials evs) text).
Proof.
  unfold text_events. rewrite !fold_left_app. cbn [fold_left fst snd].
  fold (text_events d evs). split.
  - apply on_text_complete.
  - rewrite (proj2 (on_text_partial _ text)), text_events_partial.
    apply append_associative.
Qed.

(** X14. The text accumulated from partial responses is never reset. Over
    any sequence of text callbacks it is what it was before followed by
    every partial text received since, completed texts left out; a
    completed text only replaces the message shown, and the next partial
    text shows the whole accumulation again, earlier responses
    included. *)
Theorem partial_response_never_reset (d : DialogueSystem.state)
    (evs : list (string * bool)) (text : string) :
  partial_text (text_events d evs) =
    String.append (partial_text d) (partials evs) /\
  DialogueSystem.npc_message (text_events d (evs ++ [(text, true)])) = text /\
  DialogueSystem.npc_message (text_events d (evs ++ [(text, false)])) =
    String.append (partial_text d) (String.append (partials evs) text).
Proof.
  split; [apply text_events_partial | apply text_events_last].
Qed.

Section Streaming.
Variable b64decode : string -> option Pcm.bytes.

Lemma receive_text_deltas : forall ds (s : RealtimeClient.state),
  RealtimeClient.stop_event s = false ->
  RealtimeClient.on_text_callback s = true ->
  Forall (fun d => d <> EmptyString) ds ->
  RealtimeSession.receive b64decode s (text_deltas ds) =
    (s, map (fun d => RealtimeClient.OnText d false) ds, false).
Proof.
  induction ds as [|d ds IH]; intros s Hse Hcb Hds;
    cbn [text_deltas map RealtimeSession.receive]; [reflexivity|].
  inversion Hds as [|? ? Hd Hds']; subst.
  rewrite Hse. fold (text_deltas ds).
  cbn [RealtimeClient._handle_message]. unfold RealtimeClient.text_event.
  destruct d as [|c d]; [congruence|]. cbn [RealtimeClient.truthy].
  rewrite Hcb, (IH s Hse Hcb Hds'). reflexivity.
Qed.

Lemma deliver_text_deltas (spawned : bool) : forall ds d,
  deliver_all spawned d (map (fun t => RealtimeClient.OnText t false) ds) =
    text_events d (map (fun t => (t, false)) ds).
Proof.
  induction ds as [|t ds IH]; intros d; [reflexivity|].
  cbn [map deliver_all text_events fold_left fst snd DialogueSystem.deliver].
  apply IH.
Qed.

Lemma partials_deltas (ds : list string) :
  partials (map (fun t => (t, false)) ds) = joined ds.
Proof.
  induction ds as [|t ds IH]; cbn [map partials joined];
    [reflexivity | now rewrite IH].
Qed.

(** X15. Text streamed by the server reaches the screen in one piece: when
    the listener receives text deltas (none of them empty) on a client
    with the text callback registered, the callbacks it makes leave, in
    the dialogue system, the message made of the text accumulated before
    followed by the deltas joined in arrival order; the client itself is
    unchanged. *)
Theorem streamed_text_is_joined (spawned : bool) (s : RealtimeClient.state)
    (d : DialogueSystem.state) (ds : list string)
    (how : RealtimeSession.ending) :
  RealtimeClient.websocket s = true ->
  RealtimeClient.stop_event s = false ->
  RealtimeClient.on_text_callback s = true ->
  Forall (fun t => t <> EmptyString) ds ->
  ds <> [] ->
  how <> RealtimeSession.ConnectionLost ->
  let '(s1, t) :=
    RealtimeSession._listen_for_messages b64decode s (text_deltas ds) how in
  s1 = s /\
  DialogueSystem.npc_message (deliver_all spawned d t) =
    String.append (partial_text d) (joined ds).
Proof.
  intros Hws Hse Hcb Hds Hne Hhow.
  unfold RealtimeSession._listen_for_messages. rewrite Hws. cbn [negb].
  rewrite (receive_text_deltas ds s Hse Hcb Hds).
  assert (Hmsg : DialogueSystem.npc_message
                   (deliver_all spawned d
                      (map (fun t => RealtimeClient.OnText t false) ds)) =
                 String.append (partial_text d) (joined ds)).
  { rewrite deliver_text_deltas.
    destruct (exists_last Hne) as (ds' & t & ->).
    rewrite map_app. cbn [map].
    rewrite (proj2 (text_events_last d _ t)).
    rewrite <- partials_deltas, map_app, partials_app. cbn [map partials].
    now rewrite append_empty_r. }
  destruct how; try congruence; split; (reflexivity || exact Hmsg).
Qed.
End Streaming.

Lemma streamed_text_is_joined_witness :
  let '(s1, t) :=
    RealtimeSession._listen_for_messages (fun _ => None) connected_client
      (text_deltas ["Hel"; "lo"]) RealtimeSession.Waiting in
  s1 = connected_client /\
  DialogueSystem.npc_message (deliver_all true DialogueSystem.init t) =
    "Hello".
Proof.
  apply (streamed_text_is_joined (fun _ => None) true connected_client
           DialogueSystem.init ["Hel"; "lo"] RealtimeSession.Waiting);
    try reflexivity; try discriminate.
  repeat constructor; discriminate.
Defined.

(** ** Errors and speech mode *)

Section Conversation.
Variable b64decode : string -> option Pcm.bytes.

Lemma deliver_when_off (spawned : bool) (d : DialogueSystem.state)
    (e : RealtimeClient.effect) :
  speech_off d ->
  speech_off (DialogueSystem.deliver spawned d e) /\
  microphone_side (DialogueSystem.deliver spawned d e) = microphone_side d.
Proof.
  unfold speech_off, microphone_side.
  destruct d as [sm se il isp le nm pr ab am]. intros [He Hm].
  change (se = false) in He. change (sm = false) in Hm. subst se sm.
  destruct e as [| | |text complete|data|message| | | |exception];
    try (repeat split; reflexivity).
  - destruct complete; repeat split; reflexivity.
  - destruct data as [|b data]; [repeat split; reflexivity|].
    destruct am as [r c k ist ost oth iq oq rec play stop cb iv ov vad sil
                    lst].
    destruct play, spawned; repeat split; reflexivity.
  - unfold DialogueSystem.deliver, DialogueSystem._on_error.
    destruct (RealtimeClient.contains "buffer too small" _);
      [repeat split; reflexivity|].
    destruct (RealtimeClient.contains "cancellation failed" _);
      repeat split; reflexivity.
Qed.

Lemma deliver_all_when_off (spawned : bool) :
  forall (t : list RealtimeClient.effect) (d : DialogueSystem.state),
  speech_off d ->
  speech_off (deliver_all spawned d t) /\
  microphone_side (deliver_all spawned d t) = microphone_side d.
Proof.
  induction t as [|e t IH]; intros d Hoff; [now split|].
  cbn [deliver_all fold_left].
  destruct (deliver_when_off spawned d e Hoff) as [Hoff1 Hmic1].
  destruct (IH _ Hoff1) as [Hoff2 Hmic2].
  split; [exact Hoff2 | now rewrite <- Hmic1].
Qed.

Lemma happen_when_off (w : DialogueSystem.state * RealtimeClient.state)
    (h : happening) :
  speech_off (fst w) ->
  speech_off (fst (happen b64decode w h)) /\
  microphone_side (fst (happen b64decode w h)) = microphone_side (fst w).
Proof.
  destruct w as [d c]. cbn [fst]. intros Hoff.
  destruct h as [m spawned|env|async_loop|o]; cbn [happen fst snd].
  - destruct (RealtimeClient._handle_message b64decode c m) as [c1 t].
    cbn [fst]. now apply deliver_all_when_off.
  - unfold speech_off, microphone_side in *.
    destruct d as [sm se il isp le nm pr ab am]. destruct Hoff as [He Hm].
    change (se = false) in He. change (sm = false) in Hm. subst se sm.
    repeat split; reflexivity.
  - unfold speech_off, microphone_side in *.
    destruct d as [sm se il isp le nm pr ab am]. destruct Hoff as [He Hm].
    change (se = false) in He. change (sm = false) in Hm. subst se sm.
    destruct am as [r c0 k ist ost oth iq oq rec play stop cb iv ov vad sil
                    lst].
    destruct play, oth; repeat split; reflexivity.
  - unfold speech_off, microphone_side in *.
    destruct d as [sm se il isp le nm pr ab am]. destruct Hoff as [He Hm].
    change (se = false) in He. change (sm = false) in Hm. subst se sm.
    destruct am; repeat split; reflexivity.
Qed.

Lemma conversation_when_off : forall (hs : list happening)
    (w : DialogueSystem.state * RealtimeClient.state),
  speech_off (fst w) ->
  speech_off (fst (conversation b64decode w hs)) /\
  microphone_side (fst (conversation b64decode w hs)) =
    microphone_side (fst w).
Proof.
  induction hs as [|h hs IH]; intros w Hoff; [now split|].
  cbn [conversation fold_left].
  destruct (happen_when_off w h Hoff) as [Hoff1 Hmic1].
  destruct (IH _ Hoff1) as [Hoff2 Hmic2].
  split; [exact Hoff2 | now rewrite <- Hmic1].
Qed.

Lemma error_frame (d : DialogueSystem.state) (c : RealtimeClient.state)
    (message : option string) (spawned : bool) :
  RealtimeClient.on_error_callback c = true ->
  fst (happen b64decode (d, c) (Frame (RealtimeClient.Error message) spawned))
  = if RealtimeClient.contains RealtimeClient.benign
         (RealtimeClient.lower (error_text message))
    then d
    else DialogueSystem._on_error d (error_text message).
Proof.
  intros Hcb. cbn [happen fst snd RealtimeClient._handle_message].
  fold (error_text message). rewrite Hcb.
  destruct (RealtimeClient.contains _ _); reflexivity.
Qed.

(** X16. An error event that is not tolerated switches speech off for the
    rest of the conversation. When the server reports an error whose
    message (lower-cased) contains none of "no active response found",
    "buffer too small" and "cancellation failed", then whatever happens
    afterwards (frames from the server, toggles of speech mode,
    interruptions, volume changes) speech stays disabled and speech mode
    stays off: nothing ever sets [speech_enabled] again. *)
Theorem fatal_error_is_permanent (d : DialogueSystem.state)
    (c : RealtimeClient.state) (message : option string) (spawned : bool)
    (hs : list happening) :
  RealtimeClient.on_error_callback c = true ->
  tolerated (error_text message) = false ->
  speech_off
    (fst (conversation b64decode (d, c)
            (Frame (RealtimeClient.Error message) spawned :: hs))).
Proof.
  intros Hcb Htol. cbn [conversation fold_left].
  apply conversation_when_off. rewrite (error_frame d c message spawned Hcb).
  unfold tolerated in Htol.
  apply orb_false_iff in Htol as [Htol Hc].
  apply orb_false_iff in Htol as [Hb Hs].
  rewrite Hb. unfold DialogueSystem._on_error. rewrite Hs, Hc.
  destruct d; split; reflexivity.
Qed.

(** X17. A tolerated error leaves speech as it is: an error event whose
    message contains one of the three phrases changes neither
    [speech_enabled] nor [speech_mode], and the engine is untouched; one
    that contains "no active response found" does not even reach the
    dialogue system. *)
Theorem tolerated_error_keeps_speech (d : DialogueSystem.state)
    (c : RealtimeClient.state) (message : option string) (spawned : bool) :
  RealtimeClient.on_error_callback c = true ->
  tolerated (error_text message) = true ->
  let d1 :=
    fst (happen b64decode (d, c)
           (Frame (RealtimeClient.Error message) spawned)) in
  DialogueSystem.speech_enabled d1 = DialogueSystem.speech_enabled d /\
  DialogueSystem.speech_mode d1 = DialogueSystem.speech_mode d /\
  DialogueSystem.audio_manager d1 = DialogueSystem.audio_manager d /\
  (RealtimeClient.contains RealtimeClient.benign
     (RealtimeClient.lower (error_text message)) = true -> d1 = d).
Proof.
  intros Hcb Htol. cbv zeta. rewrite (error_frame d c message spawned Hcb).
  unfold tolerated in Htol.
  destruct (RealtimeClient.contains RealtimeClient.benign _);
    [repeat split; reflexivity|].
  unfold DialogueSystem._on_error. cbn [orb] in Htol.
  destruct (RealtimeClient.contains "buffer too small" _);
    [destruct d; repeat split; discriminate|].
  cbn [orb] in Htol. rewrite Htol. destruct d; repeat split; discriminate.
Qed.

(** X18. A fatal error leaves the microphone open. The error handler
    clears [speech_mode] without stopping the engine, and since the toggle
    is refused from then on, no later frame, toggle, interruption or
    volume change stops the recording or closes its stream: the engine
    records as before, and a toggle touches no device. *)
Theorem fatal_error_leaves_microphone_open (d : DialogueSystem.state)
    (c : RealtimeClient.state) (message : option string) (spawned : bool)
    (hs : list happening) (env : DialogueSystem.surroundings) :
  RealtimeClient.on_error_callback c = true ->
  tolerated (error_text message) = false ->
  let w :=
    conversation b64decode (d, c)
      (Frame (RealtimeClient.Error message) spawned :: hs) in
  microphone_side (fst w) = microphone_side d /\
  snd (DialogueSystem.toggle_speech_mode env (snd w) (fst w)) = [].
Proof.
  intros Hcb Htol. cbv zeta. cbn [conversation fold_left].
  assert (Hoff : speech_off
                   (fst (happen b64decode (d, c)
                           (Frame (RealtimeClient.Error message) spawned))) /\
                 microphone_side
                   (fst (happen b64decode (d, c)
                           (Frame (RealtimeClient.Error message) spawned))) =
                 microphone_side d).
  { rewrite (error_frame d c message spawned Hcb).
    unfold tolerated in Htol.
    apply orb_false_iff in Htol as [Htol Hc].
    apply orb_false_iff in Htol as [Hb Hs].
    rewrite Hb. unfold DialogueSystem._on_error. rewrite Hs, Hc.
    destruct d; repeat split; reflexivity. }
  destruct Hoff as [Hoff Hmic].
  destruct (conversation_when_off hs _ Hoff) as [[He Hm] Hmic2].
  split; [now rewrite <- Hmic|].
  unfold DialogueSystem.toggle_speech_mode.
  fold (conversation b64decode
          (happen b64decode (d, c)
             (Frame (RealtimeClient.Error message) spawned)) hs).
  rewrite He. reflexivity.
Qed.
End Conversation.

Lemma fatal_error_is_permanent_witness :
  speech_off
    (fst (conversation (fun _ => None)
            (DialogueSystem.init, connected_client)
            [Frame (RealtimeClient.Error (Some "Rate limit reached")) true;
             ToggleSpeech fair_weather])).
Proof.
  apply (fatal_error_is_permanent (fun _ => None) DialogueSystem.init
           connected_client (Some "Rate limit reached") true
           [ToggleSpeech fair_weather]); reflexivity.
Defined.

Lemma tolerated_error_keeps_speech_witness :
  DialogueSystem.speech_enabled
    (fst (happen (fun _ => None) (DialogueSystem.init, connected_client)
            (Frame (RealtimeClient.Error (Some "Input buffer too small"))
               true))) = true.
Proof.
  destruct (tolerated_error_keeps_speech (fun _ => None) DialogueSystem.init
              connected_client (Some "Input buffer too small") true
              eq_refl eq_refl) as (H & _).
  rewrite H. reflexivity.
Defined.

Lemma fatal_error_leaves_microphone_open_witness :
  snd (DialogueSystem.toggle_speech_mode fair_weather
         (snd (conversation (fun _ => None)
                 (DialogueSystem.init, connected_client)
                 [Frame (RealtimeClient.Error None) true]))
         (fst (conversation (fun _ => None)
                 (DialogueSystem.init, connected_client)
                 [Frame (RealtimeClient.Error None) true]))) = [].
Proof.
  apply (fatal_error_leaves_microphone_open (fun _ => None)
           DialogueSystem.init connected_client None true [] fair_weather);
    reflexivity.
Defined.

(** ** Switching speech mode *)

(** X19. Speech mode switched on and off again leaves the engine at rest.
    From speech enabled and off with an idle engine, with the client
    connected (at once or after the wait) and the microphone, the worker
    and the processing thread starting, the first toggle turns speech mode
    and listening on, starts recording and playback and takes the output
    volume from the overlay, clamped; the second turns them off, stops and
    closes the stream, joins the worker, and leaves the engine idle with
    empty queues. *)
Theorem toggle_on_then_off (env env' : DialogueSystem.surroundings)
    (c c' : RealtimeClient.state) (d : DialogueSystem.state) :
  DialogueSystem.speech_enabled d = true ->
  DialogueSystem.speech_mode d = false ->
  idle (DialogueSystem.audio_manager d) = true ->
  RealtimeClient.is_connected c || DialogueSystem.connected_after env = true ->
  DialogueSystem.microphone env = AudioEngine.Started ->
  DialogueSystem.worker_spawned env = true ->
  DialogueSystem.thread_error env = None ->
  let '(d1, t1) := DialogueSystem.toggle_speech_mode env c d in
  let '(d2, t2) := DialogueSystem.toggle_speech_mode env' c' d1 in
  (DialogueSystem.speech_mode d1 = true /\
   DialogueSystem.is_listening d1 = true /\
   AudioManager.is_recording (DialogueSystem.audio_manager d1) = true /\
   AudioManager.is_playing (DialogueSystem.audio_manager d1) = true /\
   AudioManager.output_volume (DialogueSystem.audio_manager d1) =
     AudioManager.clamp01 (DialogueSystem.overlay_output_volume env) /\
   t1 = []) /\
  (DialogueSystem.speech_mode d2 = false /\
   DialogueSystem.is_listening d2 = false /\
   idle (DialogueSystem.audio_manager d2) = true /\
   queues_empty (DialogueSystem.audio_manager d2) /\
   t2 = [AudioManager.InputStreamStop; AudioManager.InputStreamClose;
         AudioManager.OutputThreadJoin F64.one]).
Proof.
  destruct d as [sm se il isp le nm pr ab am].
  destruct am as [r ch k ist ost oth iq oq rec play stop cb iv ov vad sil lst].
  destruct env as [ca vol mic ws te].
  destruct c as [cws sid conn crec cplay proc ot oa oe osc oss ost' ie se' cv
                 ci cn nv].
  intros He Hm Hidle Hconn Hmic Hws Hte.
  change (se = true) in He. change (sm = false) in Hm.
  change (mic = AudioEngine.Started) in Hmic. change (ws = true) in Hws.
  change (te = None) in Hte. subst se sm mic ws te.
  change (conn || ca = true) in Hconn.
  unfold DialogueSystem.toggle_speech_mode, DialogueSystem._start_speech_mode,
    AudioManager.set_volumes, queues_empty.
  cbn [DialogueSystem.overlay_output_volume].
  generalize (AudioManager.clamp01 vol). intros v.
  destruct rec, play, ist, oth; try discriminate Hidle.
  destruct conn, ca; try discriminate Hconn.
  all: vm_compute.
  all: repeat split.
Qed.

Lemma toggle_on_then_off_witness :
  let '(d1, t1) :=
    DialogueSystem.toggle_speech_mode fair_weather connected_client
      DialogueSystem.init in
  let '(d2, t2) :=
    DialogueSystem.toggle_speech_mode fair_weather connected_client d1 in
  (DialogueSystem.speech_mode d1 = true /\
   DialogueSystem.is_listening d1 = true /\
   AudioManager.is_recording (DialogueSystem.audio_manager d1) = true /\
   AudioManager.is_playing (DialogueSystem.audio_manager d1) = true /\
   AudioManager.output_volume (DialogueSystem.audio_manager d1) =
     AudioManager.clamp01 F64.half /\
   t1 = []) /\
  (DialogueSystem.speech_mode d2 = false /\
   DialogueSystem.is_listening d2 = false /\
   idle (DialogueSystem.audio_manager d2) = true /\
   queues_empty (DialogueSystem.audio_manager d2) /\
   t2 = [AudioManager.InputStreamStop; AudioManager.InputStreamClose;
         AudioManager.OutputThreadJoin F64.one]).
Proof.
  apply (toggle_on_then_off fair_weather fair_weather connected_client
           connected_client DialogueSystem.init); reflexivity.
Defined.

(** X20. A microphone that cannot be opened goes unreported. When the
    stream cannot be built or started, [start_recording] swallows the
    exception, so that switching speech mode on succeeds all the same:
    speech mode and listening are on, no error message is set, and the
    engine is not recording. *)
Theorem microphone_failure_unreported (env : DialogueSystem.surroundings)
    (c : RealtimeClient.state) (d : DialogueSystem.state) :
  DialogueSystem.speech_enabled d = true ->
  DialogueSystem.speech_mode d = false ->
  AudioManager.is_recording (DialogueSystem.audio_manager d) = false ->
  RealtimeClient.is_connected c = true ->
  DialogueSystem.microphone env <> AudioEngine.Started ->
  DialogueSystem.thread_error env = None ->
  let d1 := fst (DialogueSystem.toggle_speech_mode env c d) in
  DialogueSystem.speech_mode d1 = true /\
  DialogueSystem.is_listening d1 = true /\
  DialogueSystem.last_error_message d1 = DialogueSystem.last_error_message d /\
  AudioManager.is_recording (DialogueSystem.audio_manager d1) = false.
Proof.
  destruct d as [sm se il isp le nm pr ab am].
  destruct am as [r ch k ist ost oth iq oq rec play stop cb iv ov vad sil lst].
  destruct env as [ca vol mic ws te].
  destruct c as [cws sid conn crec cplay proc ot oa oe osc oss ost' ie se' cv
                 ci cn nv].
  intros He Hm Hrec Hconn Hmic Hte.
  change (se = true) in He. change (sm = false) in Hm.
  change (rec = false) in Hrec. change (te = None) in Hte.
  change (mic <> AudioEngine.Started) in Hmic.
  change (conn = true) in Hconn. subst se sm rec te conn.
  cbv zeta.
  unfold DialogueSystem.toggle_speech_mode, DialogueSystem._start_speech_mode,
    AudioManager.set_volumes.
  cbn [DialogueSystem.overlay_output_volume].
  generalize (AudioManager.clamp01 vol). intros v.
  destruct mic; try congruence; destruct play, ws; vm_compute; repeat split.
Qed.

Lemma microphone_failure_unreported_witness :
  let d1 :=
    fst (DialogueSystem.toggle_speech_mode no_microphone connected_client
           DialogueSystem.init) in
  DialogueSystem.speech_mode d1 = true /\
  DialogueSystem.is_listening d1 = true /\
  DialogueSystem.last_error_message d1 = None /\
  AudioManager.is_recording (DialogueSystem.audio_manager d1) = false.
Proof.
  apply (microphone_failure_unreported no_microphone connected_client
           DialogueSystem.init); try reflexivity. discriminate.
Defined.

(** ** Audio in and out of the dialogue system *)

Lemma clip_amplified (x : Z) : Dialogue.clip_int16 (5 * x) = amplified x.
Proof.
  unfold Dialogue.clip_int16, amplified, Pcm.int16_min, Pcm.int16_max.
  destruct (Z.ltb_spec 6553 x); [lia|].
  destruct (Z.ltb_spec x (-6553)); lia.
Qed.

(** Twelve items drain at once at 24 kHz: eleven stay below the minimum
    duration, the twelfth reaches it and everything is sent in one piece. *)
Lemma twelve_items_drain (items : list (list Z)) :
  length items = 12%nat ->
  concat items <> [] ->
  Dialogue._process_audio_input 24000
    (map (fun a => Dialogue.Got a true) items) =
    Some (Dialogue.empty,
          [Dialogue.SendAudioChunk
             (Pcm.tobytes (map Dialogue.clip_int16 (concat items)));
           Dialogue.CommitAudioBuffer]).
Proof.
  intros Hlen Hne.
  do 12 (destruct items as [|? items]; [discriminate Hlen|]).
  destruct items; [|discriminate Hlen]. clear Hlen.
  unfold Dialogue._process_audio_input. change (24000 =? 0) with false.
  cbv iota. rewrite chunk_duration_24k. apply (f_equal Some). cbn [map].
  etransitivity.
  { do 11 (eapply iterations_cons;
           [apply iteration_below; vm_compute; reflexivity|]).
    eapply iterations_cons;
      [apply iteration_commit; [vm_compute; reflexivity|] | reflexivity].
    cbn [Dialogue.accumulated_audio Dialogue.empty app].
    destruct (concat _) eqn:E; [congruence | cbn; lia]. }
  reflexivity.
Qed.

Section Gain.
Variable rms_below : list Z -> bool.

Lemma audio_inputs_accepted : forall (blocks : list (list Z))
    (d : DialogueSystem.state),
  Forall (Forall (fun z => Pcm.in_int16 z = true)) blocks ->
  Forall (fun a => rms_below (map (Z.mul DialogueSystem.audio_gain) a) = false)
    blocks ->
  audio_inputs rms_below d (map Pcm.tobytes blocks) =
    Some (DialogueSystem.with_audio_buffer
            (DialogueSystem.audio_buffer d
               ++ map (map (Z.mul DialogueSystem.audio_gain)) blocks) d).
Proof.
  induction blocks as [|a blocks IH]; intros d Hin Hrms; cbn [map audio_inputs].
  - rewrite app_nil_r. destruct d; reflexivity.
  - inversion Hin as [|? ? Ha Hin']; subst.
    inversion Hrms as [|? ? Hr Hrms']; subst.
    unfold DialogueSystem._on_audio_input.
    rewrite (frombuffer_tobytes a Ha), Hr, (IH _ Hin' Hrms').
    destruct d; cbn [DialogueSystem.audio_buffer
                     DialogueSystem.with_audio_buffer].
    now rewrite <- app_assoc.
Qed.

(** X21. The gain of five saturates what the client is sent. Twelve
    captured blocks of [int16] samples, none discarded and not all empty,
    reach the audio buffer in order with every sample multiplied by five;
    at the program's rate of 24 kHz the loop, given these twelve items with
    the client ready, drains them in one piece on the twelfth: a single
    [send_audio_chunk] followed by [commit_audio_buffer], in which every
    captured sample is sent as 32767 above 6553, as -32768 below -6553 and
    as five times its value in between. *)
Theorem amplified_block_saturates (d : DialogueSystem.state)
    (blocks : list (list Z)) :
  DialogueSystem.audio_buffer d = [] ->
  length blocks = 12%nat ->
  Forall (Forall (fun z => Pcm.in_int16 z = true)) blocks ->
  Forall (fun a => rms_below (map (Z.mul DialogueSystem.audio_gain) a) = false)
    blocks ->
  concat blocks <> [] ->
  exists d1,
    audio_inputs rms_below d (map Pcm.tobytes blocks) = Some d1 /\
    DialogueSystem.audio_buffer d1 =
      map (map (Z.mul DialogueSystem.audio_gain)) blocks /\
    Dialogue._process_audio_input 24000
      (map (fun a => Dialogue.Got a true) (DialogueSystem.audio_buffer d1)) =
      Some (Dialogue.empty,
            [Dialogue.SendAudioChunk
               (Pcm.tobytes (map amplified (concat blocks)));
             Dialogue.CommitAudioBuffer]).
Proof.
  intros Hbuf Hlen Hin Hrms Hne.
  eexists. split; [apply (audio_inputs_accepted blocks d Hin Hrms)|].
  assert (Hq : DialogueSystem.audio_buffer
                 (DialogueSystem.with_audio_buffer
                    (DialogueSystem.audio_buffer d
                       ++ map (map (Z.mul DialogueSystem.audio_gain)) blocks)
                    d) =
               map (map (Z.mul DialogueSystem.audio_gain)) blocks)
    by (rewrite Hbuf; destruct d; reflexivity).
  split; [exact Hq|]. rewrite Hq.
  assert (Hcat : concat (map (map (Z.mul DialogueSystem.audio_gain)) blocks) =
                 map (Z.mul DialogueSystem.audio_gain) (concat blocks))
    by (symmetry; apply concat_map).
  rewrite twelve_items_drain.
  - rewrite Hcat, map_map.
    rewrite (map_ext _ amplified) by (intros z; apply clip_amplified).
    reflexivity.
  - now rewrite length_map.
  - rewrite Hcat. destruct (concat blocks); [congruence | discriminate].
Qed.
End Gain.

Lemma amplified_block_saturates_witness :
  exists d1,
    audio_inputs (fun _ => false) DialogueSystem.init
      (map Pcm.tobytes twelve_blocks) = Some d1 /\
    DialogueSystem.audio_buffer d1 =
      map (map (Z.mul DialogueSystem.audio_gain)) twelve_blocks /\
    Dialogue._process_audio_input 24000
      (map (fun a => Dialogue.Got a true) (DialogueSystem.audio_buffer d1)) =
      Some (Dialogue.empty,
            [Dialogue.SendAudioChunk
               (Pcm.tobytes (map amplified (concat twelve_blocks)));
             Dialogue.CommitAudioBuffer]).
Proof.
  apply (amplified_block_saturates (fun _ => false) DialogueSystem.init
           twelve_blocks); try reflexivity.
  - repeat constructor.
  - repeat constructor.
  - discriminate.
Defined.

Section LateAudio.
Variable b64decode : string -> option Pcm.bytes.

(** X22. An interruption does not stop audio that is still arriving.
    [interrupt_speech] stops playback, empties the queues and clears
    [is_speaking] and the client's [is_playing]; the next audio delta the
    server sends sets both flags again, restarts playback and is queued
    for output. *)
Theorem audio_after_interrupt_plays (async_loop : bool)
    (d : DialogueSystem.state) (c : RealtimeClient.state)
    (delta : string) (audio : Pcm.bytes) :
  RealtimeClient.on_audio_callback c = true ->
  delta <> EmptyString ->
  b64decode delta = Some audio ->
  audio <> [] ->
  let '(d1, c1, _, _) := DialogueSystem.interrupt_speech async_loop d c in
  let w :=
    happen b64decode (d1, c1)
      (Frame (RealtimeClient.ResponseAudioDelta (Some delta)) true) in
  (DialogueSystem.is_speaking d1 = false /\
   RealtimeClient.is_playing c1 = false /\
   AudioManager.is_playing (DialogueSystem.audio_manager d1) = false) /\
  (DialogueSystem.is_speaking (fst w) = true /\
   RealtimeClient.is_playing (snd w) = true /\
   AudioManager.is_playing (DialogueSystem.audio_manager (fst w)) = true /\
   AudioManager.output_queue (DialogueSystem.audio_manager (fst w)) =
     [audio]).
Proof.
  intros Hcb Hdelta Hdec Haudio.
  destruct d as [sm se il isp le nm pr ab am].
  destruct am as [r ch k ist ost oth iq oq rec play stop cb iv ov vad sil lst].
  destruct c as [ws sid conn crec cplay proc ot oa oe osc oss ost' ie se' cv
                 ci cn nv].
  change (oa = true) in Hcb. subst oa.
  destruct delta as [|ch0 delta]; [congruence|].
  destruct audio as [|b audio]; [congruence|].
  unfold DialogueSystem.interrupt_speech.
  destruct play, oth;
    (split; [repeat split; reflexivity|]);
    cbv zeta; cbn [happen RealtimeClient._handle_message fst snd];
    unfold RealtimeClient.truthy;
    change (RealtimeClient.on_audio_callback _) with true; cbv iota;
    rewrite Hdec; repeat split; reflexivity.
Qed.
End LateAudio.

Lemma audio_after_interrupt_plays_witness :
  let '(d1, c1, _, _) :=
    DialogueSystem.interrupt_speech true DialogueSystem.init connected_client
  in
  let w :=
    happen (fun _ => Some [Byte.x01; Byte.x00]) (d1, c1)
      (Frame (RealtimeClient.ResponseAudioDelta (Some "AQA=")) true) in
  (DialogueSystem.is_speaking d1 = false /\
   RealtimeClient.is_playing c1 = false /\
   AudioManager.is_playing (DialogueSystem.audio_manager d1) = false) /\
  (DialogueSystem.is_speaking (fst w) = true /\
   RealtimeClient.is_playing (snd w) = true /\
   AudioManager.is_playing (DialogueSystem.audio_manager (fst w)) = true /\
   AudioManager.output_queue (DialogueSystem.audio_manager (fst w)) =
     [[Byte.x01; Byte.x00]]).
Proof.
  apply (audio_after_interrupt_plays (fun _ => Some [Byte.x01; Byte.x00])
           true DialogueSystem.init connected_client "AQA="
           [Byte.x01; Byte.x00]); try reflexivity; discriminate.
Defined.

(** ** The volume sliders *)

Lemma slider_value_cases (lx : Z) :
  let q := F64.div (F64.of_Z (lx - 180)) (F64.of_Z 200) in
  SettingsOverlay.slider_value lx =
    if SFltb F64.zero q
    then if SFltb q F64.one then q else F64.one
    else F64.zero.
Proof.
  cbv zeta. unfold SettingsOverlay.slider_value, py_min, py_max.
  destruct (SFltb F64.zero _); reflexivity.
Qed.

Lemma slider_value_clamped (lx : Z) :
  F64.between F64.zero F64.one (SettingsOverlay.slider_value lx) = true /\
  AudioManager.clamp01 (SettingsOverlay.slider_value lx) =
    SettingsOverlay.slider_value lx.
Proof.
  rewrite slider_value_cases. cbv zeta.
  generalize (F64.div (F64.of_Z (lx - 180)) (F64.of_Z 200)). intros q.
  rewrite clamp01_cases. unfold F64.between.
  destruct (SFltb F64.zero q) eqn:Hlo; [|split; reflexivity].
  destruct (SFltb q F64.one) eqn:Hhi; [|split; reflexivity].
  rewrite Hhi, Hlo, (SFltb_SFleb _ _ Hlo), (SFltb_SFleb _ _ Hhi).
  split; reflexivity.
Qed.

(** X23. A volume picked on a slider is stored as picked. Wherever the
    mouse is, on the track or dragged beyond its ends, the value the
    overlay computes lies in [0.0, 1.0], so that the clamping of
    [set_volumes] never changes it: after the synchronisation of
    [handle_input] the engine holds exactly the overlay's value for the
    slider that moved, and the other slider of the overlay is untouched. *)
Theorem slider_volume_stored_exactly (o : SettingsOverlay.state) (lx : Z)
    (which : SettingsOverlay.slider) (d : DialogueSystem.state) :
  let o' := SettingsOverlay._set_volume_from_mouse o lx which in
  let am :=
    DialogueSystem.audio_manager (DialogueSystem.handle_input_overlay o' d) in
  F64.between F64.zero F64.one (SettingsOverlay.slider_value lx) = true /\
  match which with
  | SettingsOverlay.Input =>
      AudioManager.input_volume am = SettingsOverlay.slider_value lx /\
      SettingsOverlay.input_volume o' = SettingsOverlay.slider_value lx /\
      SettingsOverlay.output_volume o' = SettingsOverlay.output_volume o
  | SettingsOverlay.Output =>
      AudioManager.output_volume am = SettingsOverlay.slider_value lx /\
      SettingsOverlay.output_volume o' = SettingsOverlay.slider_value lx /\
      SettingsOverlay.input_volume o' = SettingsOverlay.input_volume o
  end.
Proof.
  cbv zeta. destruct (slider_value_clamped lx) as [Hrange Hclamp].
  split; [exact Hrange|].
  destruct d as [sm se il isp le nm pr ab am].
  destruct am as [r ch k ist ost oth iq oq rec play stop cb iv ov vad sil lst].
  destruct o as [oi oo].
  destruct which; (split; [|split; reflexivity]);
    change (AudioManager.clamp01 (SettingsOverlay.slider_value lx) =
            SettingsOverlay.slider_value lx); exact Hclamp.
Qed.

Lemma binary_round_aux_sign (prec emax : Z) (sx : bool) (mx ex : Z)
    (lx : location) :
  match binary_round_aux prec emax sx mx ex lx with
  | S754_zero s | S754_infinity s | S754_finite s _ _ => s = sx
  | S754_nan => True
  end.
Proof.
  unfold binary_round_aux.
  destruct (shr_fexp prec emax mx ex lx) as [mrs' e'].
  destruct (shr_fexp prec emax _ e' loc_Exact) as [mrs'' e''].
  destruct (shr_m mrs''); [reflexivity | | exact I].
  destruct (e'' <=? emax - prec); reflexivity.
Qed.

Lemma of_Z_negative_sign (p : positive) :
  match F64.of_Z (Z.neg p) with
  | S754_zero s | S754_infinity s | S754_finite s _ _ => s = true
  | S754_nan => True
  end.
Proof.
  unfold F64.of_Z, binary_normalize, binary_round.
  destruct (shl_align p 0 _) as [mz ez]. apply binary_round_aux_sign.
Qed.

Lemma SFdiv_negative_sign (x : spec_float) (m : positive) (e : Z) :
  match x with
  | S754_zero s | S754_infinity s | S754_finite s _ _ => s = true
  | S754_nan => True
  end ->
  SFltb F64.zero (F64.div x (S754_finite false m e)) = false.
Proof.
  unfold F64.div, SFdiv.
  destruct x as [s|s| |s mx ex]; intros Hs; try subst s; try reflexivity.
  destruct (SFdiv_core_binary _ _ _ _ _ _) as [[mz ez] lz].
  pose proof (binary_round_aux_sign F64.prec F64.emax (xorb true false)
                mz ez lz) as H.
  destruct (binary_round_aux _ _ _ _ _ _) as [s|s| |s mr er];
    try (cbn [xorb] in H; subst s); reflexivity.
Qed.

(** X24. Dragging a slider to the left end of its track or beyond gives
    exactly 0.0: for every position at or left of the start of the track
    the overlay's value is [+0.0], and so is the engine's volume after the
    synchronisation. *)
Theorem slider_left_of_track_is_zero (o : SettingsOverlay.state) (lx : Z)
    (d : DialogueSystem.state) :
  lx <= 180 ->
  SettingsOverlay.slider_value lx = F64.zero /\
  AudioManager.output_volume
    (DialogueSystem.audio_manager
       (DialogueSystem.handle_input_overlay
          (SettingsOverlay._set_volume_from_mouse o lx SettingsOverlay.Output)
          d)) = F64.zero.
Proof.
  intros Hlx.
  assert (Hz : SettingsOverlay.slider_value lx = F64.zero).
  { rewrite slider_value_cases. cbv zeta.
    assert (H200 : F64.of_Z 200 = S754_finite false 7036874417766400 (-45))
      by (vm_compute; reflexivity).
    rewrite H200.
    destruct (lx - 180) as [|p|p] eqn:Hn; [| lia |].
    - reflexivity.
    - now rewrite (SFdiv_negative_sign _ _ _ (of_Z_negative_sign p)). }
  split; [exact Hz|].
  destruct d as [sm se il isp le nm pr ab am].
  destruct am as [r ch k ist ost oth iq oq rec play stop cb iv ov vad sil lst].
  destruct o as [oi oo].
  change (AudioManager.clamp01 (SettingsOverlay.slider_value lx) = F64.zero).
  rewrite Hz. reflexivity.
Qed.

Lemma slider_left_of_track_is_zero_witness :
  SettingsOverlay.slider_value 100 = F64.zero.
Proof.
  apply (slider_left_of_track_is_zero SettingsOverlay.init 100
           DialogueSystem.init). lia.
Defined.

(** ** Choice of the microphone *)

Lemma first_from_some (wanted : AudioUtils.device -> bool) :
  forall devices k idx,
  AudioUtils.first_from wanted k devices = Some idx ->
  exists j dev,
    idx = (k + j)%nat /\ nth_error devices j = Some dev /\
    wanted dev = true /\
    forall i dev', (i < j)%nat -> nth_error devices i = Some dev' ->
                   wanted dev' = false.
Proof.
  induction devices as [|dev devices IH]; intros k idx H;
    cbn [AudioUtils.first_from] in H; [discriminate|].
  destruct (wanted dev) eqn:Hw.
  - injection H as <-. exists 0%nat, dev.
    repeat split; [lia | exact Hw | intros i dev' Hi; lia].
  - destruct (IH _ _ H) as (j & dev1 & -> & Hnth & Hw1 & Hbefore).
    exists (S j), dev1. repeat split; [lia | exact Hnth | exact Hw1 |].
    intros [|i] dev' Hi Hd; cbn in Hd.
    + now injection Hd as <-.
    + apply (Hbefore i); [lia | exact Hd].
Qed.

Lemma first_from_none (wanted : AudioUtils.device -> bool) :
  forall devices k,
  AudioUtils.first_from wanted k devices = None <->
  Forall (fun dev => wanted dev = false) devices.
Proof.
  induction devices as [|dev devices IH]; intros k;
    cbn [AudioUtils.first_from]; [split; [constructor | reflexivity]|].
  destruct (wanted dev) eqn:Hw; split; intros H.
  - discriminate.
  - inversion H; congruence.
  - constructor; [exact Hw | now apply (IH (S k))].
  - inversion H; subst. now apply IH.
Qed.

Lemma input_devices_from_in : forall devices k j dev,
  nth_error devices j = Some dev ->
  AudioUtils.is_input dev = true ->
  In ((k + j)%nat, AudioUtils.name dev)
     (AudioUtils.input_devices_from k devices).
Proof.
  induction devices as [|d devices IH]; intros k j dev Hnth Hin;
    [destruct j; discriminate|].
  cbn [AudioUtils.input_devices_from].
  destruct j as [|j]; cbn in Hnth.
  - injection Hnth as ->. rewrite Hin, Nat.add_0_r. now left.
  - replace (k + S j)%nat with (S k + j)%nat by lia.
    destruct (AudioUtils.is_input d); [right|]; now apply IH.
Qed.

Lemma input_devices_from_nil : forall devices k,
  AudioUtils.input_devices_from k devices = [] <->
  Forall (fun dev => AudioUtils.is_input dev = false) devices.
Proof.
  induction devices as [|d devices IH]; intros k;
    cbn [AudioUtils.input_devices_from]; [split; [constructor | reflexivity]|].
  destruct (AudioUtils.is_input d) eqn:Hd; split; intros H.
  - discriminate.
  - inversion H; congruence.
  - constructor; [exact Hd | now apply (IH (S k))].
  - inversion H; subst. now apply IH.
Qed.

Lemma prefix_of_append : forall a b h : string,
  String.prefix (String.append a b) h = true -> String.prefix a h = true.
Proof.
  induction a as [|c a IH]; intros b h H; [destruct h; reflexivity|].
  rewrite append_cons in H. destruct h as [|c' h]; cbn in *; [discriminate|].
  destruct (Ascii.ascii_dec c c'); [now apply (IH b) | discriminate].
Qed.

Lemma contains_of_append (a b : string) : forall h : string,
  RealtimeClient.contains (String.append a b) h = true ->
  RealtimeClient.contains a h = true.
Proof.
  induction h as [|c h IH]; cbn [RealtimeClient.contains]; intros H.
  - destruct (String.prefix (String.append a b) EmptyString) eqn:Hp;
      [|discriminate].
    now rewrite (prefix_of_append _ _ _ Hp).
  - destruct (String.prefix (String.append a b) (String c h)) eqn:Hp.
    + now rewrite (prefix_of_append _ _ _ Hp).
    + destruct (String.prefix a (String c h)); [reflexivity | now apply IH].
Qed.

Lemma named_microphone_mic (dev : AudioUtils.device) :
  AudioUtils.named_microphone dev =
    RealtimeClient.contains "mic"
      (RealtimeClient.lower (AudioUtils.name dev)).
Proof.
  unfold AudioUtils.named_microphone.
  destruct (RealtimeClient.contains "mic" _) eqn:Hmic; [reflexivity|].
  destruct (RealtimeClient.contains "microphone" _) eqn:Hlong; [|reflexivity].
  change "microphone" with (String.append "mic" "rophone") in Hlong.
  apply contains_of_append in Hlong. congruence.
Qed.

(** X25. The device chosen is an input device of the list shown to the
    player: when [get_first_microphone_device] returns an index, the
    device at that index has input channels, and the index appears, with
    the device's name, in [list_input_devices]. *)
Theorem first_microphone_is_listed (devices : list AudioUtils.device)
    (idx : nat) :
  AudioUtils.get_first_microphone_device devices = Some idx ->
  exists dev,
    nth_error devices idx = Some dev /\
    AudioUtils.is_input dev = true /\
    In (idx, AudioUtils.name dev) (AudioUtils.list_input_devices devices).
Proof.
  unfold AudioUtils.get_first_microphone_device. intros H.
  destruct (AudioUtils.first_from _ 0 devices) as [i|] eqn:Hnamed.
  - injection H as <-.
    destruct (first_from_some _ _ _ _ Hnamed) as (j & dev & -> & Hnth & Hw & _).
    apply andb_true_iff in Hw as [Hin _]. exists dev.
    repeat split; [exact Hnth | exact Hin |].
    now apply (input_devices_from_in devices 0 j dev).
  - destruct (first_from_some _ _ _ _ H) as (j & dev & -> & Hnth & Hin & _).
    exists dev. repeat split; [exact Hnth | exact Hin |].
    now apply (input_devices_from_in devices 0 j dev).
Qed.

Lemma first_microphone_is_listed_witness :
  exists dev,
    nth_error [AudioUtils.mk_device "Speakers" 0;
               AudioUtils.mk_device "Line In" 2;
               AudioUtils.mk_device "USB Microphone" 1] 2 = Some dev /\
    AudioUtils.is_input dev = true /\
    In (2%nat, AudioUtils.name dev)
       (AudioUtils.list_input_devices
          [AudioUtils.mk_device "Speakers" 0;
           AudioUtils.mk_device "Line In" 2;
           AudioUtils.mk_device "USB Microphone" 1]).
Proof.
  apply (first_microphone_is_listed
           [AudioUtils.mk_device "Speakers" 0;
            AudioUtils.mk_device "Line In" 2;
            AudioUtils.mk_device "USB Microphone" 1] 2).
  vm_compute. reflexivity.
Defined.

(** X26. No microphone is found exactly when there is no input device at
    all: [get_first_microphone_device] returns [None] if and only if
    [list_input_devices] is empty. *)
Theorem no_microphone_iff_no_input (devices : list AudioUtils.device) :
  AudioUtils.get_first_microphone_device devices = None <->
  AudioUtils.list_input_devices devices = [].
Proof.
  unfold AudioUtils.get_first_microphone_device, AudioUtils.list_input_devices.
  rewrite input_devices_from_nil.
  destruct (AudioUtils.first_from _ 0 devices) as [i|] eqn:Hnamed.
  - split; [discriminate|]. intros Hnone.
    destruct (first_from_some _ _ _ _ Hnamed) as (j & dev & _ & Hnth & Hw & _).
    apply andb_true_iff in Hw as [Hin _].
    apply nth_error_In in Hnth.
    rewrite List.Forall_forall in Hnone. rewrite (Hnone _ Hnth) in Hin.
    discriminate.
  - apply first_from_none.
Qed.

Lemma no_microphone_iff_no_input_witness :
  AudioUtils.get_first_microphone_device
    [AudioUtils.mk_device "Speakers" 0; AudioUtils.mk_device "HDMI" 0] = None.
Proof.
  apply (proj2 (no_microphone_iff_no_input
                  [AudioUtils.mk_device "Speakers" 0;
                   AudioUtils.mk_device "HDMI" 0])).
  reflexivity.
Defined.

(** X27. A device named as a microphone is preferred, and the test for
    "microphone" adds nothing to the test for "mic". The device chosen is
    the first input device whose lower-cased name contains "mic" when
    there is one, whatever input devices come before it; only when there
    is none is it the first input device. *)
Theorem named_microphone_preferred (devices : list AudioUtils.device)
    (idx : nat) (dev : AudioUtils.device) :
  AudioUtils.get_first_microphone_device devices = Some idx ->
  nth_error devices idx = Some dev ->
  let mic d :=
    AudioUtils.is_input d
    && RealtimeClient.contains "mic"
         (RealtimeClient.lower (AudioUtils.name d)) in
  (forall i d, (i < idx)%nat -> nth_error devices i = Some d ->
               mic d = false) /\
  (mic dev = false ->
   Forall (fun d => mic d = false) devices /\
   forall i d, (i < idx)%nat -> nth_error devices i = Some d ->
               AudioUtils.is_input d = false).
Proof.
  unfold AudioUtils.get_first_microphone_device. intros H Hdev. cbv zeta.
  assert (Hext : forall d,
             AudioUtils.is_input d && AudioUtils.named_microphone d =
             AudioUtils.is_input d
             && RealtimeClient.contains "mic"
                  (RealtimeClient.lower (AudioUtils.name d)))
    by (intros d; now rewrite named_microphone_mic).
  destruct (AudioUtils.first_from _ 0 devices) as [i|] eqn:Hnamed.
  - injection H as <-.
    destruct (first_from_some _ _ _ _ Hnamed)
      as (j & dev1 & -> & Hnth & Hw & Hbefore).
    cbn [Nat.add] in *. rewrite Hdev in Hnth. injection Hnth as <-.
    split.
    + intros i d Hi Hd. rewrite <- Hext. now apply (Hbefore i).
    + rewrite <- Hext, Hw. discriminate.
  - apply first_from_none in Hnamed.
    destruct (first_from_some _ _ _ _ H) as (j & dev1 & -> & _ & _ & Hbefore).
    cbn [Nat.add] in *.
    assert (Hall : Forall
                     (fun d =>
                        AudioUtils.is_input d
                        && RealtimeClient.contains "mic"
                             (RealtimeClient.lower (AudioUtils.name d)) =
                        false) devices).
    { rewrite List.Forall_forall in *. intros d Hd.
      rewrite <- Hext. now apply Hnamed. }
    split.
    + intros i d Hi Hd. rewrite List.Forall_forall in Hall.
      apply Hall. now apply nth_error_In in Hd.
    + intros _. split; [exact Hall | exact Hbefore].
Qed.

Lemma named_microphone_preferred_witness :
  AudioUtils.is_input (AudioUtils.mk_device "Line In" 2)
  && RealtimeClient.contains "mic" (RealtimeClient.lower "Line In") = false.
Proof.
  destruct (named_microphone_preferred
              [AudioUtils.mk_device "Speakers" 0;
               AudioUtils.mk_device "Line In" 2;
               AudioUtils.mk_device "USB Microphone" 1] 2
              (AudioUtils.mk_device "USB Microphone" 1) eq_refl eq_refl)
    as [H _].
  apply (H 1%nat (AudioUtils.mk_device "Line In" 2)); [lia | reflexivity].
Defined.
